(** * lib/gui/utils.py: the preview cache of [Images] and [LongRunningTask]

    A shallow embedding of the parts of [lib/gui/utils.py] that poll a folder
    for preview images, keep a sliding window of thumbnails, lay the window
    out as a grid, load and delete the training previews, run a task in a
    background thread, place and clear the trigger files of the preview, and
    choose the title of the window and the dialog of a context.  Python
    objects become records, the instance and the disk are
    threaded through a state-and-exception monad, and the work of the imaging
    libraries (decoding, resampling, drawing) is read from the files
    themselves; the size that a picture is resized to is worked out in
    doubles, as Python does. *)

From stdpp Require Import gmap strings list fin_maps.
From Stdlib Require Import ZArith Ascii String Sorted.
From Stdlib Require SpecFloat.
Open Scope Z_scope.

(** ** Python preliminaries *)

(** The exception classes that the module raises, catches or lets through.
    [RuntimeError] stands for any other subclass of [Exception];
    [KeyboardInterrupt] and [SystemExit] derive from [BaseException] only. *)
Inductive exn :=
| AssertionError | ZeroDivisionError | OverflowError | ValueError | KeyError
| OSError | PermissionError | FileNotFoundError | NotADirectoryError
| IsADirectoryError | RuntimeError
| KeyboardInterrupt | SystemExit.

(** [except OSError] *)
Definition is_OSError (e : exn) : bool :=
  match e with
  | OSError | PermissionError | FileNotFoundError
  | NotADirectoryError | IsADirectoryError => true
  | _ => false
  end.

(** [except PermissionError] *)
Definition is_PermissionError (e : exn) : bool :=
  match e with PermissionError => true | _ => false end.

(** [except ValueError] *)
Definition is_ValueError (e : exn) : bool :=
  match e with ValueError => true | _ => false end.

(** [except Exception] *)
Definition is_Exception (e : exn) : bool :=
  match e with KeyboardInterrupt | SystemExit => false | _ => true end.

Inductive result (A : Type) :=
| Ok (a : A)
| Raise (e : exn).
Arguments Ok {A} a.
Arguments Raise {A} e.

(** Python clamps the bounds of a slice: a negative index counts from the
    end, and an index beyond either end stops there. *)
Definition clamp (len i : Z) : nat :=
  Z.to_nat (if i <? 0 then Z.max 0 (len + i) else Z.min i len).

(** [l[i:]] *)
Definition slice_from {A} (i : Z) (l : list A) : list A :=
  drop (clamp (Z.of_nat (List.length l)) i) l.

(** [l[i:j]] *)
Definition slice {A} (i j : Z) (l : list A) : list A :=
  let n := Z.of_nat (List.length l) in
  take (clamp n j - clamp n i)%nat (drop (clamp n i) l).

(** [a // b] on integers: [Z.div] rounds towards minus infinity as Python
    does; Python raises where [Z.div] would answer 0. *)
Definition floordiv (a b : Z) : result Z :=
  if b =? 0 then Raise ZeroDivisionError else Ok (a / b).

(** *** Floats *)

(** A Python [float] is an IEEE 754 double: 53 bits of precision and
    exponents below 1024; every operation rounds to the nearest double,
    ties to even. *)
Definition float : Type := SpecFloat.spec_float.

(** An integer as a division takes it: exactly. *)
Definition float_exact (n : Z) : float :=
  match n with
  | 0 => SpecFloat.S754_zero false
  | Z.pos m => SpecFloat.S754_finite false m 0
  | Z.neg m => SpecFloat.S754_finite true m 0
  end.

(** Python raises where the conversion or the division of integers leaves
    the doubles. *)
Definition float_finite (x : float) : result float :=
  match x with
  | SpecFloat.S754_infinity _ | SpecFloat.S754_nan => Raise OverflowError
  | _ => Ok x
  end.

(** [a / b] on integers: the double nearest to the quotient. *)
Definition truediv (a b : Z) : result float :=
  if b =? 0 then Raise ZeroDivisionError
  else float_finite (SpecFloat.SFdiv 53 1024 (float_exact a) (float_exact b)).

(** [n * x] for an integer and a float: the integer becomes the nearest
    double first, and one beyond the doubles raises; the product itself may
    be infinite. *)
Definition float_mul (n : Z) (x : float) : result float :=
  match float_finite (SpecFloat.binary_normalize 53 1024 n 0 false) with
  | Ok y => Ok (SpecFloat.SFmul 53 1024 y x)
  | Raise e => Raise e
  end.

(** [int(x)]: towards zero. *)
Definition int (x : float) : result Z :=
  match x with
  | SpecFloat.S754_zero _ => Ok 0
  | SpecFloat.S754_finite s m e =>
      let magnitude := Z.shiftl (Z.pos m) e in
      Ok (if s then - magnitude else magnitude)
  | SpecFloat.S754_infinity _ => Raise OverflowError
  | SpecFloat.S754_nan => Raise ValueError
  end.

(** [(int(width * scaling), int(height * scaling))] *)
Definition scaled (size : Z * Z) (scaling : float) : result (Z * Z) :=
  match float_mul (fst size) scaling with
  | Raise e => Raise e
  | Ok x =>
      match int x with
      | Raise e => Raise e
      | Ok width =>
          match float_mul (snd size) scaling with
          | Raise e => Raise e
          | Ok y =>
              match int y with
              | Raise e => Raise e
              | Ok height => Ok (width, height)
              end
          end
      end
  end.

(** [sorted(l, key=...)] once the keys are known: a stable insertion sort. *)
Fixpoint insert_by_key {A} (k : Z) (x : A) (l : list (Z * A)) : list (Z * A) :=
  match l with
  | [] => [(k, x)]
  | (k', y) :: l' =>
      if k <=? k' then (k, x) :: (k', y) :: l'
      else (k', y) :: insert_by_key k x l'
  end.

Fixpoint sort_by_key {A} (l : list (Z * A)) : list (Z * A) :=
  match l with
  | [] => []
  | (k, x) :: l' => insert_by_key k x (sort_by_key l')
  end.

(** *** Strings *)

Definition is_upper (c : ascii) : bool :=
  let n := nat_of_ascii c in (65 <=? n)%nat && (n <=? 90)%nat.

Definition is_lower (c : ascii) : bool :=
  let n := nat_of_ascii c in (97 <=? n)%nat && (n <=? 122)%nat.

Definition to_lower (c : ascii) : ascii :=
  if is_upper c then ascii_of_nat (nat_of_ascii c + 32) else c.

Definition to_upper (c : ascii) : ascii :=
  if is_lower c then ascii_of_nat (nat_of_ascii c - 32) else c.

(** [s.lower()] *)
Fixpoint lower (s : string) : string :=
  match s with
  | EmptyString => EmptyString
  | String c s' => String (to_lower c) (lower s')
  end.

(** [s.startswith(p)] *)
Definition startswith (s p : string) : bool := String.prefix p s.

(** [s.endswith(p)] *)
Definition endswith (s p : string) : bool :=
  String.prefix (String.rev p) (String.rev s).

(** [s.rfind(c)] for a one-character [c]: the last index of [c], or -1. *)
Fixpoint rfind (c : ascii) (s : list ascii) : Z :=
  match s with
  | [] => -1
  | a :: s' =>
      let r := rfind c s' in
      if 0 <=? r then r + 1
      else if Ascii.eqb a c then 0 else -1
  end.

(** [s.title()]: a cased character is upper-cased after an uncased one and
    lower-cased after a cased one. *)
Fixpoint title_from (cased : bool) (s : list ascii) : list ascii :=
  match s with
  | [] => []
  | c :: s' =>
      if is_upper c || is_lower c
      then (if cased then to_lower c else to_upper c) :: title_from true s'
      else c :: title_from false s'
  end.

Definition title (s : string) : string :=
  string_of_list_ascii (title_from false (list_ascii_of_string s)).

(** *** os.path, POSIX flavour *)

Definition sep : ascii := "/"%char.
Definition extsep : ascii := "."%char.

(** [os.path.join(a, b)] *)
Definition os_path_join (a b : string) : string :=
  if startswith b "/" then b
  else if String.eqb a "" || endswith a "/" then a +:+ b
  else a +:+ "/" +:+ b.

(** [os.path.basename(p)] *)
Definition os_path_basename (p : string) : string :=
  let l := list_ascii_of_string p in
  string_of_list_ascii (slice_from (rfind sep l + 1) l).

(** [os.path.splitext(p)[0]]: the extension starts at the last dot, unless
    only dots stand between the last separator and that dot. *)
Definition os_path_splitext_root (p : string) : string :=
  let l := list_ascii_of_string p in
  let sepIndex := rfind sep l in
  let dotIndex := rfind extsep l in
  if (sepIndex <? dotIndex)
     && existsb (fun c => negb (Ascii.eqb c extsep)) (slice (sepIndex + 1) dotIndex l)
  then string_of_list_ascii (slice 0 dotIndex l)
  else p.

(** ** Arrays, pictures and the disk *)

(** A numpy array holding one thumbnail: its shape and its values. *)
Record ndarray := { shape : list Z; pixels : list Z }.

(** A numpy array holding a sequence of thumbnails of one shape; its own
    shape is [length items :: item_shape]. *)
Record stack := { item_shape : list Z; items : list ndarray }.

(** What [Image.open] returns.  PIL decodes lazily: [im_load] is the
    exception, if any, raised when the pixels are first read (by [resize] or
    by [ImageTk.PhotoImage]).  [im_thumb size] is the array that
    [_pad_and_border] makes of the picture once resized for thumbnails of
    that size; resampling, padding and the outline are PIL's work. *)
Record image := {
  im_size : Z * Z;
  im_load : option exn;
  im_thumb : Z -> ndarray
}.

(** What PIL makes of the contents of a file. *)
Inductive picture :=
| OpenRaises (e : exn)
| Opens (img : image).

(** A directory keeps the names of its entries in the order in which the
    operating system lists them; an entry exists while its path is on the
    disk. *)
Inductive kind :=
| Dir (order : list string)
| File (data : picture).

(** The times of a file are floats in Python; the module only compares
    them, so integers stand for them here. *)
Record node := { mtime : Z; ctime : Z; what : kind }.

Abbreviation filesystem := (gmap string node).

Definition exists_ (d : filesystem) (p : string) : bool :=
  match d !! p with Some _ => true | None => false end.

Definition isdir (d : filesystem) (p : string) : bool :=
  match d !! p with
  | Some n => match what n with Dir _ => true | File _ => false end
  | None => false
  end.

Definition listdir (d : filesystem) (p : string) : result (list string) :=
  match d !! p with
  | Some n =>
      match what n with
      | Dir order =>
          Ok (List.filter (fun name => exists_ d (os_path_join p name)) order)
      | File _ => Raise NotADirectoryError
      end
  | None => Raise FileNotFoundError
  end.

Definition getmtime (d : filesystem) (p : string) : result Z :=
  match d !! p with
  | Some n => Ok (mtime n)
  | None => Raise FileNotFoundError
  end.

Definition getctime (d : filesystem) (p : string) : result Z :=
  match d !! p with
  | Some n => Ok (ctime n)
  | None => Raise FileNotFoundError
  end.

Definition remove (d : filesystem) (p : string) : result filesystem :=
  match d !! p with
  | Some n =>
      match what n with
      | Dir _ => Raise IsADirectoryError
      | File _ => Ok (delete p d)
      end
  | None => Raise FileNotFoundError
  end.

Definition open (d : filesystem) (p : string) : result image :=
  match d !! p with
  | Some n =>
      match what n with
      | Dir _ => Raise IsADirectoryError
      | File (OpenRaises e) => Raise e
      | File (Opens img) => Ok img
      end
  | None => Raise FileNotFoundError
  end.

(** Reading the pixels of an opened image. *)
Definition load (img : image) : result unit :=
  match im_load img with
  | Some e => Raise e
  | None => Ok tt
  end.

(** [img.resize(size)], for what can go wrong: the pixels are read first;
    an image that has the size already is copied as it is, and for another
    size the resampling refuses a side below one pixel. *)
Definition resize (img : image) (size : Z * Z) : result unit :=
  match load img with
  | Raise e => Raise e
  | Ok _ =>
      if bool_decide (size = im_size img) then Ok tt
      else if (fst size <? 1) || (snd size <? 1) then Raise ValueError
      else Ok tt
  end.

(** *** numpy *)

(** [np.array(samples)]: arrays of one shape stack up; numpy refuses a
    ragged list. *)
Definition np_array (samples : list ndarray) : result stack :=
  match samples with
  | [] => Ok {| item_shape := []; items := [] |}
  | a :: _ =>
      if forallb (fun b => bool_decide (shape b = shape a)) samples
      then Ok {| item_shape := shape a; items := samples |}
      else Raise ValueError
  end.

(** [np.any(a)] *)
Definition np_any (a : stack) : bool :=
  existsb (fun t => existsb (fun v => negb (v =? 0)) (pixels t)) (items a).

(** [np.concatenate((a, b))] *)
Definition np_concatenate (a b : stack) : result stack :=
  if bool_decide (item_shape a = item_shape b)
  then Ok {| item_shape := item_shape a; items := items a ++ items b |}
  else Raise ValueError.

(** [np.concatenate([np.expand_dims(a, 0)] * n)] *)
Definition np_repeat (a : ndarray) (n : Z) : result stack :=
  if n <=? 0 then Raise ValueError
  else Ok {| item_shape := shape a; items := replicate (Z.to_nat n) a |}.

(** [a[i:]] *)
Definition stack_from (i : Z) (a : stack) : stack :=
  {| item_shape := item_shape a; items := slice_from i (items a) |}.

(** ** The [Images] instance *)

(** [self._previewcache] *)
Record previewcache := {
  modified : option Z;
  images : option stack;
  filenames : list string;
  placeholder : option ndarray
}.

(** The composed preview: the rows of the grid, each a row of thumbnails. *)
Definition grid := list (list ndarray).

(** A value of [self._previewtrain]: the image, the size of its
    [PhotoImage] once made, and the modification time. *)
Record entry := {
  e_image : image;
  e_photo : option (Z * Z);
  e_modified : Z
}.

Record Images := {
  _pathpreview : string;
  _pathoutput : option string;
  _batch_mode : bool;
  _previewoutput : option grid;
  _previewtrain : gmap string entry;
  _previewcache : previewcache;
  _errcount : Z
}.

(** The instance, the disk it polls and what it has printed. *)
Record world := {
  self : Images;
  disk : filesystem;
  stdout : list string
}.

Definition with_self (f : Images -> Images) (w : world) : world :=
  {| self := f (self w); disk := disk w; stdout := stdout w |}.

Definition with_cache (f : previewcache -> previewcache) (w : world) : world :=
  with_self (fun s =>
    {| _pathpreview := _pathpreview s; _pathoutput := _pathoutput s;
       _batch_mode := _batch_mode s; _previewoutput := _previewoutput s;
       _previewtrain := _previewtrain s; _previewcache := f (_previewcache s);
       _errcount := _errcount s |}) w.

Definition set_modified (v : option Z) : world -> world :=
  with_cache (fun c =>
    {| modified := v; images := images c; filenames := filenames c;
       placeholder := placeholder c |}).

Definition set_images (v : option stack) : world -> world :=
  with_cache (fun c =>
    {| modified := modified c; images := v; filenames := filenames c;
       placeholder := placeholder c |}).

Definition set_filenames (v : list string) : world -> world :=
  with_cache (fun c =>
    {| modified := modified c; images := images c; filenames := v;
       placeholder := placeholder c |}).

Definition set_placeholder (v : option ndarray) : world -> world :=
  with_cache (fun c =>
    {| modified := modified c; images := images c; filenames := filenames c;
       placeholder := v |}).

Definition set_previewoutput (v : option grid) : world -> world :=
  with_self (fun s =>
    {| _pathpreview := _pathpreview s; _pathoutput := _pathoutput s;
       _batch_mode := _batch_mode s; _previewoutput := v;
       _previewtrain := _previewtrain s; _previewcache := _previewcache s;
       _errcount := _errcount s |}).

Definition set_previewtrain (v : gmap string entry) : world -> world :=
  with_self (fun s =>
    {| _pathpreview := _pathpreview s; _pathoutput := _pathoutput s;
       _batch_mode := _batch_mode s; _previewoutput := _previewoutput s;
       _previewtrain := v; _previewcache := _previewcache s;
       _errcount := _errcount s |}).

Definition set_errcount (v : Z) : world -> world :=
  with_self (fun s =>
    {| _pathpreview := _pathpreview s; _pathoutput := _pathoutput s;
       _batch_mode := _batch_mode s; _previewoutput := _previewoutput s;
       _previewtrain := _previewtrain s; _previewcache := _previewcache s;
       _errcount := v |}).

Definition set_disk (v : filesystem) (w : world) : world :=
  {| self := self w; disk := v; stdout := stdout w |}.

Definition print (line : string) (w : world) : world :=
  {| self := self w; disk := disk w; stdout := stdout w ++ [line] |}.

Definition cache (w : world) : previewcache := _previewcache (self w).

(** ** Methods as computations

    A method reads and writes the world and either returns or raises; what
    it wrote before raising stays written. *)
Definition M (A : Type) : Type := world -> result A * world.

#[global] Instance M_ret : MRet M := fun A a w => (Ok a, w).

#[global] Instance M_bind : MBind M := fun A B f m w =>
  match m w with
  | (Ok a, w') => f a w'
  | (Raise e, w') => (Raise e, w')
  end.

Definition raise {A} (e : exn) : M A := fun w => (Raise e, w).

(** Reading the world; the reading may raise. *)
Definition reads {A} (f : world -> result A) : M A := fun w => (f w, w).

Definition gets {A} (f : world -> A) : M A := fun w => (Ok (f w), w).

Definition modify (f : world -> world) : M unit := fun w => (Ok tt, f w).

Definition lift {A} (r : result A) : M A := fun w => (r, w).

(** [try: body / except <caught>: handler] *)
Definition try_except {A} (body : M A) (caught : exn -> bool) (handler : M A) : M A :=
  fun w =>
    match body w with
    | (Ok a, w') => (Ok a, w')
    | (Raise e, w') => if caught e then handler w' else (Raise e, w')
    end.

(** A [for] loop whose body returns nothing. *)
Fixpoint for_each {A} (l : list A) (body : A -> M unit) : M unit :=
  match l with
  | [] => mret tt
  | x :: l' => body x ;; for_each l' body
  end.

(** A comprehension whose element expression may raise. *)
Fixpoint for_list {A B} (l : list A) (f : A -> M B) : M (list B) :=
  match l with
  | [] => mret []
  | x :: l' => y ← f x; ys ← for_list l' f; mret (y :: ys)
  end.

Definition os_path_isdir (p : string) : M bool := gets (fun w => isdir (disk w) p).
Definition os_listdir (p : string) : M (list string) := reads (fun w => listdir (disk w) p).
Definition os_path_getmtime (p : string) : M Z := reads (fun w => getmtime (disk w) p).
Definition os_path_getctime (p : string) : M Z := reads (fun w => getctime (disk w) p).
Definition Image_open (p : string) : M image := reads (fun w => open (disk w) p).

Definition os_remove (p : string) : M unit :=
  d ← reads (fun w => remove (disk w) p);
  modify (set_disk d).

(** [max(l)] *)
Definition max_ (l : list Z) : result Z :=
  match l with
  | [] => Raise ValueError
  | x :: l' => Ok (foldl Z.max x l')
  end.

(** A comprehension with a condition that may raise. *)
Fixpoint for_filter {A} (l : list A) (cond : A -> M bool) : M (list A) :=
  match l with
  | [] => mret []
  | x :: l' =>
      keep ← cond x;
      xs ← for_filter l' cond;
      mret (if keep : bool then x :: xs else xs)
  end.

(** [assert self._pathoutput is not None] *)
Definition get_pathoutput : M string :=
  out ← gets (fun w => _pathoutput (self w));
  match out with
  | Some location => mret location
  | None => raise AssertionError
  end.

(** ** [LongRunningTask] *)

(** Values a target may return. *)
Inductive value :=
| VNone
| VInt (n : Z)
| VStr (s : string).

(** An exception object: its class, the identity of the object and the
    traceback it carries. *)
Record exception := {
  exc_class : exn;
  exc_id : positive;
  exc_traceback : list string
}.

(** [e.with_traceback(tb)] is [e] itself, carrying [tb]. *)
Definition with_traceback (e : exception) (tb : list string) : exception :=
  {| exc_class := exc_class e; exc_id := exc_id e; exc_traceback := tb |}.

(** What calling the target with its arguments does. *)
Inductive behaviour :=
| Returns (retval : value)
| Throws (e : exception).

(** The thread object: [_target] is [None] when no target was given;
    [_complete] is the event, [_queue] the queue in arrival order, and
    [cursor_busy] the cursor that the configuration object shows. *)
Record LongRunningTask := {
  _target : option behaviour;
  err : option (exn * exception * list string);
  _complete : bool;
  _queue : list value;
  cursor_busy : bool
}.

(** [LongRunningTask(target=...)] *)
Definition init (target : option behaviour) : LongRunningTask :=
  {| _target := target; err := None; _complete := false; _queue := [];
     cursor_busy := true |}.

(** The [try] and [except] clauses of [run]: the task as they leave it, and
    the exception that escapes them, if any. *)
Definition run_try (t : LongRunningTask) : LongRunningTask * option exception :=
  match _target t with
  | None => (t, None)
  | Some (Returns retval) =>
      ({| _target := _target t; err := err t; _complete := _complete t;
          _queue := _queue t ++ [retval]; cursor_busy := cursor_busy t |}, None)
  | Some (Throws e) =>
      if is_Exception (exc_class e)
      then ({| _target := _target t;
               err := Some (exc_class e, e, exc_traceback e);
               _complete := _complete t; _queue := _queue t;
               cursor_busy := cursor_busy t |}, None)
      else (t, Some e)
  end.

(** The [finally] clause of [run]. *)
Definition run_finally (t : LongRunningTask) : LongRunningTask :=
  {| _target := None; err := err t; _complete := true; _queue := _queue t;
     cursor_busy := cursor_busy t |}.

Definition run (t : LongRunningTask) : LongRunningTask * option exception :=
  let '(t', escaped) := run_try t in (run_finally t', escaped).

(** How a call of [get_result] ends; [Blocks] is a [Queue.get] on an empty
    queue, which waits for an item. *)
Inductive outcome :=
| Returned (v : value)
| Raised (e : exception)
| Blocks.

Definition set_cursor_default (t : LongRunningTask) : LongRunningTask :=
  {| _target := _target t; err := err t; _complete := _complete t;
     _queue := _queue t; cursor_busy := false |}.

Definition get_result (t : LongRunningTask) : outcome * LongRunningTask :=
  if negb (_complete t) then (Returned VNone, t)
  else
    match err t with
    | Some (_, e, tb) => (Raised (with_traceback e tb), set_cursor_default t)
    | None =>
        match _queue t with
        | [] => (Blocks, t)
        | retval :: rest =>
            (Returned retval,
             set_cursor_default
               {| _target := _target t; err := err t; _complete := _complete t;
                  _queue := rest; cursor_busy := cursor_busy t |})
        end
    end.

(** ** Files as the loop of [_load_images_to_cache] sees them *)

Definition mtime_of (d : filesystem) (p : string) : Z :=
  match d !! p with Some n => mtime n | None => 0 end.

Definition ctime_of (d : filesystem) (p : string) : Z :=
  match d !! p with Some n => ctime n | None => 0 end.

(** What the loop does with one file: it appends a thumbnail, or catches the
    failure and drops the file, or lets an exception through.  [Image.open]
    is guarded by [except Exception], the division that gives the scaling
    is not guarded, and the resizing is guarded by [except OSError] only. *)
Inductive loading :=
| Thumbnail (th : ndarray)
| Caught
| Escapes (e : exn).

Definition loading_of (d : filesystem) (thumbnail_size : Z) (p : string) : loading :=
  match open d p with
  | Raise e => if is_Exception e then Caught else Escapes e
  | Ok img =>
      match truediv thumbnail_size (Z.max (fst (im_size img)) (snd (im_size img))) with
      | Raise e => Escapes e
      | Ok scaling =>
          match scaled (im_size img) scaling with
          | Raise e => if is_OSError e then Caught else Escapes e
          | Ok size =>
              match resize img size with
              | Raise e => if is_OSError e then Caught else Escapes e
              | Ok _ => Thumbnail (im_thumb img thumbnail_size)
              end
          end
      end
  end.

(** The thumbnail of a file that opens and resizes. *)
Definition thumbnail (d : filesystem) (thumbnail_size : Z) (p : string) : option ndarray :=
  match loading_of d thumbnail_size p with
  | Thumbnail th => Some th
  | _ => None
  end.

Definition usable (d : filesystem) (thumbnail_size : Z) (p : string) : bool :=
  match thumbnail d thumbnail_size p with Some _ => true | None => false end.

(** A file whose failure the loop catches: [Image.open] raises an
    [Exception], or [resize] raises an [OSError]. *)
Definition is_dropped (d : filesystem) (thumbnail_size : Z) (p : string) : bool :=
  match loading_of d thumbnail_size p with
  | Caught => true
  | _ => false
  end.

(** The exception of the first of the files whose failure the loop lets
    through. *)
Fixpoint escaping (d : filesystem) (thumbnail_size : Z) (files : list string) : option exn :=
  match files with
  | [] => None
  | f :: rest =>
      match loading_of d thumbnail_size f with
      | Escapes e => Some e
      | _ => escaping d thumbnail_size rest
      end
  end.

(** The files that [_load_images_to_cache] tries: the last [num_images] in
    order of creation time. *)
Definition shown (d : filesystem) (image_files : list string) (num_images : Z) : list string :=
  let count := Z.of_nat (List.length image_files) in
  let start_idx := if num_images <? count then count - num_images else 0 in
  slice_from start_idx
    (map snd (sort_by_key (zip (map (ctime_of d) image_files) image_files))).


(** ** More of the disk *)

(** [except FileNotFoundError] *)
Definition is_FileNotFoundError (e : exn) : bool :=
  match e with FileNotFoundError => true | _ => false end.

(** [os.path.isfile(p)] *)
Definition isfile (d : filesystem) (p : string) : bool :=
  match d !! p with
  | Some n => match what n with File _ => true | Dir _ => false end
  | None => false
  end.

(** The separators at the head of a list of characters, dropped. *)
Fixpoint drop_seps (s : list ascii) : list ascii :=
  match s with
  | c :: s' => if Ascii.eqb c sep then drop_seps s' else s
  | [] => []
  end.

(** [os.path.dirname(p)]: what stands before the last separator, without
    its trailing separators unless it is made of separators only. *)
Definition os_path_dirname (p : string) : string :=
  let l := list_ascii_of_string p in
  let head := slice 0 (rfind sep l + 1) l in
  string_of_list_ascii
    (match drop_seps (rev head) with
     | [] => head
     | stripped => rev stripped
     end).

(** What is in a file that was just created: nothing, which PIL cannot
    identify as an image ([UnidentifiedImageError] is an [OSError]). *)
Definition empty_file : picture := OpenRaises OSError.

(** [open(p, "w")] followed by [close]: the file is created, or emptied
    when there is one; the folder it goes into has to be there (a path
    without a folder goes into the working directory); the name joins the
    listing of the folder.  [now] is the time that the operating system
    stamps on the file.  The times of the folder itself stay as they are:
    no method reads the times of a folder that it writes to. *)
Definition create (now : Z) (d : filesystem) (p : string) : result filesystem :=
  let parent := os_path_dirname p in
  let name := os_path_basename p in
  let d' := <[p := {| mtime := now; ctime := now; what := File empty_file |}]> d in
  match d !! p with
  | Some {| what := Dir _ |} => Raise IsADirectoryError
  | _ =>
      if String.eqb parent "" then Ok d'
      else
        match d !! parent with
        | None => Raise FileNotFoundError
        | Some folder =>
            match what folder with
            | File _ => Raise NotADirectoryError
            | Dir order =>
                Ok (<[parent := {| mtime := mtime folder; ctime := ctime folder;
                                   what := Dir (if bool_decide (name ∈ order) then order
                                                else order ++ [name]) |}]> d')
            end
        end
  end.

Definition os_path_isfile (p : string) : M bool := gets (fun w => isfile (disk w) p).

(** [with open(p, "w", encoding="utf8"): pass] at time [now] *)
Definition open_w (now : Z) (p : string) : M unit :=
  d ← reads (fun w => create now (disk w) p);
  modify (set_disk d).

(** ** [PreviewTrigger] *)

(** A dictionary with its keys in the order in which they were inserted. *)
Definition dict (V : Type) : Type := list (string * V).

(** [d[key]] *)
Fixpoint getitem {V} (d : dict V) (key : string) : result V :=
  match d with
  | [] => Raise KeyError
  | (k, v) :: d' => if String.eqb k key then Ok v else getitem d' key
  end.

(** [list(d.values())] *)
Definition values {V} (d : dict V) : list V := map snd d.

Module PreviewTrigger.

(** The object: [self._trigger_files]. *)
Record t := { _trigger_files : dict string }.

(** [PreviewTrigger()], for the cache folder [PATHCACHE] of the module. *)
Definition init (PATHCACHE : string) : t :=
  {| _trigger_files :=
       [("update", os_path_join PATHCACHE ".preview_trigger");
        ("mask_toggle", os_path_join PATHCACHE ".preview_mask_toggle")] |}.

(** [PreviewTrigger.set], called at time [now]. *)
Definition set (this : t) (now : Z) (trigger_type : string) : M unit :=
  trigger ← lift (getitem (_trigger_files this) trigger_type);
  found ← os_path_isfile trigger;
  if negb (found : bool) then open_w now trigger else mret tt.

(** [PreviewTrigger.clear]; [None] clears every trigger. *)
Definition clear (this : t) (trigger_type : option string) : M unit :=
  triggers ← match trigger_type with
             | None => mret (values (_trigger_files this))
             | Some type =>
                 trigger ← lift (getitem (_trigger_files this) type);
                 mret [trigger]
             end;
  for_each triggers (fun trigger =>
    found ← os_path_isfile trigger;
    if found : bool then os_remove trigger else mret tt).

End PreviewTrigger.

(** ** [Config.set_root_title] *)

(** The title that [set_root_title] hands to the root window. *)
Definition set_root_title (text : option string) : string :=
  "Faceswap.py" +:+
  match text with
  | Some extra => if negb (String.eqb extra "") then " - " +:+ extra else ""
  | None => ""
  end.

(** ** More of the [Images] instance *)

Definition set_pathoutput (v : option string) : world -> world :=
  with_self (fun s =>
    {| _pathpreview := _pathpreview s; _pathoutput := v;
       _batch_mode := _batch_mode s; _previewoutput := _previewoutput s;
       _previewtrain := _previewtrain s; _previewcache := _previewcache s;
       _errcount := _errcount s |}).

Definition set_batch_mode (v : bool) : world -> world :=
  with_self (fun s =>
    {| _pathpreview := _pathpreview s; _pathoutput := _pathoutput s;
       _batch_mode := v; _previewoutput := _previewoutput s;
       _previewtrain := _previewtrain s; _previewcache := _previewcache s;
       _errcount := _errcount s |}).

(** [Images.set_faceswap_output_path] *)
Definition set_faceswap_output_path (location : string) (batch_mode : bool) : M unit :=
  modify (set_pathoutput (Some location));;
  modify (set_batch_mode batch_mode).

(** [Images._clear_image_cache] *)
Definition _clear_image_cache : M unit :=
  modify (set_pathoutput None);;
  modify (set_batch_mode false);;
  modify (set_previewoutput None);;
  modify (set_previewtrain ∅);;
  modify (with_cache (fun _ =>
    {| modified := None; images := None; filenames := []; placeholder := None |})).

(** [item.startswith(".gui_training_preview") and item.endswith(".jpg")] *)
Definition is_training_preview (item : string) : bool :=
  startswith item ".gui_training_preview" && endswith item ".jpg".

(** [os.path.basename(fname) == ".gui_preview.jpg"] *)
Definition is_gui_preview (fname : string) : bool :=
  String.eqb (os_path_basename fname) ".gui_preview.jpg".

(** [Images.delete_preview] *)
Definition delete_preview : M unit :=
  pathpreview ← gets (fun w => _pathpreview (self w));
  listing ← os_listdir pathpreview;
  for_each listing (fun item =>
    if is_training_preview item
    then
      pathpreview ← gets (fun w => _pathpreview (self w));
      os_remove (os_path_join pathpreview item)
    else mret tt);;
  names ← gets (fun w => filenames (cache w));
  for_each names (fun fname =>
    if is_gui_preview fname
    then try_except (os_remove fname) is_FileNotFoundError (mret tt)
    else mret tt);;
  _clear_image_cache.

(** ** More of [LongRunningTask] *)

(** The task after [n] calls of [get_result]. *)
Definition after_calls (n : nat) (t : LongRunningTask) : LongRunningTask :=
  Nat.iter n (fun t => snd (get_result t)) t.

(** ** [FileHandler]: the dialog of a context *)

(** [FileHandler._contexts] *)
Definition _contexts : dict (dict (dict string)) :=
  [("effmpeg",
    [("input", [("extract", "filename");
                ("gen-vid", "dir");
                ("get-fps", "filename");
                ("get-info", "filename");
                ("mux-audio", "filename");
                ("rescale", "filename");
                ("rotate", "filename");
                ("slice", "filename")]);
     ("output", [("extract", "dir");
                 ("gen-vid", "save_filename");
                 ("get-fps", "nothing");
                 ("get-info", "nothing");
                 ("mux-audio", "save_filename");
                 ("rescale", "save_filename");
                 ("rotate", "save_filename");
                 ("slice", "save_filename")])])].

(** What [_set_context_handletype] binds to [self._handletype]: the name of
    a dialog, or, from its [else] branch, a table of the contexts. *)
Inductive handletype :=
| Dialog (name : string)
| Actions (table : dict string).

(** [FileHandler._set_context_handletype]: the value of [self._handletype]
    afterwards. *)
Definition _set_context_handletype (command action variable : string) : result handletype :=
  match getitem _contexts command with
  | Raise e => Raise e
  | Ok variables =>
      match getitem variables variable with
      | Ok table =>
          match getitem table action with
          | Ok name => Ok (Dialog name)
          | Raise e => Raise e
          end
      | Raise _ =>
          match getitem variables action with
          | Ok table => Ok (Actions table)
          | Raise e => Raise e
          end
      end
  end.

(** The dialogs that [FileHandler] has a method for: [_open], [_save],
    [_dir] and so on. *)
Definition dialogs : list string :=
  ["open"; "save"; "dir"; "savedir"; "filename"; "filename_multi"; "save_filename";
   "nothing"].
(** ** Worlds to run the methods on *)

Definition tile (v : Z) : ndarray := {| shape := [2; 2; 3]; pixels := [v; 0; 0] |}.

Definition photo (v : Z) : picture :=
  Opens {| im_size := (4, 4); im_load := None; im_thumb := fun _ => tile v |}.

Definition file_node (m c : Z) (p : picture) : node :=
  {| mtime := m; ctime := c; what := File p |}.

Definition dir_node (names : list string) : node :=
  {| mtime := 0; ctime := 0; what := Dir names |}.

Definition fresh_cache : previewcache :=
  {| modified := None; images := None; filenames := []; placeholder := None |}.

Definition images_of (out : string) (c : previewcache) : Images :=
  {| _pathpreview := "/cache/preview"; _pathoutput := Some out; _batch_mode := false;
     _previewoutput := None; _previewtrain := ∅; _previewcache := c;
     _errcount := 0 |}.

Definition world_of (c : previewcache) (d : filesystem) : world :=
  {| self := images_of "/out" c; disk := d; stdout := [] |}.

(** A cache of five thumbnails, as a panel of five cells leaves it. *)
Definition long_cache : previewcache :=
  {| modified := Some 9;
     images := Some {| item_shape := [2; 2; 3];
                       items := [tile 1; tile 2; tile 3; tile 4; tile 5] |};
     filenames := ["/out/1.png"; "/out/2.png"; "/out/3.png"; "/out/4.png"; "/out/5.png"];
     placeholder := None |}.

(** The square with its outline as PIL draws it: the top row and the left
    column of a black square, the other two edges falling outside. *)
Definition outlined (side : Z) : list Z :=
  y ← seqZ 0 side; x ← seqZ 0 side;
  if (x =? 0) || (y =? 0) then [229; 229; 229] else [0; 0; 0].

(** A [resize_image] that fills the frame. *)
Definition fill_frame (dims size : Z * Z) : result (Z * Z) := Ok dims.

(** An output folder with a picture and a file that may not be opened. *)
Definition two_files : filesystem :=
  <["/out" := dir_node ["a.png"; "b.jpg"]]>
  (<["/out/a.png" := file_node 5 3 (photo 1)]>
  (<["/out/b.jpg" := file_node 7 4 (OpenRaises PermissionError)]> ∅)).

(** An output folder in which a picture and the single preview stand side
    by side. *)
Definition with_preview (preview : picture) : filesystem :=
  <["/out" := dir_node ["a.png"; ".gui_preview.jpg"]]>
  (<["/out/a.png" := file_node 5 3 (photo 1)]>
  (<["/out/.gui_preview.jpg" := file_node 7 4 preview]> ∅)).

(** A picture whose pixels cannot be read. *)
Definition truncated (e : exn) : picture :=
  Opens {| im_size := (4, 4); im_load := Some e; im_thumb := fun _ => tile 0 |}.

(** An output folder of files that do not load. *)
Definition no_pictures : filesystem :=
  <["/out" := dir_node ["x.png"; "y.jpg"]]>
  (<["/out/x.png" := file_node 5 3 (truncated OSError)]>
  (<["/out/y.jpg" := file_node 7 4 (OpenRaises PermissionError)]> ∅)).

(** A cache that has seen everything up to time 5. *)
Definition seen_to_5 : previewcache :=
  {| modified := Some 5; images := None; filenames := []; placeholder := None |}.

(** A cache of two thumbnails. *)
Definition two_cached : previewcache :=
  {| modified := Some 9;
     images := Some {| item_shape := [2; 2; 3]; items := [tile 1; tile 2] |};
     filenames := ["/out/1.png"; "/out/2.png"];
     placeholder := None |}.

(** The preview folder with one training preview. *)
Definition training (preview : picture) : filesystem :=
  <["/cache/preview" := dir_node [".gui_training_preview_a.jpg"]]>
  (<["/cache/preview/.gui_training_preview_a.jpg" := file_node 5 3 preview]> ∅).


(** The cache folder of the module, empty. *)
Definition cache_folder : filesystem := <["/cache" := dir_node []]> ∅.

(** The cache folder with the update trigger in place. *)
Definition triggered : filesystem :=
  <["/cache" := dir_node [".preview_trigger"]]>
  (<["/cache/.preview_trigger" := file_node 1 1 empty_file]> ∅).

(** The output folder of a batch: two folders and a picture. *)
Definition batch_folders : filesystem :=
  <["/out" := dir_node ["a"; "b"; "c.png"]]>
  (<["/out/a" := {| mtime := 3; ctime := 1; what := Dir [] |}]>
  (<["/out/b" := {| mtime := 9; ctime := 2; what := Dir [] |}]>
  (<["/out/c.png" := file_node 5 3 (photo 1)]> ∅))).

(** An output folder with one picture. *)
Definition one_file : filesystem :=
  <["/out" := dir_node ["a.png"]]> (<["/out/a.png" := file_node 5 3 (photo 1)]> ∅).

(** A cache that has shown a single preview. *)
Definition previewed : previewcache :=
  {| modified := Some 7;
     images := Some {| item_shape := [2; 2; 3]; items := [tile 1] |};
     filenames := ["/out/.gui_preview.jpg"];
     placeholder := None |}.

(** A thumbnail of another size. *)
Definition wide_tile : ndarray := {| shape := [4; 4; 3]; pixels := [1; 0; 0] |}.

(** An exception that is no [Exception], and one that is. *)
Definition interrupt : exception :=
  {| exc_class := KeyboardInterrupt; exc_id := 1; exc_traceback := ["target"] |}.

Definition bad_value : exception :=
  {| exc_class := ValueError; exc_id := 2; exc_traceback := ["target"] |}.

(** A cache of two thumbnails that has seen everything up to time 4. *)
Definition two_cached_early : previewcache :=
  {| modified := Some 4;
     images := Some {| item_shape := [2; 2; 3]; items := [tile 1; tile 2] |};
     filenames := ["/out/1.png"; "/out/2.png"];
     placeholder := None |}.

(** A sound picture of 1000 by 1 pixels. *)
Definition sliver : image :=
  {| im_size := (1000, 1); im_load := None; im_thumb := fun _ => tile 3 |}.

(** An output folder with a picture and the sliver. *)
Definition with_sliver : filesystem :=
  <["/out" := dir_node ["a.png"; "s.png"]]>
  (<["/out/a.png" := file_node 5 3 (photo 1)]>
  (<["/out/s.png" := file_node 7 4 (Opens sliver)]> ∅)).




(** The preview folder with two training previews, modified at 5 and at 8. *)
Definition two_trainings : filesystem :=
  <["/cache/preview" := dir_node [".gui_training_preview_a.jpg";
                                  ".gui_training_preview_b.jpg"]]>
  (<["/cache/preview/.gui_training_preview_a.jpg" := file_node 5 3 (photo 1)]>
  (<["/cache/preview/.gui_training_preview_b.jpg" := file_node 8 4 (photo 2)]> ∅)).

(** The preview folder without a file. *)
Definition no_training : filesystem := <["/cache/preview" := dir_node []]> ∅.

(** An instance that holds the stream of a file that is no longer in the
    preview folder. *)
Definition with_old_stream (d : filesystem) : world :=
  set_previewtrain
    (<["Old" := {| e_image := {| im_size := (4, 4); im_load := None;
                                 im_thumb := fun _ => tile 9 |};
                   e_photo := None; e_modified := 2 |}]> ∅)
    (world_of fresh_cache d).
Section Methods.

(** The two services of the imaging libraries that no file decides: the values
    of a black RGB square of a given side once [draw.rectangle] has outlined
    it, and the float arithmetic by which [resize_image] fits an image of a
    given size into a frame. *)
Variable outlined_blank : Z -> list Z.
Variable fit : Z * Z -> Z * Z -> result (Z * Z).

(** [Images._get_images]: the image files of a folder, none when there is
    no such folder. *)
Definition _get_images (image_path : string) : M (list string) :=
  found ← os_path_isdir image_path;
  if negb (found : bool) then mret []
  else
    names ← os_listdir image_path;
    mret (map (os_path_join image_path)
              (List.filter (fun f => endswith (lower f) ".png" || endswith (lower f) ".jpg")
                           names)).

(** [Images._get_newest_folder]: the folder of the output folder that was
    modified last, or the output folder itself. *)
Definition _get_newest_folder : M string :=
  out ← get_pathoutput;
  names ← os_listdir out;
  folders ← gets (fun w =>
    map (os_path_join out)
        (List.filter (fun folder => isdir (disk w) (os_path_join out folder)) names));
  keys ← for_list folders os_path_getmtime;
  let folders := map snd (sort_by_key (zip keys folders)) in
  mret (default out (last folders)).

(** [Images._get_newest_filenames]: the files modified since the last
    check. *)
Definition _get_newest_filenames (image_files : list string) : M (list string) :=
  watermark ← gets (fun w => modified (cache w));
  retval ← match watermark with
           | None => mret image_files
           | Some m =>
               for_filter image_files
                 (fun fname => t ← os_path_getmtime fname; mret (m <? t))
           end;
  match retval with
  | [] => mret retval
  | _ =>
      times ← for_list retval os_path_getmtime;
      newest ← lift (max_ times);
      modify (set_modified (Some newest));;
      mret retval
  end.

(** [Images._process_samples]: the new thumbnails and names join the cache,
    which keeps its last [num_images] entries. *)
Definition _process_samples
    (samples : list ndarray) (names : list string) (num_images : Z) : M bool :=
  asamples ← lift (np_array samples);
  if negb (np_any asamples) then mret false
  else
    old ← gets (fun w => filenames (cache w));
    modify (set_filenames (slice_from (- num_images) (old ++ names)));;
    cached ← gets (fun w => images (cache w));
    new ← match cached with
          | None => mret (stack_from (- num_images) asamples)
          | Some c =>
              joined ← lift (np_concatenate c asamples);
              mret (stack_from (- num_images) joined)
          end;
    modify (set_images (Some new));;
    mret true.

(** The loop of [_load_images_to_cache] over [show_files]. *)
Fixpoint load_samples (thumbnail_size : Z) (show_files : list string)
    (samples : list ndarray) (dropped_files : list string)
    : M (list ndarray * list string) :=
  match show_files with
  | [] => mret (samples, dropped_files)
  | fname :: rest =>
      opened ← try_except (img ← Image_open fname; mret (Some img))
                          (fun e => is_PermissionError e || is_Exception e)
                          (mret None);
      match opened with
      | None => load_samples thumbnail_size rest samples (dropped_files ++ [fname])
      | Some img =>
          let '(width, height) := im_size img in
          scaling ← lift (truediv thumbnail_size (Z.max width height));
          resized ← try_except
                      (size ← lift (scaled (width, height) scaling);
                       lift (resize img size);;
                       mret true)
                      is_OSError (mret false);
          if resized : bool
          then load_samples thumbnail_size rest
                            (samples ++ [im_thumb img thumbnail_size]) dropped_files
          else load_samples thumbnail_size rest samples (dropped_files ++ [fname])
      end
  end.

(** [(frame_dims[0] // thumbnail_size) * (frame_dims[1] // thumbnail_size)],
    the number of thumbnails that fit the panel. *)
Definition num_images (frame_dims : Z * Z) (thumbnail_size : Z) : result Z :=
  match floordiv (fst frame_dims) thumbnail_size with
  | Ok cols =>
      match floordiv (snd frame_dims) thumbnail_size with
      | Ok rows => Ok (cols * rows)
      | Raise e => Raise e
      end
  | Raise e => Raise e
  end.

(** [Images._load_images_to_cache] *)
Definition _load_images_to_cache
    (image_files : list string) (frame_dims : Z * Z) (thumbnail_size : Z) : M bool :=
  num_images ← lift (num_images frame_dims thumbnail_size);
  if num_images =? 0 then mret false
  else
    let count := Z.of_nat (List.length image_files) in
    let start_idx := if num_images <? count then count - num_images else 0 in
    keys ← for_list image_files os_path_getctime;
    let show_files := slice_from start_idx (map snd (sort_by_key (zip keys image_files))) in
    loaded ← load_samples thumbnail_size show_files [] [];
    let '(samples, dropped_files) := loaded in
    _process_samples samples
      (List.filter (fun fname => negb (bool_decide (fname ∈ dropped_files))) show_files)
      num_images.

(** [Images._create_placeholder] *)
Definition _create_placeholder (thumbnail_size : Z) : M unit :=
  modify (set_placeholder
            (Some {| shape := [thumbnail_size; thumbnail_size; 3];
                     pixels := outlined_blank thumbnail_size |})).

(** [Images._place_previews]: the cached thumbnails as a grid that fits the
    panel. *)
Definition _place_previews (frame_dims : Z * Z) : M (option grid) :=
  cached ← gets (fun w => images (cache w));
  match cached with
  | None => mret None
  | Some samples =>
      let num_images := Z.of_nat (List.length (items samples)) in
      thumbnail_size ← match item_shape samples with
                       | [] => raise ValueError
                       | side :: _ => mret side
                       end;
      blank ← gets (fun w => placeholder (cache w));
      match blank with
      | None => _create_placeholder thumbnail_size
      | Some _ => mret tt
      end;;
      cols ← lift (floordiv (fst frame_dims) thumbnail_size);
      rows ← lift (floordiv (snd frame_dims) thumbnail_size);
      if (cols =? 0) || (rows =? 0) then mret None
      else
        let remainder := cols * rows - num_images in
        samples ← (if negb (remainder =? 0)
                   then
                     blank ← gets (fun w => placeholder (cache w));
                     match blank with
                     | None => raise ValueError
                     | Some tile =>
                         padding ← lift (np_repeat tile remainder);
                         lift (np_concatenate samples padding)
                     end
                   else mret samples);
        let display :=
          map (fun row => slice (row * cols) ((row + 1) * cols) (items samples))
              (seqZ 0 rows) in
        match display with
        | [] => raise ValueError
        | _ => mret (Some display)
        end
  end.

(** [load_latest_preview] from the call of [_get_newest_filenames] on: the
    refresh of the display from the image files that were selected. *)
Definition show_preview (gui_preview : string) (image_files : list string)
    (thumbnail_size : Z) (frame_dims : Z * Z) : M unit :=
  image_files ← _get_newest_filenames image_files;
  if bool_decide (image_files = []) then mret tt
  else
    loaded ← _load_images_to_cache image_files frame_dims thumbnail_size;
    if negb (loaded : bool)
    then
      if bool_decide (gui_preview ∈ image_files)
      then modify (set_modified None)
      else mret tt
    else
      (if bool_decide (image_files = [gui_preview])
       then os_remove (default gui_preview (head image_files))
       else mret tt);;
      show_image ← _place_previews frame_dims;
      match show_image with
      | None => modify (set_previewoutput None)
      | Some display => modify (set_previewoutput (Some display))
      end.

(** [os.path.join(self._pathoutput, ".gui_preview.jpg")] *)
Definition gui_preview_of (out : string) : string :=
  os_path_join out ".gui_preview.jpg".

(** The first lines of [load_latest_preview]: the folder to poll and the
    image files that it holds. *)
Definition scan_output : M (string * list string) :=
  out ← get_pathoutput;
  batch ← gets (fun w => _batch_mode (self w));
  image_path ← (if batch : bool then _get_newest_folder else mret out);
  image_files ← _get_images image_path;
  mret (out, image_files).

(** [Images.load_latest_preview] *)
Definition load_latest_preview (thumbnail_size : Z) (frame_dims : Z * Z) : M unit :=
  scanned ← scan_output;
  let '(out, image_files) := scanned in
  let gui_preview := gui_preview_of out in
  if bool_decide (image_files = [])
     || ((List.length image_files =? 1)%nat && negb (bool_decide (gui_preview ∈ image_files)))
  then mret tt
  else
    let image_files :=
      if bool_decide (gui_preview ∈ image_files) then [gui_preview] else image_files in
    show_preview gui_preview image_files thumbnail_size frame_dims.

(** [Images._get_current_size] *)
Definition _get_current_size (name : string) : M (option (Z * Z)) :=
  train ← gets (fun w => _previewtrain (self w));
  match train !! name with
  | None => mret None
  | Some e => mret (e_photo e)
  end.

(** The thousand attempts of [resize_image]: an [OSError] is retried until
    the last attempt, anything else is raised at once. *)
Fixpoint resize_attempts (left : nat) (displayimg : image) (size : Z * Z) : result unit :=
  match resize displayimg size with
  | Ok _ => Ok tt
  | Raise e =>
      if is_OSError e
      then match left with
           | O => Raise e
           | S left' => resize_attempts left' displayimg size
           end
      else Raise e
  end.

(** [Images.resize_image] *)
Definition resize_image (name : string) (frame_dims : option (Z * Z)) : M unit :=
  train ← gets (fun w => _previewtrain (self w));
  match train !! name with
  | None => raise KeyError
  | Some e =>
      let displayimg := e_image e in
      size ← match frame_dims with
             | Some dims =>
                 size ← lift (fit dims (im_size displayimg));
                 lift (resize_attempts 999 displayimg size);;
                 mret size
             | None => lift (load displayimg);; mret (im_size displayimg)
             end;
      modify (set_previewtrain
                (<[name := {| e_image := displayimg; e_photo := Some size;
                              e_modified := e_modified e |}]> train))
  end.

(** The name of a training preview: what follows the last underscore of the
    file name without its extension, in title case. *)
Definition preview_name (img : string) : string :=
  let name := os_path_basename img in
  let name := os_path_splitext_root name in
  let chars := list_ascii_of_string name in
  title (string_of_list_ascii (slice_from (rfind "_"%char chars + 1) chars)).

(** The [try] clause of [load_training_preview] for one image file. *)
Definition read_training_image (img : string) (modified : Z) : M unit :=
  let name := preview_name img in
  size ← _get_current_size name;
  opened ← Image_open img;
  modify (fun w => set_previewtrain
            (<[name := {| e_image := opened; e_photo := None;
                          e_modified := modified |}]> (_previewtrain (self w))) w);;
  resize_image name size;;
  modify (set_errcount 0).

(** Its [except ValueError] clause. *)
Definition count_read_failure (img : string) : M unit :=
  let name := preview_name img in
  errcount ← gets (fun w => _errcount (self w));
  if errcount <? 10
  then modify (set_errcount (errcount + 1))
  else
    modify (print ("Error reading the preview file for " +:+ name));;
    train ← gets (fun w => _previewtrain (self w));
    match train !! name with
    | None => raise KeyError
    | Some _ => modify (set_previewtrain (delete name train))
    end.

(** The [try] statement of [load_training_preview] for one image file. *)
Definition load_training_image (img : string) (modified : Z) : M unit :=
  try_except (read_training_image img modified) is_ValueError (count_read_failure img).

(** The loop of [load_training_preview] over [image_files]. *)
Fixpoint load_training_images (image_files : list string) (modified : option Z) : M unit :=
  match image_files with
  | [] => mret tt
  | img :: rest =>
      modified ← match modified with
                 | None => os_path_getmtime img
                 | Some m => mret m
                 end;
      load_training_image img modified;;
      load_training_images rest (Some modified)
  end.

(** [Images.load_training_preview] *)
Definition load_training_preview : M unit :=
  pathpreview ← gets (fun w => _pathpreview (self w));
  image_files ← _get_images pathpreview;
  match image_files with
  | [] => modify (set_previewtrain ∅)
  | _ => load_training_images image_files None
  end.

(** [N] consecutive calls of [_process_samples], one per batch of thumbnails
    and their file names, for one number of cells. *)
Definition process_batches
    (batches : list (list ndarray * list string)) (num_images : Z) : M unit :=
  for_each batches (fun batch =>
    _process_samples (fst batch) (snd batch) num_images;; mret tt).

(** [n] consecutive polls of the training previews. *)
Fixpoint poll_training (n : nat) : M unit :=
  match n with
  | O => mret tt
  | S n' => load_training_preview;; poll_training n'
  end.

(** The thumbnails that the cache holds. *)
Definition cached_items (w : world) : list ndarray :=
  match images (cache w) with
  | Some c => items c
  | None => []
  end.

(** Some value of some thumbnail is not zero. *)
Definition nonzero (samples : list ndarray) : bool :=
  existsb (fun t => existsb (fun v => negb (v =? 0)) (pixels t)) samples.

(** A file that the watermark lets through. *)
Definition newer (w : world) (f : string) : Prop :=
  match modified (cache w) with
  | None => True
  | Some m => m < mtime_of (disk w) f
  end.

(** What the panel shows is as it was: the thumbnails, their file names and
    the composed preview. *)
Definition unchanged_display (w w' : world) : Prop :=
  images (cache w') = images (cache w)
  /\ filenames (cache w') = filenames (cache w)
  /\ _previewoutput (self w') = _previewoutput (self w).

(** The preview folder holds one image file, [img], and reading its pixels
    raises a [ValueError]; the stream has no [PhotoImage] yet. *)
Definition failing_stream (img : string) (w : world) : Prop :=
  fst (_get_images (_pathpreview (self w)) w) = Ok [img]
  /\ (exists opened, open (disk w) img = Ok opened /\ im_load opened = Some ValueError)
  /\ _previewtrain (self w) !! preview_name img ≫= e_photo = None.

(** ** Predicates of the proofs *)

(** A batch that the guard of [_process_samples] lets through. *)
Definition accepted (sh : list Z) (batch : list ndarray * list string) : Prop :=
  nonzero (fst batch) = true /\ Forall (fun t => shape t = sh) (fst batch).

(** A computation all of whose runs relate the world before to the world
    after by [R]. *)
Definition preserves (R : relation world) {A} (m : M A) : Prop :=
  forall w r w', m w = (r, w') -> R w w'.

(** [w'] differs from [w] in [_previewcache] at most. *)
Definition cache_only (w w' : world) : Prop :=
  exists c, w' = with_cache (fun _ => c) w.

(** A computation that writes to [_previewcache] only. *)
Abbreviation frames := (preserves cache_only).

(** [w'] has the cached thumbnails and names of [w]. *)
Definition same_entries (w w' : world) : Prop :=
  images (cache w') = images (cache w) /\ filenames (cache w') = filenames (cache w).

(** A computation that writes nothing. *)
Definition reader {A} (m : M A) : Prop := forall w r w', m w = (r, w') -> w' = w.

(** The rows cut out of [l], [c] cells each. *)
Definition rows_of {A} (c : nat) (l : list A) (r : nat) : list (list A) :=
  map (fun row => take c (drop (row * c) l)) (seq 0 r).


(** [w'] has the error count, the output, the disk and the preview folder of
    [w]. *)
Definition quiet (w w' : world) : Prop :=
  _errcount (self w') = _errcount (self w)
  /\ stdout w' = stdout w
  /\ disk w' = disk w
  /\ _pathpreview (self w') = _pathpreview (self w).

(** The error message of a stream. *)
Definition read_error (img : string) : string :=
  "Error reading the preview file for " +:+ preview_name img.

(** A failure that the loop of [_load_images_to_cache] catches, by its
    cause: [Image.open] raises an [Exception], or the image opens, its new
    size is worked out and [resize] raises an [OSError]. *)
Definition caught_failure (d : filesystem) (thumbnail_size : Z) (f : string) : Prop :=
  (exists e, open d f = Raise e /\ is_Exception e = true)
  \/ (exists img scaling size e,
        open d f = Ok img
        /\ truediv thumbnail_size (Z.max (fst (im_size img)) (snd (im_size img)))
           = Ok scaling
        /\ scaled (im_size img) scaling = Ok size
        /\ resize img size = Raise e
        /\ is_OSError e = true).

(** The order of [sorted(l, key=...)] on pairs of a key and an element. *)
Definition by_key {A} (a b : Z * A) : Prop := fst a <= fst b.

(** The cache holds as many thumbnails as file names. *)
Definition aligned (w : world) : Prop :=
  List.length (cached_items w) = List.length (filenames (cache w)).

(** A computation all of whose runs that return relate the world before to
    the world after by [R]. *)
Definition preserves_ok (R : relation world) {A} (m : M A) : Prop :=
  forall w a w', m w = (Ok a, w') -> R w w'.

Definition keeps_aligned (w w' : world) : Prop := aligned w -> aligned w'.

(** [w'] has the disk, the output folder, the batch mode and the watermark
    of [w]. *)
Definition settled (w w' : world) : Prop :=
  disk w' = disk w
  /\ _pathoutput (self w') = _pathoutput (self w)
  /\ _batch_mode (self w') = _batch_mode (self w)
  /\ modified (cache w') = modified (cache w).

(** A computation whose result hangs on the disk, the output folder and
    the batch mode only. *)
Definition scans {A} (m : M A) : Prop :=
  forall w w',
    disk w' = disk w ->
    _pathoutput (self w') = _pathoutput (self w) ->
    _batch_mode (self w') = _batch_mode (self w) ->
    fst (m w') = fst (m w).

(** The disk without the paths of a list. *)
Definition removed (paths : list string) (d : filesystem) : filesystem :=
  foldl (fun d p => delete p d) d paths.

(** Every entry of [_previewtrain] in [w'] carries the time [m], or carries
    the time that the entry of its name carries in [w]. *)
Definition stamped (m : Z) (w w' : world) : Prop :=
  forall name e,
    _previewtrain (self w') !! name = Some e ->
    e_modified e = m
    \/ exists e0, _previewtrain (self w) !! name = Some e0 /\ e_modified e0 = e_modified e.

(** [w'] has printed what [w] had printed and maybe more; if no more, every
    stream of [w] is a stream of [w']. *)
Definition kept (w w' : world) : Prop :=
  stdout w `prefix_of` stdout w'
  /\ (stdout w' = stdout w ->
      forall name, is_Some (_previewtrain (self w) !! name) ->
                   is_Some (_previewtrain (self w') !! name)).

(** ** Running computations *)

Lemma bind_ok {A B} (m : M A) (f : A -> M B) w a w' :
  m w = (Ok a, w') -> (m ≫= f) w = f a w'.
Proof. intros E. unfold mbind, M_bind. by rewrite E. Qed.

Lemma bind_raise {A B} (m : M A) (f : A -> M B) w e w' :
  m w = (Raise e, w') -> (m ≫= f) w = (Raise e, w').
Proof. intros E. unfold mbind, M_bind. by rewrite E. Qed.

Lemma bind_gets {A B} (g : world -> A) (f : A -> M B) w :
  (gets g ≫= f) w = f (g w) w.
Proof. done. Qed.

Lemma bind_modify {B} (g : world -> world) (f : unit -> M B) w :
  (modify g ≫= f) w = f tt (g w).
Proof. done. Qed.

Lemma bind_lift_ok {A B} (a : A) (f : A -> M B) w :
  (lift (Ok a) ≫= f) w = f a w.
Proof. done. Qed.

Lemma bind_mret {A B} (a : A) (f : A -> M B) w :
  (mret a ≫= f) w = f a w.
Proof. done. Qed.

Lemma bind_bind {A B C} (m : M A) (f : A -> M B) (g : B -> M C) w :
  ((m ≫= f) ≫= g) w = (m ≫= fun a => f a ≫= g) w.
Proof. unfold mbind, M_bind. by destruct (m w) as [[a|e] w']. Qed.

Lemma bind_ok_run {A B} (m : M A) (f : A -> M B) w :
  (m ≫= f) w
  = match m w with
    | (Ok a, w') => f a w'
    | (Raise e, w') => (Raise e, w')
    end.
Proof. done. Qed.

(** Projections of worlds that were built by the setters. *)
Ltac world_simpl :=
  cbn [self disk stdout _pathpreview _pathoutput _batch_mode _previewoutput
       _previewtrain _previewcache _errcount cache modified images filenames
       placeholder with_self with_cache set_modified set_images set_filenames
       set_placeholder set_previewoutput set_previewtrain set_errcount set_disk
       set_pathoutput set_batch_mode
       print fst snd e_image e_photo e_modified mbind option_bind].

Ltac unfold_M :=
  unfold mbind, M_bind, mret, M_ret, gets, reads, modify, lift, raise,
    try_except in *.

(** ** Lists, the Python way *)

Lemma slice_from_last {A} (n : Z) (l : list A) :
  0 < n -> slice_from (- n) l = drop (List.length l - Z.to_nat n) l.
Proof.
  intros Hn. unfold slice_from, clamp.
  destruct (Z.ltb_spec (- n) 0); [|lia].
  f_equal. lia.
Qed.

Lemma slice_from_start {A} (i : Z) (l : list A) :
  0 <= i -> slice_from i l = drop (Z.to_nat i) l.
Proof.
  intros Hi. unfold slice_from, clamp.
  destruct (Z.ltb_spec i 0); [lia|].
  destruct (Z.le_gt_cases i (Z.of_nat (List.length l))).
  - f_equal. lia.
  - rewrite !drop_ge; [done| |]; lia.
Qed.

(** Trimming twice to the last [k] is trimming once. *)
Lemma drop_window {A} (k : nat) (a b : list A) :
  drop (List.length (drop (List.length a - k) a ++ b) - k)
       (drop (List.length a - k) a ++ b)
  = drop (List.length (a ++ b) - k) (a ++ b).
Proof.
  rewrite <- (drop_app_le a b) by lia.
  rewrite drop_drop. f_equal.
  rewrite length_drop, !length_app. lia.
Qed.

Lemma foldl_max_ge (l : list Z) x : x <= foldl Z.max x l.
Proof.
  revert x; induction l as [|y l IH]; intros x; simpl; [lia|].
  specialize (IH (Z.max x y)). lia.
Qed.

Lemma foldl_max_upper (l : list Z) x y : y ∈ l -> y <= foldl Z.max x l.
Proof.
  revert x; induction l as [|z l IH]; intros x Hy; [by apply elem_of_nil in Hy|].
  apply elem_of_cons in Hy as [->|Hy]; simpl.
  - pose proof (foldl_max_ge l (Z.max x z)). lia.
  - by apply IH.
Qed.

Lemma foldl_max_in (l : list Z) x : foldl Z.max x l = x \/ foldl Z.max x l ∈ l.
Proof.
  revert x; induction l as [|z l IH]; intros x; simpl; [by left|].
  destruct (IH (Z.max x z)) as [E|E].
  - rewrite E. destruct (Z.max_spec x z) as [[_ ->]|[_ ->]]; [right; left|by left].
  - right. by right.
Qed.

(** [max_] of a non-empty list is its greatest element. *)
Lemma max_spec (l : list Z) :
  l <> [] ->
  exists m, max_ l = Ok m /\ m ∈ l /\ Forall (fun x => x <= m) l.
Proof.
  destruct l as [|x l]; [done|]. intros _. exists (foldl Z.max x l).
  split; [done|]. split.
  - destruct (foldl_max_in l x) as [->|E]; [left|by right].
  - apply Forall_cons. split; [apply foldl_max_ge|].
    apply Forall_forall. intros y Hy. by apply foldl_max_upper.
Qed.

(** ** The disk *)

Lemma getmtime_exists d p : is_Some (d !! p) -> getmtime d p = Ok (mtime_of d p).
Proof. intros [n E]. unfold getmtime, mtime_of. by rewrite E. Qed.

Lemma getctime_exists d p : is_Some (d !! p) -> getctime d p = Ok (ctime_of d p).
Proof. intros [n E]. unfold getctime, ctime_of. by rewrite E. Qed.

Lemma for_list_getmtime l w :
  Forall (fun f => is_Some (disk w !! f)) l ->
  for_list l os_path_getmtime w = (Ok (map (mtime_of (disk w)) l), w).
Proof.
  induction 1 as [|f l Hf Hl IH]; [done|].
  cbn [for_list].
  erewrite bind_ok; [|unfold os_path_getmtime, reads; by rewrite getmtime_exists].
  erewrite bind_ok; [|exact IH]. done.
Qed.

Lemma for_list_getctime l w :
  Forall (fun f => is_Some (disk w !! f)) l ->
  for_list l os_path_getctime w = (Ok (map (ctime_of (disk w)) l), w).
Proof.
  induction 1 as [|f l Hf Hl IH]; [done|].
  cbn [for_list].
  erewrite bind_ok; [|unfold os_path_getctime, reads; by rewrite getctime_exists].
  erewrite bind_ok; [|exact IH]. done.
Qed.

Lemma for_filter_newer m l w :
  Forall (fun f => is_Some (disk w !! f)) l ->
  for_filter l (fun fname => t ← os_path_getmtime fname; mret (m <? t)) w
  = (Ok (List.filter (fun f => m <? mtime_of (disk w) f) l), w).
Proof.
  induction 1 as [|f l Hf Hl IH]; [done|].
  cbn [for_filter List.filter].
  erewrite bind_ok; cycle 1.
  { erewrite bind_ok; [|unfold os_path_getmtime, reads; by rewrite getmtime_exists].
    done. }
  erewrite bind_ok; [|exact IH]. done.
Qed.

Lemma Forall_filter_bool {A} (P : A -> Prop) (f : A -> bool) (l : list A) :
  Forall P l -> Forall P (List.filter f l).
Proof.
  induction 1 as [|x l Hx Hl IH]; simpl; [done|].
  destruct (f x); [by constructor|done].
Qed.

(** ** The scan for new files *)

(** The scan, for files that are on the disk: what it returns and what it
    does to the watermark. *)
Lemma get_newest_filenames_run (w : world) (image_files : list string) :
  Forall (fun f => is_Some (disk w !! f)) image_files ->
  let retval :=
    match modified (cache w) with
    | None => image_files
    | Some m => List.filter (fun f => m <? mtime_of (disk w) f) image_files
    end in
  _get_newest_filenames image_files w
  = match retval with
    | [] => (Ok retval, w)
    | _ => match max_ (map (mtime_of (disk w)) retval) with
           | Ok newest => (Ok retval, set_modified (Some newest) w)
           | Raise e => (Raise e, w)
           end
    end.
Proof.
  intros Hall retval. unfold _get_newest_filenames. rewrite bind_gets.
  assert (Hret : Forall (fun f => is_Some (disk w !! f)) retval).
  { subst retval. destruct (modified (cache w)); [by apply Forall_filter_bool|done]. }
  erewrite bind_ok with (a := retval) (w' := w); cycle 1.
  { subst retval. destruct (modified (cache w)) as [m|]; [|done].
    by apply for_filter_newer. }
  destruct retval as [|f retval'] eqn:E; [done|].
  erewrite bind_ok; [|by apply for_list_getmtime].
  unfold lift at 1. unfold mbind at 1, M_bind at 1.
  destruct (max_ _) as [newest|e]; done.
Qed.

(** C1. With the watermark unset the scan returns every listed file; with
    the watermark set it returns exactly the files whose modification time is
    strictly greater; when none qualifies it returns the empty list and leaves
    the watermark (indeed the whole state) as it was; otherwise it moves the
    watermark to the greatest modification time among the files returned. *)
Theorem get_newest_filenames_scan (w : world) (image_files : list string) :
  Forall (fun f => is_Some (disk w !! f)) image_files ->
  exists retval w',
    _get_newest_filenames image_files w = (Ok retval, w')
    /\ (modified (cache w) = None -> retval = image_files)
    /\ (forall m, modified (cache w) = Some m ->
          retval = List.filter (fun f => m <? mtime_of (disk w) f) image_files)
    /\ (retval = [] -> w' = w)
    /\ (retval <> [] ->
          exists newest,
            w' = set_modified (Some newest) w
            /\ modified (cache w') = Some newest
            /\ (exists f, f ∈ retval /\ getmtime (disk w) f = Ok newest)
            /\ (forall f t, f ∈ retval -> getmtime (disk w) f = Ok t -> t <= newest)).
Proof.
  intros Hall. rewrite get_newest_filenames_run by done.
  set (retval := match modified (cache w) with
                 | None => image_files
                 | Some m => List.filter (fun f => m <? mtime_of (disk w) f) image_files
                 end).
  assert (Hret : Forall (fun f => is_Some (disk w !! f)) retval).
  { subst retval. destruct (modified (cache w)); [by apply Forall_filter_bool|done]. }
  assert (Hunset : modified (cache w) = None -> retval = image_files).
  { intros E. subst retval. by rewrite E. }
  assert (Hset : forall m, modified (cache w) = Some m ->
            retval = List.filter (fun f => m <? mtime_of (disk w) f) image_files).
  { intros m E. subst retval. by rewrite E. }
  clearbody retval.
  destruct retval as [|f0 rest].
  { exists [], w. repeat split; [done..|]. by intros []. }
  destruct (max_spec (map (mtime_of (disk w)) (f0 :: rest))) as (newest & -> & Hin & Hmax);
    [done|].
  exists (f0 :: rest), (set_modified (Some newest) w).
  repeat split; [done..|]. intros _. exists newest. repeat split.
  - apply list_elem_of_fmap in Hin as (f & -> & Hf). exists f. split; [done|].
    apply getmtime_exists. by eapply Forall_forall in Hret.
  - intros f t Hf Ht.
    rewrite getmtime_exists in Ht by (by eapply Forall_forall in Hret).
    injection Ht as <-.
    eapply Forall_forall in Hmax; [exact Hmax|].
    apply list_elem_of_fmap. by exists f.
Qed.

(** ** The sliding window *)

Lemma np_array_same_shape (samples : list ndarray) (sh : list Z) :
  samples <> [] ->
  Forall (fun t => shape t = sh) samples ->
  np_array samples = Ok {| item_shape := sh; items := samples |}.
Proof.
  intros Hne Hsh. destruct samples as [|a rest]; [done|].
  unfold np_array.
  assert (forallb (fun b => bool_decide (shape b = shape a)) (a :: rest) = true) as ->.
  { apply forallb_forall. intros b Hb. apply bool_decide_eq_true.
    apply list_elem_of_In in Hb.
    pose proof (proj1 (Forall_forall _ _) Hsh) as H.
    rewrite (H b Hb). symmetry. apply H. left. }
  f_equal. f_equal. by apply Forall_cons in Hsh as [-> _].
Qed.

Lemma nonzero_nonempty (samples : list ndarray) : nonzero samples = true -> samples <> [].
Proof. by destruct samples. Qed.

(** A batch without a non-zero value, an empty one for instance, is turned
    away and nothing is written. *)
Lemma process_samples_reject (samples : list ndarray) names n w a :
  np_array samples = Ok a -> np_any a = false ->
  _process_samples samples names n w = (Ok false, w).
Proof.
  intros Ha Hany. unfold _process_samples. rewrite Ha, bind_lift_ok. by rewrite Hany.
Qed.

Lemma process_samples_empty names n w : _process_samples [] names n w = (Ok false, w).
Proof. by eapply process_samples_reject. Qed.

(** A batch of one shape with a non-zero value joins the cache, and the
    cache keeps its last [n] entries. *)
Lemma process_samples_accept (samples : list ndarray) names n w sh :
  0 < n ->
  nonzero samples = true ->
  Forall (fun t => shape t = sh) samples ->
  (forall c, images (cache w) = Some c -> item_shape c = sh) ->
  let tiles := cached_items w ++ samples in
  let all_names := filenames (cache w) ++ names in
  _process_samples samples names n w
  = (Ok true,
     set_images
       (Some {| item_shape := sh;
                items := drop (List.length tiles - Z.to_nat n) tiles |})
       (set_filenames (drop (List.length all_names - Z.to_nat n) all_names) w)).
Proof.
  intros Hn Hnz Hsh Hc tiles all_names. unfold _process_samples.
  rewrite (np_array_same_shape samples sh) by (by try apply nonzero_nonempty).
  rewrite bind_lift_ok.
  change (np_any {| item_shape := sh; items := samples |}) with (nonzero samples).
  rewrite Hnz. cbn [negb].
  rewrite bind_gets, bind_modify, bind_gets.
  subst tiles all_names. unfold cached_items.
  rewrite slice_from_last by done.
  change (images (cache (set_filenames ?v w))) with (images (cache w)).
  destruct (images (cache w)) as [c|] eqn:E.
  - unfold np_concatenate. rewrite (Hc c eq_refl). simpl item_shape.
    rewrite bool_decide_eq_true_2 by done. cbv iota.
    unfold_M. unfold stack_from. simpl. by rewrite slice_from_last.
  - unfold_M. unfold stack_from. simpl. by rewrite slice_from_last.
Qed.

Lemma process_batches_window (batch : list ndarray * list string) batches n sh w :
  0 < n ->
  (forall c, images (cache w) = Some c -> item_shape c = sh) ->
  Forall (accepted sh) (batch :: batches) ->
  let tiles := cached_items w ++ List.concat (map fst (batch :: batches)) in
  let names := filenames (cache w) ++ List.concat (map snd (batch :: batches)) in
  exists w',
    process_batches (batch :: batches) n w = (Ok tt, w')
    /\ images (cache w')
       = Some {| item_shape := sh;
                 items := drop (List.length tiles - Z.to_nat n) tiles |}
    /\ filenames (cache w') = drop (List.length names - Z.to_nat n) names.
Proof.
  intros Hn. revert batch w.
  induction batches as [|next batches IH]; intros batch w Hc Hall tiles names;
    apply Forall_cons in Hall as [[Hnz Hsh] Hall].
  - subst tiles names. simpl List.concat. rewrite !app_nil_r.
    eexists. unfold process_batches. cbn [for_each].
    erewrite bind_ok; cycle 1.
    { erewrite bind_ok; [|by apply (process_samples_accept _ _ n w sh)]. done. }
    done.
  - unfold process_batches. cbn [for_each].
    erewrite bind_ok; cycle 1.
    { erewrite bind_ok; [|by apply (process_samples_accept _ _ n w sh)]. done. }
    set (w1 := set_images _ _).
    destruct (IH next w1) as (w' & Hrun & Him & Hfn); [by intros c [= <-]|done|].
    exists w'. split; [exact Hrun|].
    rewrite Him, Hfn. subst tiles names w1.
    change (cached_items (set_images (Some ?c) ?x)) with (items c).
    change (filenames (cache (set_images ?c (set_filenames ?v ?x)))) with v.
    cbn [items List.concat map]. rewrite !drop_window.
    by rewrite <- !app_assoc.
Qed.

(** C2, as the code has it.  For a number of cells [n >= 1] and one or more
    consecutive batches that each hold a non-zero thumbnail, from any cache:
    the cache ends with the last [min n total] of the thumbnails it held and
    those appended, in the order of arrival, and the file names are trimmed
    the same way.  (The shapes agree, as numpy needs to stack them.) *)
Theorem process_samples_window (w : world) batches (n : Z) (sh : list Z) :
  0 < n ->
  batches <> [] ->
  (forall c, images (cache w) = Some c -> item_shape c = sh) ->
  Forall (accepted sh) batches ->
  let tiles := cached_items w ++ List.concat (map fst batches) in
  let names := filenames (cache w) ++ List.concat (map snd batches) in
  exists w',
    process_batches batches n w = (Ok tt, w')
    /\ cached_items w' = drop (List.length tiles - Z.to_nat n) tiles
    /\ Z.of_nat (List.length (cached_items w')) = Z.min n (Z.of_nat (List.length tiles))
    /\ filenames (cache w') = drop (List.length names - Z.to_nat n) names
    /\ Z.of_nat (List.length (filenames (cache w')))
       = Z.min n (Z.of_nat (List.length names)).
Proof.
  intros Hn Hne Hc Hall tiles names. destruct batches as [|batch batches]; [done|].
  destruct (process_batches_window batch batches n sh w Hn Hc Hall)
    as (w' & Hrun & Him & Hfn).
  exists w'. split; [exact Hrun|].
  unfold cached_items. rewrite Him, Hfn. simpl items. subst tiles names.
  cbn [List.concat map].
  split; [done|]. split; [rewrite length_drop; lia|].
  split; [done|]. rewrite length_drop. lia.
Qed.

(** C2 as stated fails: an empty batch, which [_load_images_to_cache] hands
    over when every new file was dropped, is turned away before anything is
    trimmed, so a cache of five stays at five when three cells are left. *)
Lemma process_samples_keeps_long_cache :
  let w := world_of long_cache ∅ in
  exists w',
    process_batches [([], [])] 3 w = (Ok tt, w')
    /\ _process_samples [] [] 3 w = (Ok false, w')
    /\ Z.of_nat (List.length (cached_items w')) = 5
    /\ ~ Z.of_nat (List.length (cached_items w')) <= 3.
Proof.
  eexists. split; [reflexivity|]. split; [reflexivity|]. split; [reflexivity|].
  simpl. lia.
Qed.

(** ** Loading the files *)

(** One turn of the loop. *)
Lemma load_samples_step t f rest samples dropped_files w :
  load_samples t (f :: rest) samples dropped_files w
  = match loading_of (disk w) t f with
    | Thumbnail th => load_samples t rest (samples ++ [th]) dropped_files w
    | Caught => load_samples t rest samples (dropped_files ++ [f]) w
    | Escapes e => (Raise e, w)
    end.
Proof.
  cbn [load_samples]. unfold loading_of.
  unfold_M. unfold Image_open, reads, lift.
  destruct (open (disk w) f) as [img|e]; [|by destruct e].
  destruct (im_size img) as [width height]. cbn [fst snd].
  destruct (truediv t (Z.max width height)) as [scaling|e]; [|done].
  destruct (scaled (width, height) scaling) as [size|e]; [|by destruct (is_OSError e)].
  destruct (resize img size) as [[]|e]; [done|]. by destruct (is_OSError e).
Qed.

Lemma is_dropped_no_thumbnail d t f : is_dropped d t f = true -> thumbnail d t f = None.
Proof. unfold is_dropped, thumbnail. by destruct (loading_of d t f). Qed.

Lemma load_samples_usable t f rest samples dropped_files w th :
  thumbnail (disk w) t f = Some th ->
  load_samples t (f :: rest) samples dropped_files w
  = load_samples t rest (samples ++ [th]) dropped_files w.
Proof.
  unfold thumbnail. intros H. rewrite load_samples_step.
  destruct (loading_of (disk w) t f); [|done..]. by injection H as ->.
Qed.

Lemma load_samples_dropped t f rest samples dropped_files w :
  is_dropped (disk w) t f = true ->
  load_samples t (f :: rest) samples dropped_files w
  = load_samples t rest samples (dropped_files ++ [f]) w.
Proof.
  unfold is_dropped. intros H. rewrite load_samples_step.
  by destruct (loading_of (disk w) t f).
Qed.

Lemma load_samples_fatal t f rest samples dropped_files w :
  thumbnail (disk w) t f = None -> is_dropped (disk w) t f = false ->
  exists e, load_samples t (f :: rest) samples dropped_files w = (Raise e, w).
Proof.
  unfold thumbnail, is_dropped. intros H1 H2. rewrite load_samples_step.
  destruct (loading_of (disk w) t f); [done..|]. by eexists.
Qed.

(** The loop writes nothing, and every sample it returns is the thumbnail
    of a file that opened and resized. *)
Lemma load_samples_run t files samples dropped_files w :
  exists r, load_samples t files samples dropped_files w = (r, w)
    /\ forall samples' dropped', r = Ok (samples', dropped') ->
         samples' = samples ++ omap (thumbnail (disk w) t) files.
Proof.
  revert samples dropped_files.
  induction files as [|f rest IH]; intros samples dropped_files.
  - eexists. split; [done|]. intros ?? [= <- <-]. by rewrite app_nil_r.
  - destruct (thumbnail (disk w) t f) as [th|] eqn:Hth.
    + rewrite (load_samples_usable _ _ _ _ _ _ th) by done.
      destruct (IH (samples ++ [th]) dropped_files) as (r & -> & Hr).
      exists r. split; [done|]. intros s' d' E. rewrite (Hr s' d' E).
      cbn [omap list_omap]. rewrite Hth. by rewrite <- app_assoc.
    + destruct (is_dropped (disk w) t f) eqn:Hdr.
      * rewrite load_samples_dropped by done.
        destruct (IH samples (dropped_files ++ [f])) as (r & -> & Hr).
        exists r. split; [done|]. intros s' d' E. rewrite (Hr s' d' E).
        cbn [omap list_omap]. by rewrite Hth.
      * destruct (load_samples_fatal t f rest samples dropped_files w Hth Hdr)
          as (e & ->).
        by eexists.
Qed.

(** When every failure is one that the loop catches, the loop returns: the
    thumbnails of the files that load, and the names of those that do not. *)
Lemma load_samples_total t files samples dropped_files w :
  Forall (fun f => usable (disk w) t f = true \/ is_dropped (disk w) t f = true) files ->
  load_samples t files samples dropped_files w
  = (Ok (samples ++ omap (thumbnail (disk w) t) files,
         dropped_files ++ List.filter (is_dropped (disk w) t) files), w).
Proof.
  intros H. revert samples dropped_files.
  induction H as [|f rest Hf Hrest IH]; intros samples dropped_files.
  - cbn. by rewrite !app_nil_r.
  - cbn [omap list_omap List.filter].
    destruct (thumbnail (disk w) t f) as [th|] eqn:Hth.
    + rewrite (load_samples_usable _ _ _ _ _ _ th) by done. rewrite IH.
      destruct (is_dropped (disk w) t f) eqn:Hdr.
      { apply (is_dropped_no_thumbnail _ t) in Hdr. congruence. }
      by rewrite <- app_assoc.
    + destruct Hf as [Hf|Hf]; [unfold usable in Hf; by rewrite Hth in Hf|].
      rewrite load_samples_dropped by done. rewrite IH, Hf.
      by rewrite <- app_assoc.
Qed.

(** The loop as a whole: it stops at the first file whose failure it does
    not catch, with the exception of that file; without such a file it
    returns the thumbnails of the files that load and the names of the
    others. *)
Lemma load_samples_all t files samples dropped_files w :
  load_samples t files samples dropped_files w
  = match escaping (disk w) t files with
    | Some e => (Raise e, w)
    | None => (Ok (samples ++ omap (thumbnail (disk w) t) files,
                   dropped_files ++ List.filter (is_dropped (disk w) t) files), w)
    end.
Proof.
  revert samples dropped_files.
  induction files as [|f rest IH]; intros samples dropped_files.
  - cbn. by rewrite !app_nil_r.
  - rewrite load_samples_step. cbn [escaping omap list_omap List.filter].
    unfold thumbnail at 1, is_dropped at 1.
    destruct (loading_of (disk w) t f) as [th| |e]; [| |done]; rewrite IH;
      destruct (escaping (disk w) t rest); by rewrite <- ?app_assoc.
Qed.

Lemma escaping_none d t files f :
  escaping d t files = None -> f ∈ files ->
  usable d t f = true \/ is_dropped d t f = true.
Proof.
  induction files as [|g rest IH]; [by intros _ ?%elem_of_nil|].
  cbn [escaping]. unfold usable, thumbnail, is_dropped in *.
  intros H [->|Hin]%elem_of_cons.
  - destruct (loading_of d t g); [by left|by right|done].
  - destruct (loading_of d t g); [by apply IH..|done].
Qed.

Lemma escaping_caught d t files :
  Forall (fun f => usable d t f = true \/ is_dropped d t f = true) files ->
  escaping d t files = None.
Proof.
  induction 1 as [|f rest Hf _ IH]; [done|]. cbn [escaping].
  unfold usable, thumbnail, is_dropped in Hf.
  destruct (loading_of d t f); [done..|]. by destruct Hf.
Qed.

Lemma insert_by_key_perm {A} k (x : A) l : insert_by_key k x l ≡ₚ (k, x) :: l.
Proof.
  induction l as [|[k' y] l IH]; simpl; [done|].
  destruct (k <=? k'); [done|]. rewrite IH. apply Permutation_swap.
Qed.

Lemma sort_by_key_perm {A} (l : list (Z * A)) : sort_by_key l ≡ₚ l.
Proof.
  induction l as [|[k x] l IH]; simpl; [done|].
  rewrite insert_by_key_perm. by rewrite IH.
Qed.

Lemma elem_of_slice_from {A} i (l : list A) x : x ∈ slice_from i l -> x ∈ l.
Proof. unfold slice_from. intros H. by eapply subseteq_drop. Qed.

Lemma elem_of_shown d files n f : f ∈ shown d files n -> f ∈ files.
Proof.
  unfold shown. intros H. apply elem_of_slice_from in H.
  apply list_elem_of_fmap in H as ([k x] & -> & H).
  rewrite sort_by_key_perm in H. by apply elem_of_zip_r in H.
Qed.

Lemma filter_agree {A} (f g : A -> bool) (l : list A) :
  (forall x, x ∈ l -> f x = g x) -> List.filter f l = List.filter g l.
Proof.
  intros H. apply List.filter_ext_in. intros x Hx. apply H. by apply list_elem_of_In.
Qed.

Lemma elem_of_filter_bool {A} (f : A -> bool) (l : list A) x :
  x ∈ List.filter f l <-> x ∈ l /\ f x = true.
Proof. rewrite !list_elem_of_In. apply List.filter_In. Qed.

(** The whole method, for files that are on the disk: it raises the
    exception of the first of the files tried whose failure the loop does
    not catch, having written nothing; without such a file it hands to
    [_process_samples] the thumbnails and the names of the files that load,
    and nothing of the others. *)
Lemma load_images_all files dims t n w :
  Forall (fun f => is_Some (disk w !! f)) files ->
  num_images dims t = Ok n ->
  _load_images_to_cache files dims t w
  = if n =? 0 then (Ok false, w)
    else match escaping (disk w) t (shown (disk w) files n) with
         | Some e => (Raise e, w)
         | None =>
             _process_samples
               (omap (thumbnail (disk w) t) (shown (disk w) files n))
               (List.filter (usable (disk w) t) (shown (disk w) files n)) n w
         end.
Proof.
  intros Hex Hn. unfold _load_images_to_cache. rewrite Hn, bind_lift_ok.
  destruct (n =? 0); [done|].
  erewrite bind_ok; [|by apply for_list_getctime].
  fold (shown (disk w) files n).
  unfold mbind at 1, M_bind at 1. rewrite load_samples_all.
  destruct (escaping (disk w) t (shown (disk w) files n)) eqn:Hesc; [done|].
  simpl. f_equal. apply filter_agree. intros f Hf.
  pose proof (escaping_none _ _ _ f Hesc Hf) as Hall. unfold usable in *.
  destruct (decide (f ∈ List.filter (is_dropped (disk w) t) (shown (disk w) files n)))
    as [Hin|Hnin].
  - rewrite bool_decide_eq_true_2 by done. apply elem_of_filter_bool in Hin as [_ Hdr].
    by rewrite (is_dropped_no_thumbnail _ t _ Hdr).
  - rewrite bool_decide_eq_false_2 by done.
    destruct Hall as [->|Hdr]; [done|].
    exfalso. apply Hnin. by apply elem_of_filter_bool.
Qed.

(** When every failure is one that the loop catches, [_load_images_to_cache]
    hands to [_process_samples] the thumbnails and the names of the files
    that load. *)
Lemma load_images_run files dims t n w :
  Forall (fun f => is_Some (disk w !! f)) files ->
  num_images dims t = Ok n ->
  Forall (fun f => usable (disk w) t f = true \/ is_dropped (disk w) t f = true)
         (shown (disk w) files n) ->
  _load_images_to_cache files dims t w
  = if n =? 0 then (Ok false, w)
    else _process_samples
           (omap (thumbnail (disk w) t) (shown (disk w) files n))
           (List.filter (usable (disk w) t) (shown (disk w) files n)) n w.
Proof.
  intros Hex Hn Hall. rewrite (load_images_all files dims t n) by done.
  by rewrite (escaping_caught _ _ _ Hall).
Qed.

Lemma for_list_reads {A B} (g : A -> world -> result B) (l : list A) w :
  exists r, for_list l (fun x => reads (g x)) w = (r, w).
Proof.
  induction l as [|x l [r IH]]; [by eexists|].
  cbn [for_list]. unfold_M. destruct (g x w); [|by eexists].
  rewrite IH. destruct r; by eexists.
Qed.

(** Without a thumbnail to add, [_load_images_to_cache] writes nothing and
    does not report success. *)
Lemma load_images_no_thumbnail files dims t w :
  (forall f, f ∈ files -> thumbnail (disk w) t f = None) ->
  exists r, _load_images_to_cache files dims t w = (r, w) /\ r <> Ok true.
Proof.
  intros Hnone. unfold _load_images_to_cache.
  destruct (num_images dims t) as [n|e] eqn:Hn; [|by eexists].
  rewrite bind_lift_ok. destruct (n =? 0); [by eexists|].
  unfold mbind at 1, M_bind at 1.
  destruct (for_list_reads (fun p w => getctime (disk w) p) files w) as (keys & Hkeys).
  change (for_list files os_path_getctime w = (keys, w)) in Hkeys. rewrite Hkeys.
  destruct keys as [keys|e]; [|by eexists].
  set (show_files := slice_from _ _).
  assert (Hsub : forall f, f ∈ show_files -> f ∈ files).
  { intros f Hf. subst show_files. apply elem_of_slice_from in Hf.
    apply list_elem_of_fmap in Hf as ([k x] & -> & Hf).
    rewrite sort_by_key_perm in Hf. by apply elem_of_zip_r in Hf. }
  unfold mbind at 1, M_bind at 1.
  destruct (load_samples_run t show_files [] [] w) as (r & -> & Hr).
  destruct r as [[samples dropped_files]|e]; [|by eexists].
  rewrite (Hr samples dropped_files eq_refl). simpl app.
  assert (omap (thumbnail (disk w) t) show_files = []) as ->.
  { clear -Hsub Hnone. induction show_files as [|f l IH]; [done|].
    cbn [omap list_omap]. rewrite Hnone by (apply Hsub; left).
    apply IH. intros g Hg. apply Hsub. by right. }
  rewrite process_samples_empty. by eexists.
Qed.

(** ** What the cache methods leave alone *)

Section Preserves.

Context (R : relation world) `{!PreOrder R}.

Lemma preserves_mret {A} (a : A) : preserves R (mret a).
Proof. by intros w r w' [= <- <-]. Qed.

Lemma preserves_raise {A} e : preserves R (@raise A e).
Proof. by intros w r w' [= <- <-]. Qed.

Lemma preserves_gets {A} (g : world -> A) : preserves R (gets g).
Proof. by intros w r w' [= <- <-]. Qed.

Lemma preserves_reads {A} (g : world -> result A) : preserves R (reads g).
Proof. by intros w r w' [= <- <-]. Qed.

Lemma preserves_lift {A} (r : result A) : preserves R (lift r).
Proof. by intros w r' w' [= <- <-]. Qed.

Lemma preserves_modify f : (forall w, R w (f w)) -> preserves R (modify f).
Proof. intros Hf w r w' [= <- <-]. apply Hf. Qed.

Lemma preserves_bind {A B} (m : M A) (f : A -> M B) :
  preserves R m -> (forall a, preserves R (f a)) -> preserves R (m ≫= f).
Proof.
  intros Hm Hf w r w'. unfold mbind, M_bind.
  destruct (m w) as [[a|e] w1] eqn:E.
  - intros E'. transitivity w1; [by eapply Hm|by eapply Hf].
  - intros [= <- <-]. by eapply Hm.
Qed.

Lemma preserves_try_except {A} (body handler : M A) caught :
  preserves R body -> preserves R handler -> preserves R (try_except body caught handler).
Proof.
  intros Hb Hh w r w'. unfold try_except.
  destruct (body w) as [[a|e] w1] eqn:E.
  - intros [= <- <-]. by eapply Hb.
  - destruct (caught e).
    + intros E'. transitivity w1; [by eapply Hb|by eapply Hh].
    + intros [= <- <-]. by eapply Hb.
Qed.

Lemma preserves_for_list {A B} (l : list A) (f : A -> M B) :
  (forall x, preserves R (f x)) -> preserves R (for_list l f).
Proof.
  intros Hf. induction l as [|x l IH]; cbn [for_list]; [apply preserves_mret|].
  apply preserves_bind; [done|]. intros y.
  apply preserves_bind; [done|]. intros ys. apply preserves_mret.
Qed.

Lemma preserves_for_filter {A} (l : list A) (cond : A -> M bool) :
  (forall x, preserves R (cond x)) -> preserves R (for_filter l cond).
Proof.
  intros Hf. induction l as [|x l IH]; cbn [for_filter]; [apply preserves_mret|].
  apply preserves_bind; [done|]. intros y.
  apply preserves_bind; [done|]. intros ys. apply preserves_mret.
Qed.

Lemma preserves_for_each {A} (l : list A) (body : A -> M unit) :
  (forall x, preserves R (body x)) -> preserves R (for_each l body).
Proof.
  intros Hf. induction l as [|x l IH]; cbn [for_each]; [apply preserves_mret|].
  apply preserves_bind; [done|]. by intros [].
Qed.

End Preserves.

Ltac preserve_step :=
  match goal with
  | |- preserves _ (_ ≫= _) => apply preserves_bind; try apply _; [|intros ?]
  | |- preserves _ (mret _) => apply preserves_mret; apply _
  | |- preserves _ (raise _) => apply preserves_raise; apply _
  | |- preserves _ (gets _) => apply preserves_gets; apply _
  | |- preserves _ (reads _) => apply preserves_reads; apply _
  | |- preserves _ (lift _) => apply preserves_lift; apply _
  | |- preserves _ (try_except _ _ _) => apply preserves_try_except; try apply _
  | |- preserves _ (for_list _ _) => apply preserves_for_list; try apply _; intros ?
  | |- preserves _ (for_filter _ _) => apply preserves_for_filter; try apply _; intros ?
  | |- preserves _ (if ?b then _ else _) => destruct b
  | |- preserves _ (match ?x with _ => _ end) => destruct x
  | |- preserves _ (let '(_, _) := ?x in _) => destruct x
  end.

#[local] Instance cache_only_preorder : PreOrder cache_only.
Proof.
  split.
  - intros w. exists (cache w). by destruct w as [[] ? ?].
  - intros w1 w2 w3 [c1 ->] [c2 ->]. by exists c2.
Qed.

Lemma cache_only_disk w w' : cache_only w w' -> disk w' = disk w.
Proof. by intros [c ->]. Qed.

Lemma frames_with_cache f : frames (modify (with_cache f)).
Proof. apply preserves_modify; try apply _. intros w. by eexists. Qed.

Ltac frame_step :=
  first [ apply frames_with_cache
        | apply (frames_with_cache (fun c => _))
        | preserve_step ].

Lemma frames_get_newest_filenames files : frames (_get_newest_filenames files).
Proof.
  unfold _get_newest_filenames, os_path_getmtime. repeat frame_step.
Qed.

Lemma frames_process_samples samples names n : frames (_process_samples samples names n).
Proof. unfold _process_samples. repeat frame_step. Qed.

Lemma frames_load_samples t files samples dropped_files :
  frames (load_samples t files samples dropped_files).
Proof.
  intros w r w' E. destruct (load_samples_run t files samples dropped_files w)
    as (r' & E' & _).
  rewrite E' in E. by injection E as <- <-.
Qed.

Lemma frames_load_images files dims t : frames (_load_images_to_cache files dims t).
Proof.
  unfold _load_images_to_cache, os_path_getctime.
  repeat first [apply frames_load_samples | apply frames_process_samples | frame_step].
Qed.

Lemma frames_place_previews dims : frames (_place_previews dims).
Proof. unfold _place_previews, _create_placeholder. repeat frame_step. Qed.

#[local] Instance same_entries_preorder : PreOrder same_entries.
Proof.
  split; [done|]. intros w1 w2 w3 [? ?] [? ?]. split; congruence.
Qed.

Lemma place_previews_entries dims : preserves same_entries (_place_previews dims).
Proof.
  unfold _place_previews, _create_placeholder.
  repeat first [by (apply preserves_modify; try apply _) | preserve_step].
Qed.

(** ** Listing the folder *)

Lemma reader_bind {A B} (m : M A) (f : A -> M B) :
  reader m -> (forall a, reader (f a)) -> reader (m ≫= f).
Proof.
  intros Hm Hf w r w'. unfold mbind, M_bind.
  destruct (m w) as [[a|e] w1] eqn:E.
  - intros E'. apply Hm in E as ->. by eapply Hf.
  - intros [= <- <-]. by eapply Hm.
Qed.

Lemma reader_simple {A} (r0 : world -> result A) : reader (reads r0).
Proof. by intros w r w' [= <- <-]. Qed.

Lemma reader_gets {A} (g : world -> A) : reader (gets g).
Proof. by intros w r w' [= <- <-]. Qed.

Lemma reader_mret {A} (a : A) : reader (mret a).
Proof. by intros w r w' [= <- <-]. Qed.

Lemma reader_raise {A} e : reader (@raise A e).
Proof. by intros w r w' [= <- <-]. Qed.

Lemma reader_for_list {A B} (l : list A) (f : A -> M B) :
  (forall x, reader (f x)) -> reader (for_list l f).
Proof.
  intros Hf. induction l as [|x l IH]; cbn [for_list]; [apply reader_mret|].
  apply reader_bind; [done|]. intros y.
  apply reader_bind; [done|]. intros ys. apply reader_mret.
Qed.

Ltac reader_step :=
  match goal with
  | |- reader (_ ≫= _) => apply reader_bind; [|intros ?]
  | |- reader (mret _) => apply reader_mret
  | |- reader (raise _) => apply reader_raise
  | |- reader (gets _) => apply reader_gets
  | |- reader (reads _) => apply reader_simple
  | |- reader (for_list _ _) => apply reader_for_list; intros ?
  | |- reader (if ?b then _ else _) => destruct b
  | |- reader (match ?x with _ => _ end) => destruct x
  end.

Lemma reader_get_images p : reader (_get_images p).
Proof. unfold _get_images, os_path_isdir, os_listdir. repeat reader_step. Qed.

Lemma reader_get_pathoutput : reader get_pathoutput.
Proof. unfold get_pathoutput. repeat reader_step. Qed.

Lemma reader_get_newest_folder : reader _get_newest_folder.
Proof.
  unfold _get_newest_folder, os_listdir, os_path_getmtime.
  repeat first [apply reader_get_pathoutput | reader_step].
Qed.

Lemma reader_scan_output : reader scan_output.
Proof.
  unfold scan_output, _get_newest_folder, os_listdir, os_path_getmtime.
  repeat first [apply reader_get_images | apply reader_get_pathoutput | reader_step].
Qed.

(** The files that [_get_images] lists are on the disk. *)
Lemma get_images_exist p w files w' :
  _get_images p w = (Ok files, w') ->
  forall f, f ∈ files -> is_Some (disk w !! f).
Proof.
  unfold _get_images, os_path_isdir, os_listdir. rewrite bind_gets.
  destruct (isdir (disk w) p); cbn [negb]; [|intros [= <- <-] f Hf; by apply elem_of_nil in Hf].
  unfold_M. unfold listdir.
  destruct (disk w !! p) as [n|]; [|done]. destruct (what n) as [order|]; [|done].
  intros [= <- <-] f Hf.
  apply list_elem_of_fmap in Hf as (name & -> & Hf).
  apply elem_of_filter_bool in Hf as [Hf _].
  apply elem_of_filter_bool in Hf as [_ Hf].
  unfold exists_ in Hf. by destruct (disk w !! os_path_join p name).
Qed.

Lemma scan_output_run w out files w' :
  scan_output w = (Ok (out, files), w') ->
  w' = w /\ _pathoutput (self w) = Some out
  /\ Forall (fun f => is_Some (disk w !! f)) files.
Proof.
  intros E. pose proof (reader_scan_output _ _ _ E) as ->. split; [done|].
  revert E. unfold scan_output, get_pathoutput. rewrite bind_bind, bind_gets.
  destruct (_pathoutput (self w)) as [location|] eqn:Hout; [|done].
  rewrite bind_mret, bind_gets.
  unfold mbind at 1, M_bind at 1.
  destruct ((if _batch_mode (self w) then _get_newest_folder else mret location) w)
    as [[p|e] w1] eqn:Hp; [|done].
  assert (w1 = w) as ->.
  { destruct (_batch_mode (self w)); [|by injection Hp as <- <-].
    by apply reader_get_newest_folder in Hp. }
  unfold mbind at 1, M_bind at 1.
  destruct (_get_images p w) as [[fs|e] w1] eqn:Hfs; [|done].
  intros [= <- <- <-]. split; [done|].
  apply Forall_forall. by eapply get_images_exist.
Qed.

Lemma load_latest_preview_scanned t dims w out files :
  scan_output w = (Ok (out, files), w) ->
  let gui_preview := gui_preview_of out in
  load_latest_preview t dims w
  = if bool_decide (files = [])
       || ((List.length files =? 1)%nat && negb (bool_decide (gui_preview ∈ files)))
    then (Ok tt, w)
    else show_preview gui_preview
           (if bool_decide (gui_preview ∈ files) then [gui_preview] else files)
           t dims w.
Proof.
  intros E gui_preview. unfold load_latest_preview.
  erewrite bind_ok; [|exact E]. cbv beta iota. fold gui_preview.
  by destruct (_ || _).
Qed.

Lemma load_latest_preview_raised t dims w e w1 :
  scan_output w = (Raise e, w1) -> load_latest_preview t dims w = (Raise e, w).
Proof.
  intros E. pose proof (reader_scan_output _ _ _ E) as ->.
  unfold load_latest_preview. by erewrite bind_raise.
Qed.

(** ** The scan, whatever is on the disk *)

Lemma for_filter_newer_any m l w r w' :
  for_filter l (fun fname => t ← os_path_getmtime fname; mret (m <? t)) w = (r, w') ->
  w' = w /\ forall xs, r = Ok xs ->
    sublist xs l /\ forall f, f ∈ xs -> m < mtime_of (disk w) f.
Proof.
  revert r w'. induction l as [|f l IH]; intros r w'.
  - intros [= <- <-]. split; [done|]. intros xs [= <-]. split; [done|].
    intros f Hf. by apply elem_of_nil in Hf.
  - cbn [for_filter]. unfold_M. unfold os_path_getmtime, reads, getmtime at 1.
    destruct (disk w !! f) as [n|] eqn:Hn; [|intros [= <- <-]; by split].
    destruct (for_filter l _ w) as [[ys|e] w1] eqn:E.
    + destruct (IH _ _ eq_refl) as [-> Hys].
      destruct (Hys ys eq_refl) as [Hsub Hnew].
      intros [= <- <-]. split; [done|]. intros xs [= <-].
      destruct (Z.ltb_spec m (mtime n)).
      * split; [by apply sublist_skip|]. intros g Hg.
        apply elem_of_cons in Hg as [->|Hg]; [|by apply Hnew].
        unfold mtime_of. by rewrite Hn.
      * split; [by apply sublist_cons|done].
    + destruct (IH _ _ eq_refl) as [-> _]. intros [= <- <-]. by split.
Qed.

Lemma get_newest_filenames_any files w r w' :
  _get_newest_filenames files w = (r, w') ->
  (w' = w \/ exists m, w' = set_modified (Some m) w)
  /\ forall retval, r = Ok retval ->
       sublist retval files /\ forall f, f ∈ retval -> newer w f.
Proof.
  unfold _get_newest_filenames, newer. rewrite bind_gets.
  unfold mbind at 1, M_bind at 1.
  destruct (modified (cache w)) as [m|] eqn:Hm.
  - destruct (for_filter files _ w) as [[xs|e] w1] eqn:E;
      apply for_filter_newer_any in E as [-> Hxs].
    2:{ intros [= <- <-]. split; [by left|done]. }
    destruct (Hxs xs eq_refl) as [Hsub Hnew].
    destruct xs as [|x xs'].
    { intros [= <- <-]. split; [by left|]. by intros ? [= <-]. }
    unfold mbind at 1, M_bind at 1.
    destruct (for_list_reads (fun p w => getmtime (disk w) p) (x :: xs') w) as (ts & Hts).
    change (for_list (x :: xs') os_path_getmtime w = (ts, w)) in Hts. rewrite Hts.
    destruct ts as [ts|e]; [|intros [= <- <-]; split; [by left|done]].
    unfold_M. destruct (max_ ts) as [newest|e].
    + intros [= <- <-]. split; [right; by eexists|]. by intros ? [= <-].
    + intros [= <- <-]. split; [by left|done].
  - unfold mret at 1, M_ret at 1.
    destruct files as [|x xs'].
    { intros [= <- <-]. split; [by left|]. by intros ? [= <-]. }
    unfold mbind at 1, M_bind at 1.
    destruct (for_list_reads (fun p w => getmtime (disk w) p) (x :: xs') w) as (ts & Hts).
    change (for_list (x :: xs') os_path_getmtime w = (ts, w)) in Hts. rewrite Hts.
    destruct ts as [ts|e]; [|intros [= <- <-]; split; [by left|done]].
    unfold_M. destruct (max_ ts) as [newest|e].
    + intros [= <- <-]. split; [right; by eexists|]. by intros ? [= <-].
    + intros [= <- <-]. split; [by left|done].
Qed.

(** ** A refresh without thumbnails *)

Lemma show_preview_no_thumbnail gui files t dims w :
  (forall f, f ∈ files -> newer w f -> thumbnail (disk w) t f = None) ->
  unchanged_display w (snd (show_preview gui files t dims w)).
Proof.
  intros Hnone. unfold show_preview.
  unfold mbind at 1, M_bind at 1.
  destruct (_get_newest_filenames files w) as [[newest|e] w1] eqn:Hscan;
    apply get_newest_filenames_any in Hscan as [Hw1 Hnew].
  2:{ by destruct Hw1 as [->|[m ->]]. }
  assert (Hsame : unchanged_display w w1) by (by destruct Hw1 as [->|[m ->]]).
  assert (Hdisk : disk w1 = disk w) by (by destruct Hw1 as [->|[m ->]]).
  destruct (Hnew newest eq_refl) as [Hsub Hnewer].
  destruct (bool_decide (newest = [])); [done|].
  unfold mbind at 1, M_bind at 1.
  destruct (load_images_no_thumbnail newest dims t w1) as (r & -> & Hr).
  { intros f Hf. rewrite Hdisk. apply Hnone; [|by apply Hnewer].
    by eapply elem_of_sublist. }
  destruct r as [[|]|e]; [done| |done].
  cbn [negb]. by destruct (bool_decide (gui ∈ newest)).
Qed.

(** C5. When none of the new files among those scanned opens and resizes,
    the refresh leaves the cached thumbnails, the cached file names and the
    composed preview as they were. *)
Theorem refresh_without_thumbnails (w : world) (t : Z) (dims : Z * Z) :
  (forall out files w1, scan_output w = (Ok (out, files), w1) ->
     forall f, f ∈ files -> newer w f -> thumbnail (disk w) t f = None) ->
  unchanged_display w (snd (load_latest_preview t dims w)).
Proof.
  intros Hnone.
  destruct (scan_output w) as [[[out files]|e] w1] eqn:E.
  - pose proof (scan_output_run _ _ _ _ E) as (-> & _ & _).
    rewrite (load_latest_preview_scanned _ _ _ out files) by done.
    destruct (_ || _); [done|].
    apply show_preview_no_thumbnail. intros f Hf.
    apply (Hnone out files w eq_refl).
    destruct (bool_decide (gui_preview_of out ∈ files)) eqn:Hgui; [|done].
    apply bool_decide_eq_true in Hgui. by apply list_elem_of_singleton in Hf as ->.
  - by rewrite (load_latest_preview_raised _ _ _ e w1).
Qed.

(** ** Files that fail to load *)

Lemma length_omap_thumbnail d t (l : list string) :
  List.length (omap (thumbnail d t) l) = List.length (List.filter (usable d t) l).
Proof.
  induction l as [|f l IH]; [done|]. cbn [omap list_omap List.filter].
  unfold usable at 1. destruct (thumbnail d t f); simpl; by rewrite IH.
Qed.

Lemma omap_thumbnail_shape d t sh (l : list string) :
  (forall f th, f ∈ l -> thumbnail d t f = Some th -> shape th = sh) ->
  Forall (fun th => shape th = sh) (omap (thumbnail d t) l).
Proof.
  intros H. apply Forall_forall. intros th Hth.
  apply list_elem_of_omap in Hth as (f & Hf & Hth). by eapply H.
Qed.

(** Thumbnails of one shape, which is the shape of the cache, never make
    [_process_samples] raise. *)
Lemma process_samples_returns samples names n sh w :
  Forall (fun th => shape th = sh) samples ->
  (forall c, images (cache w) = Some c -> item_shape c = sh) ->
  (0 < n \/ samples = []) ->
  exists b w', _process_samples samples names n w = (Ok b, w').
Proof.
  intros Hsh Hc Hn. destruct (nonzero samples) eqn:Hnz.
  - destruct Hn as [Hn| ->]; [|done].
    rewrite (process_samples_accept samples names n w sh) by done. by eexists _, _.
  - exists false, w. destruct samples as [|a rest]; [apply process_samples_empty|].
    eapply process_samples_reject; [by apply (np_array_same_shape _ sh)|done].
Qed.

Lemma shown_negative d files n : n < 0 -> shown d files n = [].
Proof.
  intros Hn. unfold shown.
  destruct (Z.ltb_spec n (Z.of_nat (List.length files))); [|lia].
  rewrite slice_from_start by lia. apply drop_ge.
  rewrite length_fmap. rewrite (Permutation_length (sort_by_key_perm _)).
  rewrite length_zip, length_fmap. lia.
Qed.

(** The arithmetic of the new size raises no [OSError]. *)
Lemma scaled_raises size scaling e : scaled size scaling = Raise e -> is_OSError e = false.
Proof.
  unfold scaled, float_mul, float_finite, int.
  repeat case_match; intros; by simplify_eq.
Qed.

(** The files that the loop drops are those that fail by one of the two
    causes. *)
Lemma is_dropped_cause d t f : is_dropped d t f = true <-> caught_failure d t f.
Proof.
  unfold is_dropped, caught_failure, loading_of. split.
  - destruct (open d f) as [img|e] eqn:Hopen.
    + destruct (truediv t _) as [scaling|e] eqn:Hdiv; [|done].
      destruct (scaled (im_size img) scaling) as [size|e] eqn:Hsize.
      * destruct (resize img size) as [[]|e] eqn:Hresize; [done|].
        destruct (is_OSError e) eqn:He; [|done]. intros _. right.
        by exists img, scaling, size, e.
      * by rewrite (scaled_raises _ _ _ Hsize).
    + destruct (is_Exception e) eqn:He; [|done]. intros _. left. by exists e.
  - intros [(e & -> & ->)|(img & scaling & size & e & -> & -> & -> & -> & ->)]; done.
Qed.

(** C8. Let the files be on the disk.  A file fails in a way that the loop
    catches when [Image.open] raises an [Exception] (a [PermissionError], a
    decoding error), or when the image opens, its new size is worked out and
    [resize] raises an [OSError].  Such a file is dropped: it gives no
    thumbnail and its name is not handed on.  The call raises the exception
    of the first of the files tried that fails in another way, and has
    written nothing then.  When every file tried loads or fails in a way
    that the loop catches, the call behaves as [_process_samples] on the
    files that load alone, so that no exception of a file reaches the
    caller; when numpy can stack the thumbnails, the call returns. *)
Theorem load_failures_dropped (w : world) (files : list string) (dims : Z * Z) (t n : Z) :
  Forall (fun f => is_Some (disk w !! f)) files ->
  num_images dims t = Ok n ->
  let tried := shown (disk w) files n in
  let samples := omap (thumbnail (disk w) t) tried in
  let names := List.filter (usable (disk w) t) tried in
  (forall f, f ∈ tried -> caught_failure (disk w) t f ->
     is_dropped (disk w) t f = true /\ thumbnail (disk w) t f = None /\ f ∉ names)
  /\ List.length samples = List.length names
  /\ _load_images_to_cache files dims t w
     = (if n =? 0 then (Ok false, w)
        else match escaping (disk w) t tried with
             | Some e => (Raise e, w)
             | None => _process_samples samples names n w
             end)
  /\ ((forall f, f ∈ tried -> usable (disk w) t f = true \/ caught_failure (disk w) t f) ->
      _load_images_to_cache files dims t w
      = (if n =? 0 then (Ok false, w) else _process_samples samples names n w)
      /\ forall sh,
           (forall f th, f ∈ files -> thumbnail (disk w) t f = Some th -> shape th = sh) ->
           (forall c, images (cache w) = Some c -> item_shape c = sh) ->
           exists b w', _load_images_to_cache files dims t w = (Ok b, w')).
Proof.
  intros Hex Hn tried samples names.
  split.
  { intros f Hf Hdr%is_dropped_cause.
    pose proof (is_dropped_no_thumbnail _ _ _ Hdr) as Hth.
    split; [done|]. split; [done|].
    intros [_ Hu]%elem_of_filter_bool. unfold usable in Hu. by rewrite Hth in Hu. }
  split; [apply length_omap_thumbnail|].
  split; [by apply load_images_all|].
  intros Hall.
  assert (Hrun : _load_images_to_cache files dims t w
                 = (if n =? 0 then (Ok false, w)
                    else _process_samples samples names n w)).
  { apply load_images_run; [done..|].
    apply Forall_forall. intros f Hf.
    destruct (Hall f Hf) as [Hu|Hc]; [by left|right]. by apply is_dropped_cause. }
  split; [exact Hrun|].
  intros sh Hsh Hc. rewrite Hrun.
  destruct (n =? 0) eqn:E0; [by eexists _, _|].
  apply (process_samples_returns _ _ _ sh); [|done|].
  - apply omap_thumbnail_shape. intros f th Hf. apply Hsh. by eapply elem_of_shown.
  - destruct (Z.lt_trichotomy n 0) as [Hneg|[->|Hpos]]; [|done|by left].
    right. subst samples tried. by rewrite shown_negative.
Qed.

(** ** The single preview file *)

Lemma num_images_defined dims t : t <> 0 -> exists n, num_images dims t = Ok n.
Proof.
  intros Ht. unfold num_images, floordiv.
  destruct (Z.eqb_spec t 0); [done|]. by eexists.
Qed.

Lemma shown_singleton d f n : shown d [f] n = [f] \/ shown d [f] n = [].
Proof.
  unfold shown, slice_from. simpl.
  match goal with |- context [drop ?k _] => destruct k as [|k'] end; simpl.
  - by left.
  - right. apply drop_nil.
Qed.

(** C4. When the single preview file is among the files scanned, is let
    through by the watermark and fails to load in a way that the loop
    catches, the refresh ends with the watermark unset and everything else as
    it was, so that the scan of the next poll returns the file again. *)
Theorem failed_single_preview_retried
    (w : world) (t : Z) (dims : Z * Z) (out : string) (files : list string) (w1 : world) :
  scan_output w = (Ok (out, files), w1) ->
  gui_preview_of out ∈ files ->
  t <> 0 ->
  newer w (gui_preview_of out) ->
  is_dropped (disk w) t (gui_preview_of out) = true ->
  let w' := set_modified None w in
  load_latest_preview t dims w = (Ok tt, w')
  /\ modified (cache w') = None
  /\ fst (_get_newest_filenames [gui_preview_of out] w') = Ok [gui_preview_of out].
Proof.
  intros Hscan Hin Ht Hnew Hdrop w'.
  pose proof (scan_output_run _ _ _ _ Hscan) as (-> & Hout & Hex).
  set (gui := gui_preview_of out) in *.
  assert (Hgui : is_Some (disk w !! gui)) by (by eapply Forall_forall in Hex).
  assert (Hscan' : _get_newest_filenames [gui] w'
                   = (Ok [gui], set_modified (Some (mtime_of (disk w) gui)) w)).
  { rewrite get_newest_filenames_run by (by apply Forall_singleton). done. }
  split; [|split; [done|by rewrite Hscan']].
  rewrite (load_latest_preview_scanned _ _ _ out files) by done. fold gui.
  rewrite (bool_decide_eq_true_2 (gui ∈ files)) by done.
  rewrite (bool_decide_eq_false_2 (files = [])); cycle 1.
  { intros ->. by apply elem_of_nil in Hin. }
  rewrite andb_false_r. cbn [orb].
  unfold show_preview.
  erewrite bind_ok with (a := [gui]) (w' := set_modified (Some (mtime_of (disk w) gui)) w);
    cycle 1.
  { rewrite get_newest_filenames_run by (by apply Forall_singleton).
    unfold newer in Hnew. destruct (modified (cache w)) as [m|]; [|done].
    simpl. apply Z.ltb_lt in Hnew. by rewrite Hnew. }
  rewrite (bool_decide_eq_false_2 ([gui] = [])) by done.
  destruct (num_images_defined dims t Ht) as (n & Hn).
  set (w2 := set_modified (Some _) w).
  erewrite bind_ok with (a := false) (w' := w2); cycle 1.
  { rewrite (load_images_run [gui] dims t n); [|by apply Forall_singleton|done|].
    - destruct (n =? 0); [done|].
      assert (omap (thumbnail (disk w2) t) (shown (disk w2) [gui] n) = []) as ->.
      { destruct (shown_singleton (disk w2) gui n) as [-> | ->]; [|done].
        cbn [omap list_omap]. by rewrite (is_dropped_no_thumbnail (disk w2) t gui Hdrop). }
      apply process_samples_empty.
    - apply Forall_forall. intros f Hf. right.
      apply elem_of_shown in Hf. by apply list_elem_of_singleton in Hf as ->. }
  cbn [negb]. rewrite bool_decide_eq_true_2 by apply list_elem_of_here. done.
Qed.

Lemma process_samples_filenames samples names n w r w' :
  _process_samples samples names n w = (r, w') ->
  forall f, f ∈ filenames (cache w') -> f ∈ filenames (cache w) \/ f ∈ names.
Proof.
  unfold _process_samples. unfold_M.
  destruct (np_array samples) as [a|e]; [|by intros [= <- <-]; left].
  destruct (np_any a); cbn [negb]; [|by intros [= <- <-]; left].
  assert (Hin : forall f, f ∈ slice_from (- n) (filenames (cache w) ++ names) ->
                  f ∈ filenames (cache w) \/ f ∈ names).
  { intros f Hf. apply elem_of_slice_from in Hf. by apply elem_of_app in Hf. }
  simpl. destruct (images (_previewcache (self w))) as [c|].
  - destruct (np_concatenate c a); intros [= <- <-]; exact Hin.
  - intros [= <- <-]; exact Hin.
Qed.

Lemma load_images_filenames files dims t w r w' :
  _load_images_to_cache files dims t w = (r, w') ->
  forall f, f ∈ filenames (cache w') -> f ∈ filenames (cache w) \/ f ∈ files.
Proof.
  unfold _load_images_to_cache.
  destruct (num_images dims t) as [n|e]; [|by intros [= <- <-]; left].
  rewrite bind_lift_ok. destruct (n =? 0); [by intros [= <- <-]; left|].
  unfold mbind at 1, M_bind at 1.
  destruct (for_list_reads (fun p w => getctime (disk w) p) files w) as (keys & Hkeys).
  change (for_list files os_path_getctime w = (keys, w)) in Hkeys. rewrite Hkeys.
  destruct keys as [keys|e]; [|by intros [= <- <-]; left].
  set (show_files := slice_from _ _).
  assert (Hsub : forall f, f ∈ show_files -> f ∈ files).
  { intros f Hf. subst show_files. apply elem_of_slice_from in Hf.
    apply list_elem_of_fmap in Hf as ([k x] & -> & Hf).
    rewrite sort_by_key_perm in Hf. by apply elem_of_zip_r in Hf. }
  unfold mbind at 1, M_bind at 1.
  destruct (load_samples_run t show_files [] [] w) as (r0 & -> & _).
  destruct r0 as [[samples dropped_files]|e]; [|by intros [= <- <-]; left].
  intros E f Hf.
  destruct (process_samples_filenames _ _ _ _ _ _ E f Hf) as [?|Hin]; [by left|right].
  apply elem_of_filter_bool in Hin as [Hin _]. by apply Hsub.
Qed.

Lemma os_remove_run p w r w' :
  os_remove p w = (r, w') ->
  (r = Ok tt /\ w' = set_disk (delete p (disk w)) w /\ is_Some (disk w !! p))
  \/ ((exists e, r = Raise e) /\ w' = w /\ isdir (disk w) p = true)
  \/ ((exists e, r = Raise e) /\ w' = w /\ disk w !! p = None).
Proof.
  unfold os_remove, remove, isdir. unfold_M.
  destruct (disk w !! p) as [n|] eqn:E.
  - destruct (what n).
    + intros [= <- <-]. right. left. by eauto.
    + intros [= <- <-]. left. by eauto.
  - intros [= <- <-]. right. right. by eauto.
Qed.

Lemma thumbnail_is_file d t p th :
  thumbnail d t p = Some th -> is_Some (d !! p) /\ isdir d p = false.
Proof.
  unfold thumbnail, loading_of, open, isdir. destruct (d !! p) as [n|]; [|done].
  destruct (what n); [done|]. by eauto.
Qed.

Lemma sublist_singleton {A} (l : list A) x : sublist l [x] -> l = [] \/ l = [x].
Proof.
  intros H. destruct l as [|y l]; [by left|right].
  pose proof (sublist_length _ _ H) as Hlen. simpl in Hlen.
  destruct l; [|simpl in Hlen; lia].
  assert (y ∈ [x]) as Hy by (eapply elem_of_sublist; [|exact H]; left).
  by apply list_elem_of_singleton in Hy as ->.
Qed.

(** Once the single preview file has been loaded, the rest of the refresh
    removes it. *)
Lemma show_preview_removes gui t dims w newest w1 w2 :
  _get_newest_filenames [gui] w = (Ok newest, w1) ->
  _load_images_to_cache newest dims t w1 = (Ok true, w2) ->
  disk (snd (show_preview gui [gui] t dims w)) !! gui = None.
Proof.
  intros Hscan Hload. unfold show_preview.
  erewrite bind_ok; [|exact Hscan].
  pose proof (get_newest_filenames_any _ _ _ _ Hscan) as [_ Hnew].
  destruct (Hnew newest eq_refl) as [Hsub _].
  assert (exists th, thumbnail (disk w1) t gui = Some th) as [th Hth].
  { destruct (thumbnail (disk w1) t gui) as [th|] eqn:E; [by eexists|].
    destruct (load_images_no_thumbnail newest dims t w1) as (r & Hr & Hne).
    - intros f Hf. eapply elem_of_sublist in Hf; [|exact Hsub].
      by apply list_elem_of_singleton in Hf as ->.
    - rewrite Hload in Hr. by injection Hr as <-. }
  apply sublist_singleton in Hsub as [->| ->].
  { destruct (load_images_no_thumbnail [] dims t w1) as (r & Hr & Hne).
    - intros f Hf. by apply elem_of_nil in Hf.
    - rewrite Hload in Hr. by injection Hr as <-. }
  rewrite (bool_decide_eq_false_2 ([gui] = [])) by done.
  erewrite bind_ok; [|exact Hload]. cbn [negb].
  rewrite (bool_decide_eq_true_2 ([gui] = [gui])) by done. cbn [head default].
  pose proof (cache_only_disk _ _ (frames_load_images _ _ _ _ _ _ Hload)) as Hd2.
  apply thumbnail_is_file in Hth as [Hsome Hfile]. rewrite <- Hd2 in Hsome, Hfile.
  destruct (os_remove gui w2) as [r3 w3] eqn:Hrm.
  pose proof Hrm as Hrm'.
  apply os_remove_run in Hrm' as [(-> & -> & _)|[(_ & _ & Hdir)|(_ & _ & Hnone)]].
  - erewrite bind_ok; [|exact Hrm].
    destruct (_place_previews dims (set_disk (delete gui (disk w2)) w2))
      as [[show_image|e] w4] eqn:Hplace;
      pose proof (cache_only_disk _ _ (frames_place_previews _ _ _ _ Hplace)) as Hd4.
    + erewrite bind_ok; [|exact Hplace].
      destruct show_image; simpl; rewrite Hd4; apply lookup_delete_eq.
    + erewrite bind_raise; [|exact Hplace].
      simpl. rewrite Hd4. apply lookup_delete_eq.
  - congruence.
  - rewrite Hnone in Hsome. by destruct Hsome.
Qed.

Lemma show_preview_filenames gui files t dims w :
  forall f, f ∈ filenames (cache (snd (show_preview gui files t dims w))) ->
    f ∈ filenames (cache w) \/ f ∈ files.
Proof.
  unfold show_preview. unfold mbind at 1, M_bind at 1.
  destruct (_get_newest_filenames files w) as [[newest|e] w1] eqn:Hscan;
    apply get_newest_filenames_any in Hscan as [Hw1 Hnew].
  2:{ intros f Hf. left. by destruct Hw1 as [->|[m ->]]. }
  assert (Hsame : filenames (cache w1) = filenames (cache w))
    by (by destruct Hw1 as [->|[m ->]]).
  destruct (Hnew newest eq_refl) as [Hsub _].
  destruct (bool_decide (newest = [])); [intros f Hf; left; simpl in Hf; congruence|].
  unfold mbind at 1, M_bind at 1.
  destruct (_load_images_to_cache newest dims t w1) as [[loaded|e] w2] eqn:Hload;
    pose proof (load_images_filenames _ _ _ _ _ _ Hload) as Hnames.
  2:{ intros f Hf. destruct (Hnames f Hf) as [?|?]; [left; congruence|right].
      by eapply elem_of_sublist. }
  assert (Hgoal : forall w', filenames (cache w') = filenames (cache w2) ->
            forall f, f ∈ filenames (cache w') -> f ∈ filenames (cache w) \/ f ∈ files).
  { intros w' E f Hf. rewrite E in Hf.
    destruct (Hnames f Hf) as [?|?]; [left; congruence|right].
    by eapply elem_of_sublist. }
  destruct loaded; cbn [negb].
  - unfold mbind at 1, M_bind at 1.
    destruct ((if bool_decide (newest = [gui])
               then os_remove (default gui (head newest)) else mret tt) w2)
      as [r3 w3] eqn:Hrm.
    assert (Hc3 : filenames (cache w3) = filenames (cache w2)).
    { destruct (bool_decide (newest = [gui])); [|by injection Hrm as <- <-].
      apply os_remove_run in Hrm as [(_ & -> & _)|[(_ & -> & _)|(_ & -> & _)]]; done. }
    destruct r3 as [[]|e]; [|by apply Hgoal].
    unfold mbind at 1, M_bind at 1.
    destruct (_place_previews dims w3) as [[show_image|e] w4] eqn:Hplace;
      apply place_previews_entries in Hplace as [_ Hc4].
    + apply Hgoal. rewrite <- Hc3, <- Hc4. by destruct show_image.
    + apply Hgoal. by rewrite <- Hc3, <- Hc4.
  - apply Hgoal. by destruct (bool_decide (gui ∈ newest)).
Qed.

(** C3. When the single preview file is among the image files scanned, the
    refresh is the refresh of that file alone: the other files are not
    handed on and no name but its own can join the cached names; and once
    [_load_images_to_cache] has loaded it, the file is no longer on the
    disk. *)
Theorem single_preview_alone
    (w : world) (t : Z) (dims : Z * Z) (out : string) (files : list string) (w0 : world) :
  scan_output w = (Ok (out, files), w0) ->
  gui_preview_of out ∈ files ->
  let gui := gui_preview_of out in
  let w' := snd (load_latest_preview t dims w) in
  load_latest_preview t dims w = show_preview gui [gui] t dims w
  /\ (forall f, f ∈ filenames (cache w') -> f ∈ filenames (cache w) \/ f = gui)
  /\ (forall newest w1 w2,
        _get_newest_filenames [gui] w = (Ok newest, w1) ->
        _load_images_to_cache newest dims t w1 = (Ok true, w2) ->
        disk w' !! gui = None).
Proof.
  intros Hscan Hin gui w'.
  pose proof (scan_output_run _ _ _ _ Hscan) as (-> & _ & _).
  assert (Hrun : load_latest_preview t dims w = show_preview gui [gui] t dims w).
  { rewrite (load_latest_preview_scanned _ _ _ out files) by done. fold gui.
    rewrite (bool_decide_eq_true_2 (gui ∈ files)) by done.
    rewrite (bool_decide_eq_false_2 (files = [])); cycle 1.
    { intros ->. by apply elem_of_nil in Hin. }
    by rewrite andb_false_r. }
  subst w'. rewrite Hrun. split; [done|]. split.
  - intros f Hf. apply show_preview_filenames in Hf as [?|Hf]; [by left|right].
    by apply list_elem_of_singleton in Hf.
  - intros newest w1 w2. apply show_preview_removes.
Qed.

(** ** The grid *)

Lemma slice_take_drop {A} (i j : Z) (l : list A) :
  0 <= i <= j -> j <= Z.of_nat (List.length l) ->
  slice i j l = take (Z.to_nat j - Z.to_nat i) (drop (Z.to_nat i) l).
Proof.
  intros Hij Hj. unfold slice, clamp.
  destruct (Z.ltb_spec i 0); [lia|]. destruct (Z.ltb_spec j 0); [lia|].
  by rewrite !Z.min_l by lia.
Qed.

Lemma concat_rows_of {A} (c r : nat) (l : list A) :
  List.concat (rows_of c l r) = take (r * c) l.
Proof.
  unfold rows_of. induction r as [|r IH]; [done|].
  rewrite seq_S, map_app, concat_app, IH. simpl.
  rewrite app_nil_r, take_take_drop. f_equal. lia.
Qed.

Lemma rows_of_length {A} (c r : nat) (l : list A) :
  (r * c <= List.length l)%nat ->
  Forall (fun row => List.length row = c) (rows_of c l r).
Proof.
  intros Hlen. unfold rows_of. apply Forall_forall. intros row Hrow.
  apply list_elem_of_fmap in Hrow as (i & -> & Hi).
  apply elem_of_seq in Hi. rewrite length_take, length_drop. nia.
Qed.


Lemma display_rows {A} (cols rows : Z) (l : list A) :
  0 < cols -> 0 <= rows -> Z.of_nat (List.length l) = cols * rows ->
  map (fun row => slice (row * cols) ((row + 1) * cols) l) (seqZ 0 rows)
  = rows_of (Z.to_nat cols) l (Z.to_nat rows).
Proof.
  intros Hc Hr Hlen. unfold rows_of, seqZ.
  rewrite <- list_fmap_compose. apply list_fmap_ext. intros i row Hrow.
  apply lookup_seq in Hrow as [-> Hi]. simpl.
  rewrite slice_take_drop by nia. f_equal; [nia|]. f_equal. nia.
Qed.



(** ** The number of cells *)

Lemma load_images_no_cells files dims t w :
  num_images dims t = Ok 0 -> _load_images_to_cache files dims t w = (Ok false, w).
Proof. intros Hn. unfold _load_images_to_cache. by rewrite Hn, bind_lift_ok. Qed.

Lemma show_preview_no_cells gui files t dims w :
  num_images dims t = Ok 0 ->
  Forall (fun f => is_Some (disk w !! f)) files ->
  exists w', show_preview gui files t dims w = (Ok tt, w') /\ unchanged_display w w'.
Proof.
  intros Hn Hex. unfold show_preview.
  rewrite bind_ok_run with (m := _get_newest_filenames files).
  rewrite get_newest_filenames_run by done.
  set (retval := match modified (cache w) with
                 | Some m => List.filter (fun f => m <? mtime_of (disk w) f) files
                 | None => files
                 end).
  destruct retval as [|f0 retval'] eqn:E; [by exists w|].
  destruct (max_spec (map (mtime_of (disk w)) (f0 :: retval'))) as (newest & -> & _);
    [done|].
  rewrite bool_decide_eq_false_2 by done.
  rewrite bind_ok_run with (m := _load_images_to_cache _ _ _).
  rewrite load_images_no_cells by done. cbn [negb].
  destruct (bool_decide _); by eexists.
Qed.

(** C6. For a panel of [width] by [height] pixels and thumbnails of side
    [t], the number of cells is [(width / t) * (height / t)], rounded down
    and never negative; it is zero exactly when the panel is narrower or
    lower than one thumbnail.  Then [_place_previews], for a cache of
    thumbnails of that side, returns [None], and a refresh whose folder could
    be scanned returns without raising and leaves the display as it was. *)
Theorem cells_of_panel (width height t : Z) :
  0 <= width -> 0 <= height -> 0 < t ->
  let n := (width / t) * (height / t) in
  num_images (width, height) t = Ok n
  /\ 0 <= n
  /\ (n = 0 <-> width < t \/ height < t)
  /\ (n = 0 -> forall w : world,
        ((forall c, images (cache w) = Some c -> exists rest, item_shape c = t :: rest) ->
         exists w', _place_previews (width, height) w = (Ok None, w'))
        /\ (forall files, _load_images_to_cache files (width, height) t w = (Ok false, w))
        /\ (forall out files w0, scan_output w = (Ok (out, files), w0) ->
              exists w', load_latest_preview t (width, height) w = (Ok tt, w')
                         /\ unchanged_display w w')).
Proof.
  intros Hw Hh Ht n.
  assert (Hn : num_images (width, height) t = Ok n).
  { unfold num_images, floordiv. simpl. by destruct (Z.eqb_spec t 0); [lia|]. }
  assert (Hcols : 0 <= width / t) by (apply Z.div_pos; lia).
  assert (Hrows : 0 <= height / t) by (apply Z.div_pos; lia).
  assert (Hzero : n = 0 <-> width < t \/ height < t).
  { subst n. rewrite Z.mul_eq_0, !Z.div_small_iff by lia. lia. }
  split; [done|]. split; [subst n; nia|]. split; [done|].
  intros H0 w. rewrite H0 in Hn. split; [|split].
  - intros Hside. unfold _place_previews. rewrite bind_gets.
    destruct (images (cache w)) as [c|] eqn:Hc; [|by eexists].
    destruct (Hside c eq_refl) as (rest & ->). rewrite bind_mret, bind_gets.
    assert (((width / t =? 0) || (height / t =? 0)) = true) as Hnone.
    { subst n. apply Z.mul_eq_0 in H0 as [-> | ->]; [done|apply orb_true_r]. }
    unfold floordiv. simpl fst. simpl snd.
    destruct (Z.eqb_spec t 0); [lia|].
    destruct (placeholder (cache w)); unfold_M; unfold _create_placeholder, modify;
      rewrite Hnone; by eexists.
  - intros files. by apply load_images_no_cells.
  - intros out files w0 Hscan.
    pose proof (scan_output_run _ _ _ _ Hscan) as (-> & _ & Hex).
    rewrite (load_latest_preview_scanned _ _ _ out files) by done.
    destruct (_ || _); [by exists w|].
    apply show_preview_no_cells; [done|].
    destruct (bool_decide (gui_preview_of out ∈ files)) eqn:Hgui; [|done].
    apply bool_decide_eq_true in Hgui. apply Forall_singleton.
    by eapply Forall_forall in Hex.
Qed.

(** ** The training previews *)

#[local] Instance quiet_preorder : PreOrder quiet.
Proof.
  split; [done|]. intros w1 w2 w3 (? & ? & ? & ?) (? & ? & ? & ?).
  repeat split; congruence.
Qed.

Lemma quiet_resize_image name size : preserves quiet (resize_image name size).
Proof.
  unfold resize_image.
  repeat first [by (apply preserves_modify; try apply _) | preserve_step].
Qed.

Lemma read_training_image_run img m w :
  let name := preview_name img in
  let size := _previewtrain (self w) !! name ≫= e_photo in
  read_training_image img m w
  = match open (disk w) img with
    | Raise e => (Raise e, w)
    | Ok opened =>
        let w1 := set_previewtrain
                    (<[name := {| e_image := opened; e_photo := None; e_modified := m |}]>
                       (_previewtrain (self w))) w in
        match resize_image name size w1 with
        | (Ok _, w2) => (Ok tt, set_errcount 0 w2)
        | (Raise e, w2) => (Raise e, w2)
        end
    end.
Proof.
  intros name size. unfold read_training_image, _get_current_size.
  rewrite bind_bind, bind_gets. fold name.
  assert (forall B (k : option (Z * Z) -> M B),
            (match _previewtrain (self w) !! name with
             | Some e => mret (e_photo e)
             | None => mret None
             end ≫= k) w = k size w) as ->.
  { intros B k. subst size. by destruct (_previewtrain (self w) !! name). }
  rewrite bind_ok_run. unfold Image_open, reads.
  destruct (open (disk w) img) as [opened|e]; [|done].
  rewrite bind_modify, bind_ok_run.
  by destruct (resize_image name size _) as [[[]|e] w2].
Qed.

(** A read that raises leaves the count alone; a read that returns has
    reset it. *)
Lemma read_training_image_count img m w r w1 :
  read_training_image img m w = (r, w1) ->
  match r with
  | Ok _ => _errcount (self w1) = 0
  | Raise _ => quiet w w1
  end.
Proof.
  rewrite read_training_image_run. cbv zeta.
  destruct (open (disk w) img) as [opened|e]; [|by intros [= <- <-]].
  destruct (resize_image _ _ _) as [[[]|e] w2] eqn:Hr; intros [= <- <-]; [done|].
  apply quiet_resize_image in Hr. by destruct Hr as (? & ? & ? & ?).
Qed.

Lemma count_read_failure_run img w :
  let name := preview_name img in
  let count := _errcount (self w) in
  count_read_failure img w
  = if count <? 10 then (Ok tt, set_errcount (count + 1) w)
    else match _previewtrain (self w) !! name with
         | Some _ =>
             (Ok tt, set_previewtrain (delete name (_previewtrain (self w)))
                       (print (read_error img) w))
         | None => (Raise KeyError, print (read_error img) w)
         end.
Proof.
  intros name count. unfold count_read_failure. rewrite bind_gets. fold count name.
  destruct (count <? 10); [done|].
  rewrite bind_modify, bind_gets. world_simpl.
  by destruct (_previewtrain (self w) !! name).
Qed.

Lemma load_training_image_run img m w :
  load_training_image img m w
  = match read_training_image img m w with
    | (Ok a, w1) => (Ok a, w1)
    | (Raise e, w1) =>
        if is_ValueError e then count_read_failure img w1 else (Raise e, w1)
    end.
Proof. done. Qed.

(** C9, as the code has it.  What [load_training_preview] does with one
    image file hangs on how the read ends.  A read that returns has reset the
    count.  A [ValueError] is caught: below ten the count goes up by one and
    nothing else changes; from ten on the message is printed and the entry
    of the stream is gone from [_previewtrain] (the statement returns when
    there was an entry to delete).  Any other exception is not caught. *)
Theorem training_read_failures (w : world) (img : string) (m : Z) r w1 :
  read_training_image img m w = (r, w1) ->
  let name := preview_name img in
  let count := _errcount (self w) in
  match r with
  | Ok _ => load_training_image img m w = (Ok tt, w1) /\ _errcount (self w1) = 0
  | Raise e =>
      if is_ValueError e
      then
        if count <? 10
        then load_training_image img m w = (Ok tt, set_errcount (count + 1) w1)
        else exists r' w',
               load_training_image img m w = (r', w')
               /\ _previewtrain (self w') !! name = None
               /\ stdout w' = stdout w ++ [read_error img]
               /\ _errcount (self w') = count
               /\ (is_Some (_previewtrain (self w1) !! name) -> r' = Ok tt)
      else load_training_image img m w = (Raise e, w1)
  end.
Proof.
  intros Hread name count. rewrite load_training_image_run, Hread.
  pose proof (read_training_image_count _ _ _ _ _ Hread) as Hcount.
  destruct r as [[]|e]; [done|].
  destruct (is_ValueError e); [|done].
  destruct Hcount as (Hc & Hout & _ & _).
  rewrite count_read_failure_run. cbv zeta. rewrite Hc. fold count.
  destruct (count <? 10); [done|]. fold name.
  destruct (_previewtrain (self w1) !! name) as [e1|] eqn:E.
  - eexists _, _. split; [done|]. world_simpl. rewrite lookup_delete_eq, Hout, Hc.
    by repeat split.
  - eexists _, _. split; [done|]. world_simpl. rewrite Hout, Hc, E.
    repeat split; [done..|]. by intros [? ?].
Qed.

Lemma get_images_disk p w w' :
  disk w' = disk w -> fst (_get_images p w') = fst (_get_images p w).
Proof.
  intros Hd. unfold _get_images, os_path_isdir, os_listdir. unfold_M. cbv beta.
  rewrite !Hd. destruct (isdir (disk w) p); cbn [negb]; [|done].
  cbv beta. rewrite !Hd. by destruct (listdir (disk w) p).
Qed.

Lemma get_images_fst p w r : fst (_get_images p w) = r -> _get_images p w = (r, w).
Proof.
  intros <-. destruct (_get_images p w) as [r w'] eqn:E.
  by apply reader_get_images in E as ->.
Qed.

(** One poll of a failing stream. *)
Lemma failing_stream_poll img w :
  failing_stream img w ->
  let name := preview_name img in
  let count := _errcount (self w) in
  exists w',
    load_training_preview w = (Ok tt, w')
    /\ failing_stream img w'
    /\ if count <? 10
       then _errcount (self w') = count + 1 /\ stdout w' = stdout w
            /\ is_Some (_previewtrain (self w') !! name)
       else _errcount (self w') = count /\ stdout w' = stdout w ++ [read_error img]
            /\ _previewtrain (self w') !! name = None.
Proof.
  intros (Hls & (opened & Hopen & Hload) & Hsize) name count.
  assert (Hmtime : getmtime (disk w) img = Ok (mtime_of (disk w) img)).
  { apply getmtime_exists. revert Hopen. unfold open.
    by destruct (disk w !! img); [eauto|]. }
  set (m := mtime_of (disk w) img).
  set (fresh := {| e_image := opened; e_photo := None; e_modified := m |}).
  set (w1 := set_previewtrain (<[name := fresh]> (_previewtrain (self w))) w).
  assert (Hread : read_training_image img m w = (Raise ValueError, w1)).
  { rewrite read_training_image_run. cbv zeta. rewrite Hopen. fold name m fresh w1.
    fold name in Hsize. rewrite Hsize. unfold resize_image. rewrite bind_gets.
    subst w1 fresh. world_simpl. rewrite lookup_insert_eq. world_simpl.
    unfold_M. unfold load. by rewrite Hload. }
  assert (Hrun : load_training_preview w = count_read_failure img w1).
  { unfold load_training_preview. rewrite bind_gets.
    erewrite bind_ok; [|by apply get_images_fst]. cbn [load_training_images].
    unfold os_path_getmtime at 1. unfold reads at 1.
    rewrite bind_ok_run, Hmtime. fold m. cbv iota beta.
    rewrite bind_ok_run, load_training_image_run, Hread. cbn [is_ValueError].
    by destruct (count_read_failure img w1) as [[[]|e] w2]. }
  rewrite Hrun, count_read_failure_run. cbv zeta.
  change (_errcount (self w1)) with count.
  assert (Hkeep : forall w', disk w' = disk w ->
            _pathpreview (self w') = _pathpreview (self w) ->
            _previewtrain (self w') !! name ≫= e_photo = None ->
            failing_stream img w').
  { intros w' Hd Hp Hs. split; [|split; [|done]].
    - by rewrite Hp, (get_images_disk _ w w').
    - exists opened. by rewrite Hd. }
  subst w1 fresh. destruct (count <? 10).
  - eexists. split; [done|]. split; [|split; [done|split; [done|]]].
    + apply Hkeep; [done..|]. world_simpl. by rewrite lookup_insert_eq.
    + world_simpl. rewrite lookup_insert_eq. by eexists.
  - fold name. world_simpl. rewrite lookup_insert_eq.
    eexists. split; [done|]. split; [|split; [done|split; [done|]]].
    + apply Hkeep; [done..|]. world_simpl. by rewrite lookup_delete_eq.
    + world_simpl. by rewrite lookup_delete_eq.
Qed.

Lemma failing_stream_polls img (n : nat) w :
  failing_stream img w ->
  _errcount (self w) + Z.of_nat n <= 10 ->
  exists w',
    poll_training n w = (Ok tt, w')
    /\ failing_stream img w'
    /\ _errcount (self w') = _errcount (self w) + Z.of_nat n
    /\ stdout w' = stdout w.
Proof.
  revert w. induction n as [|n IH]; intros w Hfail Hle.
  - exists w. split; [done|]. split; [done|]. split; [lia|done].
  - destruct (failing_stream_poll img w Hfail) as (w1 & Hrun & Hfail1 & Hstep).
    destruct (Z.ltb_spec (_errcount (self w)) 10); [|lia].
    destruct Hstep as (Hc & Hout & _).
    destruct (IH w1 Hfail1) as (w' & Hrun' & Hfail' & Hc' & Hout'); [lia|].
    exists w'. cbn [poll_training]. erewrite bind_ok; [|exact Hrun].
    split; [done|]. split; [done|]. split; [lia|congruence].
Qed.

(** X15. The bounded retry at work: while reading the pixels of the one training
    preview keeps raising [ValueError], ten polls count the failures and
    print nothing, and the eleventh prints the message and drops the
    stream. *)
Lemma training_stream_dropped_after_ten img w :
  failing_stream img w ->
  _errcount (self w) = 0 ->
  (forall n : nat, (n <= 10)%nat ->
     exists w', poll_training n w = (Ok tt, w')
                /\ _errcount (self w') = Z.of_nat n /\ stdout w' = stdout w)
  /\ exists w', poll_training 11 w = (Ok tt, w')
                /\ _previewtrain (self w') !! preview_name img = None
                /\ stdout w' = stdout w ++ [read_error img].
Proof.
  intros Hfail H0. split.
  - intros n Hn. destruct (failing_stream_polls img n w Hfail) as (w' & ? & _ & ? & ?);
      [lia|].
    exists w'. split; [done|]. split; [lia|done].
  - destruct (failing_stream_polls img 10 w Hfail) as (w1 & Hrun & Hfail1 & Hc & Hout);
      [lia|].
    destruct (failing_stream_poll img w1 Hfail1) as (w' & Hrun' & _ & Hstep).
    destruct (Z.ltb_spec (_errcount (self w1)) 10); [lia|].
    destruct Hstep as (_ & Hout' & Hgone).
    exists w'. split; [|split; [done|congruence]].
    change 11%nat with (10 + 1)%nat. clear -Hrun Hrun'.
    assert (forall a b w0 w1 w2, poll_training a w0 = (Ok tt, w1) ->
              poll_training b w1 = (Ok tt, w2) ->
              poll_training (a + b) w0 = (Ok tt, w2)) as Happ.
    { induction a as [|a IH]; intros b w0 wa wb Ha Hb.
      - by injection Ha as <-.
      - cbn [poll_training Nat.add] in *. revert Ha. rewrite !bind_ok_run.
        destruct (load_training_preview w0) as [[[]|e] w0']; [|done].
        intros Ha. by eapply IH. }
    eapply Happ; [exact Hrun|]. cbn [poll_training]. erewrite bind_ok; [|exact Hrun'].
    done.
Qed.

(** ** Removing and creating files *)

Lemma os_remove_unfold p w :
  os_remove p w
  = match remove (disk w) p with
    | Ok d => (Ok tt, set_disk d w)
    | Raise e => (Raise e, w)
    end.
Proof. unfold os_remove. unfold_M. by destruct (remove (disk w) p). Qed.

Lemma open_w_unfold now p w :
  open_w now p w
  = match create now (disk w) p with
    | Ok d => (Ok tt, set_disk d w)
    | Raise e => (Raise e, w)
    end.
Proof. unfold open_w. unfold_M. by destruct (create now (disk w) p). Qed.

Lemma set_disk_same w : set_disk (disk w) w = w.
Proof. by destruct w. Qed.

Lemma isfile_remove d p : isfile d p = true -> remove d p = Ok (delete p d).
Proof.
  unfold isfile, remove. destruct (d !! p) as [n|]; [|done]. by destruct (what n).
Qed.

Lemma isfile_not_isdir d p : isfile d p = true -> isdir d p = false.
Proof.
  unfold isfile, isdir. destruct (d !! p) as [n|]; [|done]. by destruct (what n).
Qed.

Lemma isfile_delete d p q : isfile (delete p d) q = if bool_decide (q = p) then false else isfile d q.
Proof.
  unfold isfile. case_bool_decide as E.
  - subst. by rewrite lookup_delete_eq.
  - by rewrite lookup_delete_ne.
Qed.
Lemma create_unfold now d p :
  create now d p
  = if isdir d p then Raise IsADirectoryError
    else
      let d' := <[p := {| mtime := now; ctime := now; what := File empty_file |}]> d in
      if String.eqb (os_path_dirname p) "" then Ok d'
      else
        match d !! os_path_dirname p with
        | None => Raise FileNotFoundError
        | Some folder =>
            match what folder with
            | File _ => Raise NotADirectoryError
            | Dir order =>
                Ok (<[os_path_dirname p :=
                        {| mtime := mtime folder; ctime := ctime folder;
                           what := Dir (if bool_decide (os_path_basename p ∈ order)
                                        then order
                                        else order ++ [os_path_basename p]) |}]> d')
            end
        end.
Proof. unfold create, isdir. by destruct (d !! p) as [[? ? []]|]. Qed.

Lemma create_isfile now d p d' :
  create now d p = Ok d' ->
  isfile d' p = true
  /\ (forall q, q <> p -> isfile d' q = isfile d q)
  /\ (forall q, q <> p -> q <> os_path_dirname p -> d' !! q = d !! q).
Proof.
  rewrite create_unfold. destruct (isdir d p) eqn:Hp; [done|]. cbv zeta.
  destruct (String.eqb _ _).
  - intros [= <-]. unfold isfile. rewrite lookup_insert_eq. split; [done|].
    split; intros q Hq; by rewrite ?lookup_insert_ne.
  - destruct (d !! os_path_dirname p) as [folder|] eqn:Hf; [|done].
    destruct (what folder) as [order|] eqn:Hw; [|done].
    intros [= <-].
    assert (os_path_dirname p <> p) as Hne.
    { intros E. rewrite E in Hf. unfold isdir in Hp. by rewrite Hf, Hw in Hp. }
    unfold isfile. rewrite lookup_insert_ne, lookup_insert_eq by done.
    split; [done|]. split.
    + intros q Hq. destruct (decide (q = os_path_dirname p)) as [->|Hq'].
      * by rewrite lookup_insert_eq, Hf, Hw.
      * by rewrite !lookup_insert_ne.
    + intros q Hq Hq'. by rewrite !lookup_insert_ne.
Qed.

Lemma create_succeeds now d p :
  isdir d p = false -> isdir d (os_path_dirname p) = true ->
  exists d', create now d p = Ok d'.
Proof.
  intros Hp Hd. rewrite create_unfold, Hp. cbv zeta. unfold isdir in Hd.
  destruct (String.eqb _ _); [by eexists|].
  destruct (d !! os_path_dirname p) as [folder|]; [|done].
  destruct (what folder) as [order|]; [by eexists|done].
Qed.

(** ** The preview triggers *)

Lemma trigger_set_run (this : PreviewTrigger.t) now type w :
  PreviewTrigger.set this now type w
  = match getitem (PreviewTrigger._trigger_files this) type with
    | Raise e => (Raise e, w)
    | Ok trigger => if isfile (disk w) trigger then (Ok tt, w) else open_w now trigger w
    end.
Proof.
  unfold PreviewTrigger.set. destruct (getitem _ type) as [trigger|e]; [|done].
  rewrite bind_lift_ok. unfold os_path_isfile. rewrite bind_gets.
  by destruct (isfile (disk w) trigger).
Qed.

(** One round of the loop of [clear]. *)
Lemma clear_step trigger w :
  (found ← os_path_isfile trigger;
   if found : bool then os_remove trigger else mret tt) w
  = (Ok tt, if isfile (disk w) trigger then set_disk (delete trigger (disk w)) w else w).
Proof.
  unfold os_path_isfile. rewrite bind_gets.
  destruct (isfile (disk w) trigger) eqn:E; [|done].
  by rewrite os_remove_unfold, isfile_remove.
Qed.

Lemma clear_loop triggers w :
  exists w1,
    for_each triggers (fun trigger =>
      found ← os_path_isfile trigger;
      if found : bool then os_remove trigger else mret tt) w = (Ok tt, w1)
    /\ (forall p, p ∈ triggers -> isfile (disk w1) p = false)
    /\ (forall p, p ∉ triggers -> disk w1 !! p = disk w !! p)
    /\ (forall p, isfile (disk w) p = false -> isfile (disk w1) p = false)
    /\ self w1 = self w /\ stdout w1 = stdout w.
Proof.
  revert w. induction triggers as [|trigger rest IH]; intros w.
  - exists w. split; [done|]. split; [|done]. intros p Hp. by apply elem_of_nil in Hp.
  - cbn [for_each]. erewrite bind_ok; [|apply clear_step].
    set (w0 := if isfile (disk w) trigger then _ else w).
    assert (Hgone : isfile (disk w0) trigger = false).
    { subst w0. destruct (isfile (disk w) trigger) eqn:E; [|done].
      simpl. rewrite isfile_delete. by rewrite bool_decide_eq_true_2. }
    assert (Hkeep : forall p, p <> trigger -> disk w0 !! p = disk w !! p).
    { intros p Hp. subst w0. destruct (isfile (disk w) trigger); [|done].
      simpl. by rewrite lookup_delete_ne. }
    assert (Hmono : forall p, isfile (disk w) p = false -> isfile (disk w0) p = false).
    { intros p Hp. destruct (decide (p = trigger)) as [->|Hne]; [done|].
      unfold isfile. rewrite Hkeep by done. exact Hp. }
    assert (Hself : self w0 = self w /\ stdout w0 = stdout w).
    { subst w0. by destruct (isfile (disk w) trigger). }
    destruct (IH w0) as (w1 & Hrun & Hin & Hout & Hmono1 & Hs & Hp).
    exists w1. split; [exact Hrun|]. split; [|split; [|split]].
    + intros p Hp'. apply elem_of_cons in Hp' as [->|Hp']; [by apply Hmono1|by apply Hin].
    + intros p Hp'. apply not_elem_of_cons in Hp' as [? ?]. rewrite Hout by done.
      by apply Hkeep.
    + intros p Hp'. by apply Hmono1, Hmono.
    + destruct Hself. split; congruence.
Qed.

(** X19. [set] puts the trigger file of its type in place: into a cache folder
    that exists, at a path that is not a folder, the call returns, the
    trigger is a file afterwards, and no other path has become or ceased to
    be a file.  A trigger that is in place is left alone, so that a second
    call changes nothing, whatever the time. *)
Lemma trigger_set_places (this : PreviewTrigger.t) (now : Z) (type trigger : string)
    (w : world) :
  getitem (PreviewTrigger._trigger_files this) type = Ok trigger ->
  isdir (disk w) trigger = false ->
  isdir (disk w) (os_path_dirname trigger) = true ->
  exists w1,
    PreviewTrigger.set this now type w = (Ok tt, w1)
    /\ isfile (disk w1) trigger = true
    /\ (forall p, p <> trigger -> isfile (disk w1) p = isfile (disk w) p)
    /\ self w1 = self w /\ stdout w1 = stdout w
    /\ (isfile (disk w) trigger = true -> w1 = w)
    /\ forall now', PreviewTrigger.set this now' type w1 = (Ok tt, w1).
Proof.
  intros Hitem Hp Hdir. rewrite trigger_set_run, Hitem.
  destruct (isfile (disk w) trigger) eqn:Hfile.
  - exists w. repeat split; try done.
    intros now'. by rewrite trigger_set_run, Hitem, Hfile.
  - destruct (create_succeeds now (disk w) trigger Hp Hdir) as (d' & Hd').
    rewrite open_w_unfold, Hd'. apply create_isfile in Hd' as (Hnew & Hothers & _).
    eexists. split; [done|]. simpl. repeat split; try done.
    intros now'. rewrite trigger_set_run, Hitem. simpl. by rewrite Hnew.
Qed.

Lemma trigger_clear_run (this : PreviewTrigger.t) (type : option string)
    (triggers : list string) (w : world) :
  match type with
  | None => Ok (values (PreviewTrigger._trigger_files this))
  | Some ty =>
      match getitem (PreviewTrigger._trigger_files this) ty with
      | Ok trigger => Ok [trigger]
      | Raise e => Raise e
      end
  end = Ok triggers ->
  PreviewTrigger.clear this type w
  = for_each triggers (fun trigger =>
      found ← os_path_isfile trigger;
      if found : bool then os_remove trigger else mret tt) w.
Proof.
  intros Htr. unfold PreviewTrigger.clear. destruct type as [ty|].
  - destruct (getitem _ ty) as [trigger|e]; [|done]. injection Htr as <-.
    by rewrite bind_bind, bind_lift_ok, bind_mret.
  - injection Htr as <-. by rewrite bind_mret.
Qed.

(** X20. [clear] never raises for a trigger type that it knows, and for [None]:
    the isfile test guards the removal.  Afterwards none of the triggers
    named is a file, and every other path is as it was. *)
Lemma trigger_clear_removes (this : PreviewTrigger.t) (type : option string)
    (triggers : list string) (w : world) :
  match type with
  | None => Ok (values (PreviewTrigger._trigger_files this))
  | Some ty =>
      match getitem (PreviewTrigger._trigger_files this) ty with
      | Ok trigger => Ok [trigger]
      | Raise e => Raise e
      end
  end = Ok triggers ->
  exists w1,
    PreviewTrigger.clear this type w = (Ok tt, w1)
    /\ (forall p, p ∈ triggers -> isfile (disk w1) p = false)
    /\ (forall p, p ∉ triggers -> disk w1 !! p = disk w !! p)
    /\ self w1 = self w /\ stdout w1 = stdout w.
Proof.
  intros Htr. destruct (clear_loop triggers w) as (w1 & Hrun & Hin & Hout & _ & Hs & Hp).
  exists w1. split; [|done]. by rewrite (trigger_clear_run this type triggers).
Qed.

Lemma append_assoc (a b c : string) : (a +:+ b) +:+ c = a +:+ b +:+ c.
Proof.
  induction a as [|x a IH]; [done|].
  change (String x ((a +:+ b) +:+ c) = String x (a +:+ b +:+ c)). by f_equal.
Qed.

Lemma join_hidden (a b : string) :
  startswith b "/" = false ->
  os_path_join a b = (if String.eqb a "" || endswith a "/" then a else a +:+ "/") +:+ b.
Proof.
  intros H. unfold os_path_join. rewrite H.
  destruct (String.eqb a "" || endswith a "/"); [done|].
  by rewrite append_assoc.
Qed.

Lemma trigger_files_apart (PATHCACHE : string) :
  os_path_join PATHCACHE ".preview_trigger" <> os_path_join PATHCACHE ".preview_mask_toggle".
Proof.
  rewrite !join_hidden by done. intros E. by apply (inj _) in E.
Qed.

(** X21. The two triggers do not touch each other: setting or clearing the one,
    however the call ends, leaves the file of the other as it is. *)
Lemma trigger_channels_apart (PATHCACHE : string) (now : Z) (w : world) :
  let this := PreviewTrigger.init PATHCACHE in
  let update := os_path_join PATHCACHE ".preview_trigger" in
  let toggle := os_path_join PATHCACHE ".preview_mask_toggle" in
  getitem (PreviewTrigger._trigger_files this) "update" = Ok update
  /\ getitem (PreviewTrigger._trigger_files this) "mask_toggle" = Ok toggle
  /\ update <> toggle
  /\ (forall r w1,
        PreviewTrigger.set this now "update" w = (r, w1)
        \/ PreviewTrigger.clear this (Some "update") w = (r, w1) ->
        isfile (disk w1) toggle = isfile (disk w) toggle)
  /\ (forall r w1,
        PreviewTrigger.set this now "mask_toggle" w = (r, w1)
        \/ PreviewTrigger.clear this (Some "mask_toggle") w = (r, w1) ->
        isfile (disk w1) update = isfile (disk w) update).
Proof.
  intros this update toggle.
  pose proof (trigger_files_apart PATHCACHE) as Hne. fold update toggle in Hne.
  assert (Hset : forall type trigger other r w1,
            getitem (PreviewTrigger._trigger_files this) type = Ok trigger ->
            other <> trigger ->
            PreviewTrigger.set this now type w = (r, w1)
            \/ PreviewTrigger.clear this (Some type) w = (r, w1) ->
            isfile (disk w1) other = isfile (disk w) other).
  { intros type trigger other r w1 Hitem Hother [Hrun|Hrun].
    - rewrite trigger_set_run, Hitem in Hrun.
      destruct (isfile (disk w) trigger); [by injection Hrun as <- <-|].
      rewrite open_w_unfold in Hrun.
      destruct (create now (disk w) trigger) as [d'|e] eqn:Hd'; injection Hrun as <- <-; [|done].
      apply create_isfile in Hd' as (_ & Hothers & _). by apply Hothers.
    - rewrite (trigger_clear_run this (Some type) [trigger]) in Hrun by (by rewrite Hitem).
      destruct (clear_loop [trigger] w) as (w' & Hrun' & _ & Hout & _).
      rewrite Hrun' in Hrun. injection Hrun as <- <-.
      unfold isfile. rewrite Hout; [done|]. by intros ->%list_elem_of_singleton. }
  split; [done|]. split; [done|]. split; [done|]. split.
  - intros r w1. by apply (Hset "update" update toggle).
  - intros r w1. by apply (Hset "mask_toggle" toggle update).
Qed.

(** X22. A trigger type other than the two that the class knows raises
    [KeyError], from [set] and from [clear], and nothing is written. *)
Lemma trigger_unknown_type (PATHCACHE type : string) (now : Z) (w : world) :
  let this := PreviewTrigger.init PATHCACHE in
  type <> "update" -> type <> "mask_toggle" ->
  PreviewTrigger.set this now type w = (Raise KeyError, w)
  /\ PreviewTrigger.clear this (Some type) w = (Raise KeyError, w).
Proof.
  intros this H1 H2.
  assert (getitem (PreviewTrigger._trigger_files this) type = Raise KeyError) as E.
  { unfold this, PreviewTrigger.init. cbn [PreviewTrigger._trigger_files getitem].
    apply String.eqb_neq in H1, H2.
    rewrite String.eqb_sym in H1. rewrite String.eqb_sym in H2. by rewrite H1, H2. }
  split.
  - by rewrite trigger_set_run, E.
  - unfold PreviewTrigger.clear. by rewrite E.
Qed.

(** ** The image files of a folder *)

(** X1. [_get_images] never raises and writes nothing, whatever the path is: a
    path that is no folder gives no file.  The files returned are on the
    disk; they are the entries of the folder, in the order of the listing,
    whose name ends in [.png] or [.jpg], in capitals or not. *)
Lemma get_images_listing (image_path : string) (w : world) :
  exists files,
    _get_images image_path w = (Ok files, w)
    /\ (isdir (disk w) image_path = false -> files = [])
    /\ Forall (fun f => is_Some (disk w !! f)) files
    /\ (forall f, f ∈ files <->
          exists names name,
            listdir (disk w) image_path = Ok names /\ name ∈ names
            /\ f = os_path_join image_path name
            /\ (endswith (lower name) ".png" || endswith (lower name) ".jpg") = true)
    /\ forall names, listdir (disk w) image_path = Ok names ->
         files = map (os_path_join image_path)
                     (List.filter (fun f => endswith (lower f) ".png"
                                            || endswith (lower f) ".jpg") names).
Proof.
  assert (Hcases : (isdir (disk w) image_path = true
                    /\ exists names, listdir (disk w) image_path = Ok names)
                   \/ (isdir (disk w) image_path = false
                       /\ exists e, listdir (disk w) image_path = Raise e)).
  { unfold isdir, listdir. destruct (disk w !! image_path) as [n|]; [|right; by eauto].
    destruct (what n); [left|right]; by eauto. }
  unfold _get_images, os_path_isdir, os_listdir. rewrite bind_gets.
  destruct Hcases as [[-> (names & Hnames)]|[-> (e & He)]]; cbn [negb].
  - unfold_M. rewrite Hnames. eexists. split; [done|]. split; [done|]. split.
    + apply Forall_forall. intros f Hf.
      apply list_elem_of_fmap in Hf as (name & -> & Hf).
      apply elem_of_filter_bool in Hf as [Hf _].
      revert Hnames Hf. unfold listdir.
      destruct (disk w !! image_path) as [n|]; [|done].
      destruct (what n) as [order|]; [|done]. intros [= <-] Hf.
      apply elem_of_filter_bool in Hf as [_ Hf].
      unfold exists_ in Hf. by destruct (disk w !! os_path_join image_path name).
    + split.
      * intros f. rewrite list_elem_of_fmap. split.
        -- intros (name & -> & Hf). apply elem_of_filter_bool in Hf as [Hf Hext].
           by exists names, name.
        -- intros (names' & name & [= <-] & Hname & -> & Hext).
           exists name. split; [done|]. by apply elem_of_filter_bool.
      * by intros names' [= <-].
  - exists []. split; [done|]. split; [done|]. split; [done|]. split.
    + intros f. split; [by intros ?%elem_of_nil|].
      intros (names & name & Hnames & _). congruence.
    + intros names Hnames. congruence.
Qed.

(** ** The newest folder *)

Lemma insert_by_key_sorted {A} k (x : A) l :
  StronglySorted by_key l -> StronglySorted by_key (insert_by_key k x l).
Proof.
  induction 1 as [|[k' y] l Hl IH Hall]; simpl.
  - repeat constructor.
  - destruct (Z.leb_spec k k').
    + constructor; [by constructor|]. constructor; [done|].
      eapply Forall_impl; [exact Hall|]. unfold by_key. simpl. intros; lia.
    + constructor; [done|]. rewrite insert_by_key_perm.
      constructor; [unfold by_key; simpl; lia|done].
Qed.

Lemma sort_by_key_sorted {A} (l : list (Z * A)) : StronglySorted by_key (sort_by_key l).
Proof.
  induction l as [|[k x] l IH]; simpl; [constructor|]. by apply insert_by_key_sorted.
Qed.

Lemma sorted_last_greatest {A} (l : list (Z * A)) x :
  StronglySorted by_key l -> last l = Some x -> Forall (fun y => fst y <= fst x) l.
Proof.
  induction 1 as [|y l Hl IH Hall]; [done|]. intros Hlast.
  destruct l as [|z l'].
  - injection Hlast as <-. by repeat constructor.
  - rewrite last_cons_cons in Hlast. specialize (IH Hlast). constructor; [|done].
    assert (x ∈ z :: l') as Hx by (by apply last_Some_elem_of).
    eapply Forall_forall in Hall; [exact Hall|done].
Qed.

(** The last element of [sorted(l, key)] is an element of [l] whose key is
    the greatest. *)
Lemma sorted_last {A} (key : A -> Z) (l : list A) :
  l <> [] ->
  exists x, last (map snd (sort_by_key (zip (map key l) l))) = Some x
            /\ x ∈ l /\ Forall (fun y => key y <= key x) l.
Proof.
  intros Hne. set (s := sort_by_key (zip (map key l) l)).
  assert (Hperm : s ≡ₚ zip (map key l) l) by apply sort_by_key_perm.
  assert (Hkeys : forall p, p ∈ s -> fst p = key (snd p) /\ snd p ∈ l).
  { intros [k y] Hp. rewrite Hperm in Hp. simpl.
    apply elem_of_lookup_zip_with in Hp as (i & k' & y' & [= <- <-] & Hk & Hy).
    rewrite list_lookup_fmap, Hy in Hk. injection Hk as <-.
    split; [done|]. by eapply list_elem_of_lookup_2. }
  destruct (last s) as [[k x]|] eqn:Hlast; cycle 1.
  { apply last_None in Hlast. rewrite Hlast in Hperm.
    apply Permutation_nil_l in Hperm. destruct l; done. }
  exists x. split; [by rewrite fmap_last, Hlast|].
  destruct (Hkeys (k, x)) as [Hk Hx]; [by apply last_Some_elem_of|]. simpl in Hk, Hx.
  split; [done|]. apply Forall_forall. intros y Hy.
  pose proof (sorted_last_greatest s (k, x) (sort_by_key_sorted _) Hlast) as Hmax.
  assert ((key y, y) ∈ s) as Hin.
  { rewrite Hperm. apply list_elem_of_lookup in Hy as (i & Hi).
    apply elem_of_lookup_zip_with. exists i, (key y), y. split; [done|].
    split; [|done]. by rewrite list_lookup_fmap, Hi. }
  eapply Forall_forall in Hmax; [|exact Hin]. simpl in Hmax. lia.
Qed.

Lemma isdir_exists d p : isdir d p = true -> is_Some (d !! p).
Proof. unfold isdir. destruct (d !! p); [by eexists|done]. Qed.

(** X2. In an output folder that can be listed, [_get_newest_folder] returns,
    writing nothing: the output folder itself when it holds no folder,
    otherwise one of its folders, none of the others having a later
    modification time. *)
Lemma get_newest_folder_newest (w : world) (out : string) (names : list string) :
  _pathoutput (self w) = Some out ->
  listdir (disk w) out = Ok names ->
  let folders :=
    map (os_path_join out)
        (List.filter (fun folder => isdir (disk w) (os_path_join out folder)) names) in
  exists newest,
    _get_newest_folder w = (Ok newest, w)
    /\ (folders = [] -> newest = out)
    /\ (folders <> [] ->
          newest ∈ folders /\ isdir (disk w) newest = true
          /\ forall folder, folder ∈ folders ->
               mtime_of (disk w) folder <= mtime_of (disk w) newest).
Proof.
  intros Hout Hnames folders.
  assert (Hdirs : Forall (fun f => isdir (disk w) f = true) folders).
  { apply Forall_forall. intros f Hf. apply list_elem_of_fmap in Hf as (name & -> & Hf).
    by apply elem_of_filter_bool in Hf as [_ Hf]. }
  assert (Hrun : _get_newest_folder w
                 = (Ok (default out (last (map snd (sort_by_key
                          (zip (map (mtime_of (disk w)) folders) folders))))), w)).
  { unfold _get_newest_folder, get_pathoutput. rewrite bind_bind, bind_gets, Hout, bind_mret.
    unfold os_listdir, reads. rewrite bind_ok_run, Hnames. cbv iota beta.
    rewrite bind_gets. fold folders.
    erewrite bind_ok; [done|]. apply for_list_getmtime.
    eapply Forall_impl; [exact Hdirs|]. intros f. apply isdir_exists. }
  rewrite Hrun. destruct folders as [|f0 rest] eqn:E.
  - exists out. split; [done|]. by split.
  - destruct (sorted_last (mtime_of (disk w)) (f0 :: rest)) as (x & -> & Hx & Hmax); [done|].
    exists x. split; [done|]. split; [done|]. intros _. split; [done|]. split.
    + by eapply Forall_forall in Hdirs.
    + intros folder Hf. by eapply Forall_forall in Hmax.
Qed.

(** ** Thumbnails and names, side by side *)

Lemma slice_from_length {A B} (i : Z) (l : list A) (k : list B) :
  List.length l = List.length k ->
  List.length (slice_from i l) = List.length (slice_from i k).
Proof. intros E. unfold slice_from. by rewrite !length_drop, E. Qed.

(** X8. When the thumbnails of a batch do not have the shape of those in the
    cache (the thumbnail size has changed since they were cached),
    [_process_samples] raises the [ValueError] of [np.concatenate]; by then it
    has written the new list of file names, and the thumbnails are those of
    before. *)
Lemma process_samples_mismatch (samples : list ndarray) (names : list string) (n : Z)
    (w : world) (sh : list Z) (c : stack) :
  nonzero samples = true ->
  Forall (fun t => shape t = sh) samples ->
  images (cache w) = Some c ->
  item_shape c <> sh ->
  let w' := set_filenames (slice_from (- n) (filenames (cache w) ++ names)) w in
  _process_samples samples names n w = (Raise ValueError, w')
  /\ images (cache w') = Some c
  /\ filenames (cache w') = slice_from (- n) (filenames (cache w) ++ names).
Proof.
  intros Hnz Hsh Hc Hne w'. split; [|done]. unfold _process_samples.
  rewrite (np_array_same_shape samples sh) by (by try apply nonzero_nonempty).
  rewrite bind_lift_ok.
  change (np_any {| item_shape := sh; items := samples |}) with (nonzero samples).
  rewrite Hnz. cbn [negb].
  rewrite bind_gets, bind_modify, bind_gets. fold w'.
  change (images (cache w')) with (images (cache w)). rewrite Hc.
  unfold np_concatenate. simpl item_shape.
  by rewrite bool_decide_eq_false_2.
Qed.

Lemma np_array_items samples a : np_array samples = Ok a -> items a = samples.
Proof.
  unfold np_array. destruct samples as [|s rest]; [by intros [= <-]|].
  destruct (forallb _ _); [by intros [= <-]|done].
Qed.

Lemma process_samples_aligned (samples : list ndarray) (names : list string) n :
  List.length samples = List.length names ->
  preserves_ok keeps_aligned (_process_samples samples names n).
Proof.
  intros Hlen w b w'. unfold _process_samples, keeps_aligned, aligned, cached_items.
  destruct (np_array samples) as [a|e] eqn:Ha; [|done]. rewrite bind_lift_ok.
  apply np_array_items in Ha.
  destruct (np_any a); cbn [negb]; [|by intros [= <- <-]].
  rewrite bind_gets, bind_modify, bind_gets.
  change (images (cache (set_filenames ?v w))) with (images (cache w)).
  destruct (images (cache w)) as [c|] eqn:Hc.
  - unfold np_concatenate. destruct (bool_decide _); [|done].
    unfold_M. intros [= <- <-] Hal. world_simpl. cbn [stack_from items].
    apply slice_from_length. rewrite !length_app. congruence.
  - unfold_M. intros [= <- <-] Hal. world_simpl. cbn [stack_from items].
    apply slice_from_length. rewrite length_app, <- Hal. simpl. congruence.
Qed.

(** What the loop returns when it returns: a thumbnail for every file that
    loads, and the name of every other file. *)
Lemma load_samples_ok t files samples dropped_files w samples' dropped' w' :
  load_samples t files samples dropped_files w = (Ok (samples', dropped'), w') ->
  samples' = samples ++ omap (thumbnail (disk w) t) files
  /\ dropped' = dropped_files ++ List.filter (fun f => negb (usable (disk w) t f)) files.
Proof.
  revert samples dropped_files.
  induction files as [|f rest IH]; intros samples dropped_files.
  - intros [= <- <- <-]. by rewrite !app_nil_r.
  - cbn [omap list_omap List.filter]. unfold usable at 1.
    destruct (thumbnail (disk w) t f) as [th|] eqn:Hth.
    + rewrite (load_samples_usable _ _ _ _ _ _ th) by done.
      intros [-> ->]%IH. by rewrite <- app_assoc.
    + destruct (is_dropped (disk w) t f) eqn:Hdr.
      * rewrite load_samples_dropped by done.
        intros [-> ->]%IH. cbn [negb]. by rewrite <- app_assoc.
      * destruct (load_samples_fatal t f rest samples dropped_files w Hth Hdr) as (e & ->).
        done.
Qed.

Lemma omap_filter_length {A B} (f : A -> option B) (l : list A) :
  List.length (omap f l)
  = List.length (List.filter (fun x => match f x with Some _ => true | None => false end) l).
Proof.
  induction l as [|x l IH]; [done|]. cbn [omap list_omap List.filter].
  destruct (f x); cbn [List.length]; [by f_equal|exact IH].
Qed.

Lemma load_images_aligned files dims t :
  preserves_ok keeps_aligned (_load_images_to_cache files dims t).
Proof.
  intros w b w'. unfold _load_images_to_cache.
  destruct (num_images dims t) as [n|e]; [|done]. rewrite bind_lift_ok.
  destruct (n =? 0); [intros [= <- <-]; by intros ?|].
  unfold mbind at 1, M_bind at 1.
  destruct (for_list_reads (fun p w => getctime (disk w) p) files w) as (keys & Hkeys).
  change (for_list files os_path_getctime w = (keys, w)) in Hkeys. rewrite Hkeys.
  destruct keys as [keys|e]; [|done].
  set (show_files := slice_from _ _).
  unfold mbind at 1, M_bind at 1.
  destruct (load_samples_run t show_files [] [] w) as (r & Hr & _). rewrite Hr.
  destruct r as [[samples dropped_files]|e]; [|done].
  apply load_samples_ok in Hr as [-> ->]. simpl app.
  apply process_samples_aligned.
  rewrite omap_filter_length. f_equal. apply filter_agree. intros f Hf.
  unfold usable. destruct (thumbnail (disk w) t f) eqn:Hth.
  - rewrite bool_decide_eq_false_2; [done|].
    intros [_ Hu]%elem_of_filter_bool. unfold usable in Hu. by rewrite Hth in Hu.
  - rewrite bool_decide_eq_true_2; [done|].
    apply elem_of_filter_bool. split; [done|]. unfold usable. by rewrite Hth.
Qed.

Lemma preserves_ok_bind (R : relation world) `{!PreOrder R} {A B} (m : M A) (f : A -> M B) :
  preserves_ok R m -> (forall a, preserves_ok R (f a)) -> preserves_ok R (m ≫= f).
Proof.
  intros Hm Hf w b w'. unfold mbind, M_bind.
  destruct (m w) as [[a|e] w1] eqn:E; [|done].
  intros E'. transitivity w1; [by eapply Hm|by eapply Hf].
Qed.

Lemma preserves_ok_weaken (R : relation world) {A} (m : M A) :
  preserves R m -> preserves_ok R m.
Proof. intros Hm w a w' E. by eapply Hm. Qed.

#[local] Instance keeps_aligned_preorder : PreOrder keeps_aligned.
Proof.
  split; [intros w H; exact H|]. intros w1 w2 w3 H12 H23 H. by apply H23, H12.
Qed.

Lemma same_entries_aligned {A} (m : M A) :
  preserves same_entries m -> preserves_ok keeps_aligned m.
Proof.
  intros Hm w a w' E. destruct (Hm _ _ _ E) as [Him Hfn].
  unfold keeps_aligned, aligned, cached_items. by rewrite Him, Hfn.
Qed.

Lemma entries_get_newest_filenames files :
  preserves same_entries (_get_newest_filenames files).
Proof.
  unfold _get_newest_filenames, os_path_getmtime.
  repeat first [by (apply preserves_modify; try apply _) | preserve_step].
Qed.

Lemma entries_os_remove p : preserves same_entries (os_remove p).
Proof.
  unfold os_remove.
  repeat first [by (apply preserves_modify; try apply _) | preserve_step].
Qed.

Lemma show_preview_aligned gui files t dims :
  preserves_ok keeps_aligned (show_preview gui files t dims).
Proof.
  unfold show_preview.
  apply preserves_ok_bind; [apply _|apply same_entries_aligned,
                                      entries_get_newest_filenames|].
  intros image_files. destruct (bool_decide (image_files = [])).
  { apply same_entries_aligned. preserve_step. }
  apply preserves_ok_bind; [apply _|apply load_images_aligned|].
  intros [|]; cbn [negb].
  - apply same_entries_aligned.
    repeat first [ apply entries_os_remove | apply place_previews_entries
                 | by (apply preserves_modify; try apply _) | preserve_step ].
  - apply same_entries_aligned.
    repeat first [by (apply preserves_modify; try apply _) | preserve_step].
Qed.

(** X7. The thumbnails and the file names of the cache stay side by side: from
    a cache that holds as many of the ones as of the others, the cache that
    [_clear_image_cache] leaves for instance, a refresh that returns leaves
    such a cache again, whatever is on the disk. *)
Lemma cache_stays_aligned (t : Z) (dims : Z * Z) (w w' : world) :
  aligned w ->
  load_latest_preview t dims w = (Ok tt, w') ->
  aligned w' /\ forall w0, aligned (snd (_clear_image_cache w0)).
Proof.
  intros Hal Hrun. split; [|intros w0; reflexivity].
  revert Hrun. unfold load_latest_preview.
  rewrite bind_ok_run. destruct (scan_output w) as [[[out files]|e] w1] eqn:Hscan; [|done].
  apply reader_scan_output in Hscan as ->.
  destruct (_ || _); [by intros [= <-]|].
  intros Hrun. apply show_preview_aligned in Hrun. by apply Hrun.
Qed.

(** ** Refreshes that show nothing *)

(** X3. An output folder that is not on the disk: outside batch mode the
    refresh returns and changes nothing; in batch mode the listing of the
    folder raises [FileNotFoundError], which the refresh lets through. *)
Lemma load_latest_preview_missing_folder (t : Z) (dims : Z * Z) (w : world) (out : string) :
  _pathoutput (self w) = Some out ->
  disk w !! out = None ->
  load_latest_preview t dims w
  = if _batch_mode (self w) then (Raise FileNotFoundError, w) else (Ok tt, w).
Proof.
  intros Hout Hnone.
  assert (Hfolder : _get_newest_folder w = (Raise FileNotFoundError, w)).
  { unfold _get_newest_folder, get_pathoutput.
    rewrite bind_bind, bind_gets.
    destruct (_pathoutput (self w)) as [location|]; [|done]. injection Hout as ->.
    rewrite bind_mret.
    apply bind_raise. unfold os_listdir, reads, listdir. by rewrite Hnone. }
  assert (Himages : _get_images out w = (Ok [], w)).
  { unfold _get_images, os_path_isdir. rewrite bind_gets. unfold isdir.
    by rewrite Hnone. }
  unfold load_latest_preview, scan_output, get_pathoutput.
  rewrite !bind_bind, bind_gets.
  destruct (_pathoutput (self w)) as [location|]; [|done]. injection Hout as ->.
  rewrite bind_mret, bind_bind, bind_gets.
  destruct (_batch_mode (self w)).
  - rewrite bind_bind. by apply bind_raise.
  - rewrite bind_bind, bind_mret, bind_bind. erewrite bind_ok; [|exact Himages].
    by rewrite !bind_mret.
Qed.

(** X4. A folder that holds one image file, which is not the single preview,
    shows nothing: the refresh returns at once and writes nothing, the
    watermark included. *)
Lemma lone_image_not_shown (t : Z) (dims : Z * Z) (w w0 : world) (out f : string) :
  scan_output w = (Ok (out, [f]), w0) ->
  f <> gui_preview_of out ->
  load_latest_preview t dims w = (Ok tt, w).
Proof.
  intros Hscan Hf. pose proof (reader_scan_output _ _ _ Hscan) as ->.
  rewrite (load_latest_preview_scanned _ _ _ out [f]) by done.
  rewrite (bool_decide_eq_false_2 ([f] = [])) by done.
  rewrite (bool_decide_eq_false_2 (gui_preview_of out ∈ [f])); [done|].
  intros E%list_elem_of_singleton. by apply Hf.
Qed.

(** ** The grid without padding *)

(** [_place_previews] for a cache of thumbnails of side [side]: the
    placeholder is made when there is none, then the cells are counted. *)
Lemma place_previews_cells (w : world) (dims : Z * Z) samples side rest :
  images (cache w) = Some samples ->
  item_shape samples = side :: rest ->
  side <> 0 ->
  let cols := fst dims / side in
  let rows := snd dims / side in
  let blank := default {| shape := [side; side; 3]; pixels := outlined_blank side |}
                       (placeholder (cache w)) in
  let w' := match placeholder (cache w) with
            | Some _ => w
            | None => set_placeholder (Some blank) w
            end in
  let remainder := cols * rows - Z.of_nat (List.length (items samples)) in
  _place_previews dims w
  = if (cols =? 0) || (rows =? 0) then (Ok None, w')
    else
      match (if negb (remainder =? 0)
             then match np_repeat blank remainder with
                  | Ok padding => np_concatenate samples padding
                  | Raise e => Raise e
                  end
             else Ok samples) with
      | Raise e => (Raise e, w')
      | Ok cells =>
          match map (fun row => slice (row * cols) ((row + 1) * cols) (items cells))
                    (seqZ 0 rows) with
          | [] => (Raise ValueError, w')
          | display => (Ok (Some display), w')
          end
      end.
Proof.
  intros Him Hshape Hside cols rows blank w' remainder.
  unfold _place_previews. rewrite bind_gets, Him, Hshape, bind_mret, bind_gets.
  assert (Hph : placeholder (cache w') = Some blank).
  { subst w' blank. by destruct (placeholder (cache w)) eqn:E. }
  assert (Hstep : forall B (k : unit -> M B),
            (match placeholder (cache w) with
             | Some _ => mret tt
             | None => _create_placeholder side
             end ≫= k) w = k tt w').
  { intros B k. subst w' blank. by destruct (placeholder (cache w)) eqn:E. }
  rewrite Hstep. unfold floordiv.
  destruct (Z.eqb_spec side 0); [done|]. rewrite !bind_lift_ok.
  fold cols rows. destruct ((cols =? 0) || (rows =? 0)); [done|].
  fold remainder. destruct (negb (remainder =? 0)).
  - rewrite bind_bind, bind_gets, Hph.
    destruct (np_repeat blank remainder) as [padding|e]; [|done].
    rewrite bind_bind, bind_lift_ok.
    destruct (np_concatenate samples padding) as [cells|e]; [|done].
    rewrite bind_lift_ok. by destruct (map _ _).
  - rewrite bind_mret. by destruct (map _ _).
Qed.

(** X9. A cache that fills the panel, cell for cell, is laid out as it is:
    [rows] rows of [cols] thumbnails in cache order, and no placeholder
    among them. *)
Lemma place_previews_full (w : world) (dims : Z * Z) samples side rest :
  images (cache w) = Some samples ->
  item_shape samples = side :: rest ->
  0 < side -> 0 <= fst dims -> 0 <= snd dims ->
  let cols := fst dims / side in
  let rows := snd dims / side in
  0 < cols * rows ->
  Z.of_nat (List.length (items samples)) = cols * rows ->
  exists display w',
    _place_previews dims w = (Ok (Some display), w')
    /\ List.concat display = items samples
    /\ Z.of_nat (List.length display) = rows
    /\ Forall (fun row => Z.of_nat (List.length row) = cols) display
    /\ same_entries w w'.
Proof.
  intros Him Hshape Hside Hw Hh cols rows Hcells Hfull.
  assert (Hcols : 0 <= cols) by (by apply Z.div_pos).
  assert (Hrows : 0 <= rows) by (by apply Z.div_pos).
  assert (0 < cols /\ 0 < rows) as [Hcols' Hrows'] by nia.
  rewrite (place_previews_cells w dims samples side rest) by (done || lia).
  fold cols rows.
  destruct (Z.eqb_spec cols 0); [lia|]. destruct (Z.eqb_spec rows 0); [lia|].
  cbn [orb]. rewrite Hfull, Z.sub_diag. cbn [Z.eqb negb].
  rewrite display_rows by lia.
  exists (rows_of (Z.to_nat cols) (items samples) (Z.to_nat rows)). eexists.
  split.
  { unfold rows_of. replace (Z.to_nat rows) with (S (Z.to_nat rows - 1)) by lia. done. }
  split; [rewrite concat_rows_of; apply firstn_all2; lia|].
  split; [unfold rows_of; rewrite length_map, length_seq; lia|].
  split.
  { eapply Forall_impl; [apply rows_of_length; lia|]. simpl. intros row ->. lia. }
  by destruct (placeholder (cache w)).
Qed.

(** X10. A cache that holds more thumbnails than the panel has cells is not
    laid out: the padding would be negative, and [np.concatenate] raises
    [ValueError] for the empty list. *)
Lemma place_previews_overfull (w : world) (dims : Z * Z) samples side rest :
  images (cache w) = Some samples ->
  item_shape samples = side :: rest ->
  0 < side ->
  let cols := fst dims / side in
  let rows := snd dims / side in
  cols <> 0 -> rows <> 0 ->
  cols * rows < Z.of_nat (List.length (items samples)) ->
  exists w', _place_previews dims w = (Raise ValueError, w') /\ same_entries w w'.
Proof.
  intros Him Hshape Hside cols rows Hcols Hrows Hover.
  rewrite (place_previews_cells w dims samples side rest) by (done || lia).
  fold cols rows.
  destruct (Z.eqb_spec cols 0); [lia|]. destruct (Z.eqb_spec rows 0); [lia|].
  cbn [orb].
  destruct (Z.eqb_spec (cols * rows - Z.of_nat (List.length (items samples))) 0); [lia|].
  cbn [negb]. unfold np_repeat.
  destruct (Z.leb_spec (cols * rows - Z.of_nat (List.length (items samples))) 0); [|lia].
  eexists. split; [done|]. by destruct (placeholder (cache w)).
Qed.

(** ** A second look at the same disk *)

Lemma scans_bind {A B} (m : M A) (f : A -> M B) :
  reader m -> scans m -> (forall a, scans (f a)) -> scans (m ≫= f).
Proof.
  intros Hr Hm Hf w w' Hd Hp Hb. unfold mbind, M_bind.
  specialize (Hm w w' Hd Hp Hb).
  destruct (m w) as [r1 w1] eqn:E1. destruct (m w') as [r2 w2] eqn:E2.
  apply Hr in E1 as ->. apply Hr in E2 as ->. simpl in Hm. subst r2.
  destruct r1 as [a|e]; [by apply Hf|done].
Qed.

Lemma scans_mret {A} (a : A) : scans (mret a).
Proof. by intros w w' _ _ _. Qed.

Lemma scans_disk {A} (g : filesystem -> result A) : scans (reads (fun w => g (disk w))).
Proof. intros w w' Hd _ _. unfold reads. simpl. by rewrite Hd. Qed.

Lemma scans_for_list {A B} (l : list A) (f : A -> M B) :
  (forall x, reader (f x)) -> (forall x, scans (f x)) -> scans (for_list l f).
Proof.
  intros Hr Hf. induction l as [|x l IH]; cbn [for_list]; [apply scans_mret|].
  apply scans_bind; [done..|]. intros y.
  apply scans_bind; [by apply reader_for_list|done|]. intros ys. apply scans_mret.
Qed.

Lemma scans_get_images p : scans (_get_images p).
Proof.
  intros w w' Hd _ _. by apply get_images_disk.
Qed.

Lemma scans_get_pathoutput : scans get_pathoutput.
Proof.
  intros w w' _ Hp _. unfold get_pathoutput. rewrite !bind_gets, Hp.
  by destruct (_pathoutput (self w)).
Qed.

Lemma scans_get_newest_folder : scans _get_newest_folder.
Proof.
  unfold _get_newest_folder.
  apply scans_bind; [apply reader_get_pathoutput|apply scans_get_pathoutput|]. intros out.
  apply scans_bind; [apply reader_simple|apply (scans_disk (fun d => listdir d out))|].
  intros names.
  apply scans_bind; [apply reader_gets| |].
  { intros w w' Hd _ _. unfold gets. simpl. by rewrite Hd. }
  intros folders.
  apply scans_bind; [apply reader_for_list; intros; apply reader_simple| |].
  { apply scans_for_list; intros f; [apply reader_simple|].
    apply (scans_disk (fun d => getmtime d f)). }
  intros keys. apply scans_mret.
Qed.

Lemma scans_scan_output : scans scan_output.
Proof.
  unfold scan_output.
  apply scans_bind; [apply reader_get_pathoutput|apply scans_get_pathoutput|]. intros out.
  apply scans_bind; [apply reader_gets| |].
  { intros w w' _ _ Hb. unfold gets. simpl. by rewrite Hb. }
  intros [|].
  - apply scans_bind; [apply reader_get_newest_folder|apply scans_get_newest_folder|].
    intros p. apply scans_bind; [apply reader_get_images|apply scans_get_images|].
    intros files. apply scans_mret.
  - apply scans_bind; [apply reader_mret|apply scans_mret|].
    intros p. apply scans_bind; [apply reader_get_images|apply scans_get_images|].
    intros files. apply scans_mret.
Qed.

#[local] Instance settled_preorder : PreOrder settled.
Proof.
  split; [done|]. intros w1 w2 w3 (? & ? & ? & ?) (? & ? & ? & ?).
  repeat split; congruence.
Qed.

Lemma settled_load_samples t files samples dropped_files :
  preserves settled (load_samples t files samples dropped_files).
Proof.
  intros w r w' E.
  destruct (load_samples_run t files samples dropped_files w) as (r' & E' & _).
  rewrite E' in E. by injection E as <- <-.
Qed.

Lemma settled_process_samples samples names n :
  preserves settled (_process_samples samples names n).
Proof.
  unfold _process_samples.
  repeat first [by (apply preserves_modify; try apply _) | preserve_step].
Qed.

Lemma settled_load_images files dims t :
  preserves settled (_load_images_to_cache files dims t).
Proof.
  unfold _load_images_to_cache, os_path_getctime.
  repeat first [apply settled_load_samples | apply settled_process_samples | preserve_step].
Qed.

Lemma settled_display dims :
  preserves settled
    (show_image ← _place_previews dims;
     match show_image with
     | None => modify (set_previewoutput None)
     | Some display => modify (set_previewoutput (Some display))
     end).
Proof.
  unfold _place_previews, _create_placeholder.
  repeat first [by (apply preserves_modify; try apply _) | preserve_step].
Qed.

Lemma filter_nothing {A} (p : A -> bool) (l : list A) :
  (forall x, x ∈ l -> p x = false) -> List.filter p l = [].
Proof.
  intros H. induction l as [|x l IH]; [done|]. cbn [List.filter].
  rewrite (H x) by left. apply IH. intros y Hy. apply H. by right.
Qed.

(** What the selection leaves behind is not selected again: once the
    watermark stands at the greatest modification time of the files selected,
    no file of the folder is newer. *)
Lemma nothing_newer (w : world) (files : list string) f0 rest newest :
  match modified (cache w) with
  | None => files
  | Some m => List.filter (fun f => m <? mtime_of (disk w) f) files
  end = f0 :: rest ->
  newest ∈ map (mtime_of (disk w)) (f0 :: rest) ->
  Forall (fun x => x <= newest) (map (mtime_of (disk w)) (f0 :: rest)) ->
  List.filter (fun f => newest <? mtime_of (disk w) f) files = [].
Proof.
  intros Hret Hin Hmax. apply filter_nothing. intros f Hf. apply Z.ltb_ge.
  destruct (decide (f ∈ f0 :: rest)) as [Hsel|Hnot].
  - eapply Forall_forall in Hmax; [exact Hmax|]. apply list_elem_of_fmap. by exists f.
  - destruct (modified (cache w)) as [m|]; [|by rewrite Hret in Hf].
    apply list_elem_of_fmap in Hin as (g & -> & Hg).
    rewrite <- Hret in Hg, Hnot. apply elem_of_filter_bool in Hg as [_ Hg].
    destruct (Z.ltb_spec m (mtime_of (disk w) f)) as [Hlt|Hge].
    + exfalso. apply Hnot. apply elem_of_filter_bool. split; [done|]. by apply Z.ltb_lt.
    + apply Z.ltb_lt in Hg. lia.
Qed.

(** X5. Without a single preview in the output folder, a refresh that returns
    has seen all there is: on the same disk, the next refresh returns at
    once and writes nothing, whether the first one showed thumbnails or
    failed to load any. *)
Lemma second_refresh_idle (t : Z) (dims : Z * Z) (w w1 : world) :
  (forall out, _pathoutput (self w) = Some out -> disk w !! gui_preview_of out = None) ->
  load_latest_preview t dims w = (Ok tt, w1) ->
  disk w1 = disk w
  /\ load_latest_preview t dims w1 = (Ok tt, w1).
Proof.
  intros Hgui Hrun.
  destruct (scan_output w) as [[[out files]|e] w0] eqn:Hscan; cycle 1.
  { by rewrite (load_latest_preview_raised _ _ _ _ _ Hscan) in Hrun. }
  pose proof (scan_output_run _ _ _ _ Hscan) as (-> & Hout & Hex).
  assert (Hnot : gui_preview_of out ∉ files).
  { intros Hin. eapply Forall_forall in Hex; [|exact Hin].
    rewrite (Hgui out Hout) in Hex. by destruct Hex. }
  assert (Hnext : forall w', disk w' = disk w ->
            _pathoutput (self w') = _pathoutput (self w) ->
            _batch_mode (self w') = _batch_mode (self w) ->
            scan_output w' = (Ok (out, files), w')).
  { intros w' Hd Hp Hb.
    pose proof (scans_scan_output w w' Hd Hp Hb) as E. rewrite Hscan in E.
    destruct (scan_output w') as [r w''] eqn:E'. simpl in E. subst r.
    by apply reader_scan_output in E' as ->. }
  rewrite (load_latest_preview_scanned _ _ _ out files) in Hrun by done.
  destruct (bool_decide (files = [])
            || ((List.length files =? 1)%nat
                && negb (bool_decide (gui_preview_of out ∈ files)))) eqn:Hearly.
  { injection Hrun as <-. split; [done|].
    rewrite (load_latest_preview_scanned _ _ _ out files) by done. by rewrite Hearly. }
  rewrite (bool_decide_eq_false_2 (gui_preview_of out ∈ files)) in Hrun by done.
  revert Hrun. unfold show_preview.
  rewrite bind_ok_run with (m := _get_newest_filenames files).
  rewrite get_newest_filenames_run by done.
  set (retval := match modified (cache w) with
                 | Some m => List.filter (fun f => m <? mtime_of (disk w) f) files
                 | None => files
                 end).
  destruct retval as [|f0 rest] eqn:Hret.
  - (* nothing new: the first refresh wrote nothing *)
    rewrite bool_decide_eq_true_2 by done. intros [= <-]. split; [done|].
    rewrite (load_latest_preview_scanned _ _ _ out files) by done. rewrite Hearly.
    rewrite (bool_decide_eq_false_2 (gui_preview_of out ∈ files)) by done.
    unfold show_preview. rewrite bind_ok_run with (m := _get_newest_filenames files).
    rewrite get_newest_filenames_run by done. fold retval. rewrite Hret.
    by rewrite bool_decide_eq_true_2.
  - destruct (max_spec (map (mtime_of (disk w)) (f0 :: rest))) as (newest & Hnewest & Hin & Hmax);
      [done|].
    rewrite Hnewest. rewrite bool_decide_eq_false_2 by done.
    set (w2 := set_modified (Some newest) w).
    assert (Hsub : forall f, f ∈ f0 :: rest -> f ∈ files).
    { intros f Hf. rewrite <- Hret in Hf. subst retval.
      destruct (modified (cache w)); [|done]. by apply elem_of_filter_bool in Hf as [? _]. }
    assert (Hnot' : gui_preview_of out ∉ f0 :: rest) by (intros ?; by apply Hnot, Hsub).
    intros Hrun.
    assert (Hsettled : settled w2 w1).
    { revert Hrun. rewrite bind_ok_run.
      destruct (_load_images_to_cache (f0 :: rest) dims t w2) as [[loaded|e] w3] eqn:Hload;
        [|done].
      apply settled_load_images in Hload. destruct loaded; cbn [negb].
      - rewrite (bool_decide_eq_false_2 (f0 :: rest = [gui_preview_of out])); cycle 1.
        { intros E. apply Hnot'. rewrite E. left. }
        rewrite bind_mret. intros Hshow. apply settled_display in Hshow.
        by transitivity w3.
      - rewrite bool_decide_eq_false_2 by done. by intros [= <-]. }
    destruct Hsettled as (Hd & Hp & Hb & Hm).
    split; [exact Hd|].
    rewrite (load_latest_preview_scanned _ _ _ out files) by (by apply Hnext).
    rewrite Hearly. rewrite (bool_decide_eq_false_2 (gui_preview_of out ∈ files)) by done.
    unfold show_preview. rewrite bind_ok_run with (m := _get_newest_filenames files).
    rewrite get_newest_filenames_run by (by rewrite Hd).
    rewrite Hm. change (modified (cache w2)) with (Some newest). rewrite Hd.
    change (disk w2) with (disk w).
    rewrite (nothing_newer w files f0 rest newest) by done.
    by rewrite bool_decide_eq_true_2.
Qed.

(** ** Deleting the previews *)

Lemma lookup_removed paths d q :
  removed paths d !! q = if bool_decide (q ∈ paths) then None else d !! q.
Proof.
  revert d. induction paths as [|p paths IH]; intros d; [done|].
  cbn [removed foldl]. fold (removed paths (delete p d)). rewrite IH.
  destruct (decide (q = p)) as [->|Hne].
  - rewrite lookup_delete_eq. rewrite (bool_decide_eq_true_2 (p ∈ p :: paths)) by left.
    by destruct (bool_decide _).
  - rewrite lookup_delete_ne by done.
    destruct (decide (q ∈ paths)) as [Hin|Hnin].
    + rewrite !bool_decide_eq_true_2; [done|by right|done].
    + rewrite !bool_decide_eq_false_2; [done| |done].
      intros [?|?]%elem_of_cons; done.
Qed.

Lemma set_disk_twice d1 d2 w : set_disk d2 (set_disk d1 w) = set_disk d2 w.
Proof. done. Qed.

Lemma hidden_not_absolute (item prefix : string) c :
  c <> "/"%char ->
  startswith item (String c prefix) = true -> startswith item "/" = false.
Proof.
  unfold startswith. intros Hc H. destruct item as [|a item]; [done|].
  cbn [String.prefix] in *. destruct (Ascii.ascii_dec c a) as [<-|]; [|done].
  destruct (Ascii.ascii_dec "/" c) as [E|]; [|done]. by destruct Hc.
Qed.

Lemma training_preview_hidden item :
  is_training_preview item = true -> startswith item "/" = false.
Proof.
  unfold is_training_preview. intros [H _]%andb_true_iff.
  by eapply (hidden_not_absolute item "gui_training_preview" ".").
Qed.

Lemma join_inj (a b1 b2 : string) :
  startswith b1 "/" = false -> startswith b2 "/" = false ->
  os_path_join a b1 = os_path_join a b2 -> b1 = b2.
Proof. intros H1 H2. rewrite !join_hidden by done. by intros ?%(inj _). Qed.

Lemma listdir_exists d p listing item :
  listdir d p = Ok listing -> item ∈ listing -> is_Some (d !! os_path_join p item).
Proof.
  unfold listdir. destruct (d !! p) as [n|]; [|done]. destruct (what n); [|done].
  intros [= <-] [_ H]%elem_of_filter_bool. unfold exists_ in H.
  by destruct (d !! os_path_join p item).
Qed.

Lemma exists_not_isdir d p : is_Some (d !! p) -> isdir d p = false -> isfile d p = true.
Proof. unfold isdir, isfile. intros [n ->]. by destruct (what n). Qed.

(** The first loop of [delete_preview]. *)
Lemma delete_training_loop (listing : list string) (w : world) :
  let pathpreview := _pathpreview (self w) in
  let previews := map (os_path_join pathpreview) (List.filter is_training_preview listing) in
  NoDup previews ->
  (forall p, p ∈ previews -> isfile (disk w) p = true) ->
  for_each listing (fun item =>
    if is_training_preview item
    then
      pathpreview ← gets (fun w => _pathpreview (self w));
      os_remove (os_path_join pathpreview item)
    else mret tt) w
  = (Ok tt, set_disk (removed previews (disk w)) w).
Proof.
  revert w. induction listing as [|item listing IH]; intros w pathpreview previews Hnd Hfiles.
  { cbn. by rewrite set_disk_same. }
  cbn [for_each]. subst previews. cbn [List.filter] in *.
  destruct (is_training_preview item); cycle 1.
  { rewrite bind_mret. by apply IH. }
  cbn [map] in *. apply NoDup_cons in Hnd as [Hnin Hnd].
  rewrite bind_bind, bind_gets. fold pathpreview.
  erewrite bind_ok; cycle 1.
  { rewrite os_remove_unfold, isfile_remove; [done|]. apply Hfiles. left. }
  rewrite IH; cycle 1.
  - done.
  - intros p Hp. simpl. rewrite isfile_delete.
    rewrite bool_decide_eq_false_2 by (by intros ->). apply Hfiles. by right.
  - done.
Qed.

(** One round of its second loop. *)
Lemma delete_single_step fname w :
  isdir (disk w) fname = false ->
  try_except (os_remove fname) is_FileNotFoundError (mret tt) w
  = (Ok tt, set_disk (delete fname (disk w)) w).
Proof.
  intros Hdir. unfold try_except. rewrite os_remove_unfold. unfold remove.
  unfold isdir in Hdir. destruct (disk w !! fname) as [n|] eqn:E.
  - by destruct (what n).
  - simpl. unfold mret, M_ret. by rewrite delete_id, set_disk_same.
Qed.

Lemma isdir_delete d p q : isdir (delete p d) q = true -> isdir d q = true.
Proof.
  unfold isdir. destruct (decide (q = p)) as [->|Hne].
  - by rewrite lookup_delete_eq.
  - by rewrite lookup_delete_ne.
Qed.

Lemma isdir_removed paths d q : isdir d q = false -> isdir (removed paths d) q = false.
Proof.
  unfold isdir. rewrite lookup_removed. by destruct (bool_decide _).
Qed.

(** The second loop of [delete_preview]. *)
Lemma delete_singles_loop (names : list string) (w : world) :
  (forall fname, fname ∈ names -> is_gui_preview fname = true ->
     isdir (disk w) fname = false) ->
  for_each names (fun fname =>
    if is_gui_preview fname
    then try_except (os_remove fname) is_FileNotFoundError (mret tt)
    else mret tt) w
  = (Ok tt, set_disk (removed (List.filter is_gui_preview names) (disk w)) w).
Proof.
  revert w. induction names as [|fname names IH]; intros w Hdirs.
  { cbn. by rewrite set_disk_same. }
  cbn [for_each List.filter].
  destruct (is_gui_preview fname) eqn:Hgui; cycle 1.
  { rewrite bind_mret. apply IH. intros f Hf. apply Hdirs. by right. }
  erewrite bind_ok; [|apply delete_single_step, Hdirs; [left|done]].
  rewrite IH; [done|].
  intros f Hf Hg. simpl.
  destruct (isdir (delete fname (disk w)) f) eqn:E; [|done].
  apply isdir_delete in E. rewrite Hdirs in E; [done|by right|done].
Qed.

Lemma removed_app ps qs d : removed (ps ++ qs) d = removed qs (removed ps d).
Proof. unfold removed. by rewrite foldl_app. Qed.

Lemma load_latest_preview_unset t dims w :
  _pathoutput (self w) = None -> load_latest_preview t dims w = (Raise AssertionError, w).
Proof.
  intros Hout. unfold load_latest_preview, scan_output, get_pathoutput.
  rewrite !bind_bind, bind_gets. by destruct (_pathoutput (self w)).
Qed.

(** X11. [delete_preview] in a preview folder that can be listed, none of whose
    training previews is a folder, as is none of the single previews among
    the cached file names: the call returns; the training previews of the
    folder and the single previews of the cache are gone from the disk
    (those already gone are passed over), and every other path is as it was;
    the instance is as [_clear_image_cache] leaves it, the count of read
    errors being kept; and a refresh of the output previews now fails its
    assertion, until an output folder is set again. *)
Lemma delete_preview_clears (t : Z) (dims : Z * Z) (w : world) (listing : list string) :
  let pathpreview := _pathpreview (self w) in
  let previews :=
    map (os_path_join pathpreview) (List.filter is_training_preview listing) in
  let singles := List.filter is_gui_preview (filenames (cache w)) in
  listdir (disk w) pathpreview = Ok listing ->
  NoDup listing ->
  (forall p, p ∈ previews ++ singles -> isdir (disk w) p = false) ->
  exists w',
    delete_preview w = (Ok tt, w')
    /\ (forall p, disk w' !! p
                  = if bool_decide (p ∈ previews ++ singles) then None else disk w !! p)
    /\ _pathoutput (self w') = None /\ _batch_mode (self w') = false
    /\ _previewoutput (self w') = None /\ _previewtrain (self w') = ∅
    /\ _previewcache (self w') = fresh_cache
    /\ _pathpreview (self w') = pathpreview /\ _errcount (self w') = _errcount (self w)
    /\ stdout w' = stdout w
    /\ load_latest_preview t dims w' = (Raise AssertionError, w').
Proof.
  intros pathpreview previews singles Hlist Hnd Hdirs.
  assert (Hnd' : NoDup previews).
  { apply NoDup_fmap_2_strong.
    - intros x y [_ Hx]%elem_of_filter_bool [_ Hy]%elem_of_filter_bool.
      apply join_inj; by apply training_preview_hidden.
    - apply NoDup_ListNoDup, List.NoDup_filter. by apply NoDup_ListNoDup. }
  assert (Hfiles : forall p, p ∈ previews -> isfile (disk w) p = true).
  { intros p Hp. apply exists_not_isdir.
    - apply list_elem_of_fmap in Hp as (item & -> & [Hitem _]%elem_of_filter_bool).
      by eapply listdir_exists.
    - apply Hdirs, elem_of_app. by left. }
  set (w1 := set_disk (removed previews (disk w)) w).
  set (w2 := set_disk (removed singles (disk w1)) w1).
  assert (Hrun : delete_preview w = _clear_image_cache w2).
  { unfold delete_preview. rewrite bind_gets. fold pathpreview.
    unfold os_listdir, reads. rewrite bind_ok_run, Hlist. cbv iota beta.
    erewrite bind_ok; [|by apply delete_training_loop]. fold pathpreview previews w1.
    rewrite bind_gets. change (filenames (cache w1)) with (filenames (cache w)).
    erewrite bind_ok; [done|]. rewrite delete_singles_loop; [done|].
    intros fname Hf Hg. apply isdir_removed, Hdirs, elem_of_app. right.
    by apply elem_of_filter_bool. }
  rewrite Hrun. eexists. split; [reflexivity|]. split.
  { intros p. change (removed singles (removed previews (disk w)) !! p = 
      if bool_decide (p ∈ previews ++ singles) then None else disk w !! p).
    by rewrite <- removed_app, lookup_removed. }
  repeat (split; [reflexivity|]). by apply load_latest_preview_unset.
Qed.

(** X12. When the preview folder cannot be listed, [delete_preview] raises the
    error of [os.listdir] before anything is done: no file is removed and
    the cache is not cleared. *)
Lemma delete_preview_no_folder (w : world) :
  isdir (disk w) (_pathpreview (self w)) = false ->
  exists e,
    delete_preview w = (Raise e, w)
    /\ e = match disk w !! _pathpreview (self w) with
           | None => FileNotFoundError
           | Some _ => NotADirectoryError
           end.
Proof.
  intros Hdir. unfold delete_preview. rewrite bind_gets.
  unfold os_listdir, reads. rewrite bind_ok_run. unfold listdir, isdir in *.
  destruct (disk w !! _pathpreview (self w)) as [n|]; [|by eexists].
  destruct (what n); [done|by eexists].
Qed.

(** ** The time that a training preview carries *)

#[local] Instance stamped_preorder m : PreOrder (stamped m).
Proof.
  split.
  - intros w name e He. right. by exists e.
  - intros w1 w2 w3 H12 H23 name e He.
    destruct (H23 name e He) as [?|(e2 & He2 & <-)]; [by left|].
    by apply H12.
Qed.

Lemma resize_image_run name frame_dims w :
  resize_image name frame_dims w
  = match _previewtrain (self w) !! name with
    | None => (Raise KeyError, w)
    | Some e =>
        match (match frame_dims with
               | Some dims =>
                   match fit dims (im_size (e_image e)) with
                   | Ok size =>
                       match resize_attempts 999 (e_image e) size with
                       | Ok _ => Ok size
                       | Raise err => Raise err
                       end
                   | Raise err => Raise err
                   end
               | None =>
                   match load (e_image e) with
                   | Ok _ => Ok (im_size (e_image e))
                   | Raise err => Raise err
                   end
               end) with
        | Ok size =>
            (Ok tt,
             set_previewtrain
               (<[name := {| e_image := e_image e; e_photo := Some size;
                             e_modified := e_modified e |}]> (_previewtrain (self w))) w)
        | Raise err => (Raise err, w)
        end
    end.
Proof.
  unfold resize_image. rewrite bind_gets.
  destruct (_previewtrain (self w) !! name) as [e|]; [|done].
  destruct frame_dims as [dims|].
  - unfold_M. destruct (fit dims _); [|done]. by destruct (resize_attempts _ _ _).
  - unfold_M. by destruct (load _).
Qed.

Lemma stamped_insert m name e w :
  e_modified e = m \/ (exists e0, _previewtrain (self w) !! name = Some e0
                                  /\ e_modified e0 = e_modified e) ->
  stamped m w (set_previewtrain (<[name := e]> (_previewtrain (self w))) w).
Proof.
  intros He other e'. world_simpl. destruct (decide (other = name)) as [->|Hne].
  - rewrite lookup_insert_eq. by intros [= <-].
  - rewrite lookup_insert_ne by done. intros E. right. by exists e'.
Qed.

Lemma stamped_resize_image m name frame_dims : preserves (stamped m) (resize_image name frame_dims).
Proof.
  intros w r w'. rewrite resize_image_run.
  destruct (_previewtrain (self w) !! name) as [e|] eqn:He; [|by intros [= <- <-]].
  destruct (match frame_dims with Some _ => _ | None => _ end); intros [= <- <-]; [|done].
  apply stamped_insert. right. by exists e.
Qed.

Lemma stamped_same_train m w w' :
  _previewtrain (self w') = _previewtrain (self w) -> stamped m w w'.
Proof. intros E name e He. right. exists e. by rewrite <- E. Qed.

Lemma stamped_read_training_image m img : preserves (stamped m) (read_training_image img m).
Proof.
  unfold read_training_image, _get_current_size, Image_open.
  repeat first
    [ apply stamped_resize_image
    | by (apply preserves_modify; try apply _; intros w; apply stamped_same_train)
    | by (apply preserves_modify; try apply _; intros w; apply stamped_insert; left)
    | preserve_step ].
Qed.

Lemma stamped_count_read_failure m img : preserves (stamped m) (count_read_failure img).
Proof.
  intros w r w'. rewrite count_read_failure_run. cbv zeta.
  destruct (_errcount (self w) <? 10); [intros [= <- <-]; by apply stamped_same_train|].
  destruct (_previewtrain (self w) !! preview_name img); intros [= <- <-];
    [|by apply stamped_same_train].
  intros name e'. world_simpl. intros [_ He]%lookup_delete_Some. right. by exists e'.
Qed.

Lemma stamped_load_training_images m files :
  preserves (stamped m) (load_training_images files (Some m)).
Proof.
  induction files as [|img rest IH]; cbn [load_training_images].
  { apply preserves_mret; apply _. }
  intros w r w'. rewrite bind_mret. revert w r w'.
  apply preserves_bind; try apply _; [|by intros _].
  apply preserves_try_except; try apply _;
    [apply stamped_read_training_image|apply stamped_count_read_failure].
Qed.

(** X13. One time for all the streams of a poll: whatever the poll does and
    however it ends, an entry of [_previewtrain] afterwards carries the
    modification time of the first image file of the preview folder, whichever
    file it was read from, or still carries the time it carried before. *)
Lemma training_previews_stamped (w : world) (first : string) (rest : list string) r w' :
  fst (_get_images (_pathpreview (self w)) w) = Ok (first :: rest) ->
  load_training_preview w = (r, w') ->
  forall name e,
    _previewtrain (self w') !! name = Some e ->
    e_modified e = mtime_of (disk w) first
    \/ exists e0, _previewtrain (self w) !! name = Some e0
                   /\ e_modified e0 = e_modified e.
Proof.
  intros Hfiles Hrun. apply get_images_fst in Hfiles.
  assert (Hfirst : is_Some (disk w !! first)).
  { eapply get_images_exist; [exact Hfiles|left]. }
  revert Hrun. unfold load_training_preview. rewrite bind_gets.
  erewrite bind_ok; [|exact Hfiles]. cbn [load_training_images].
  unfold os_path_getmtime at 1. unfold reads at 1.
  rewrite bind_ok_run, getmtime_exists by done. cbv iota beta.
  intros Hrun.
  apply (stamped_load_training_images (mtime_of (disk w) first) (first :: rest) w r w').
  cbn [load_training_images]. by rewrite bind_mret.
Qed.

(** ** The title of the window *)

(** X23. The title begins with [Faceswap.py], as the docstring has it; it is
    that name alone when there is no text or the text is empty, and
    otherwise the name, a dash between two spaces, and the text. *)
Lemma root_title_begins (text : option string) :
  startswith (set_root_title text) "Faceswap.py" = true
  /\ (set_root_title text = "Faceswap.py" <-> text = None \/ text = Some "")
  /\ forall extra, text = Some extra -> extra <> "" ->
       set_root_title text = "Faceswap.py - " +:+ extra.
Proof.
  split.
  { unfold set_root_title. destruct text as [extra|]; [destruct (negb _)|]; reflexivity. }
  split; [split|].
  - destruct text as [extra|]; [|by left]. unfold set_root_title.
    destruct (String.eqb_spec extra "") as [->|Hne]; [by right|].
    cbn [negb]. change "Faceswap.py" with ("Faceswap.py" +:+ "") at 2.
    by intros ?%(inj _).
  - by intros [->| ->].
  - intros extra -> Hne. unfold set_root_title.
    by destruct (String.eqb_spec extra "").
Qed.

(** ** The dialog of a context *)

(** X24. A context resolves to a dialog for the command [effmpeg], the variables
    [input] and [output] and the eight actions of the table only, and the
    dialog is then one that [FileHandler] has a method for.  The [else]
    branch never gives a dialog: for a variable that the table does not know
    it raises [KeyError], or, when the action is itself [input] or [output],
    binds a table of actions where the name of a dialog is expected. *)
Lemma context_handletype (command action variable : string) :
  match _set_context_handletype command action variable with
  | Ok (Dialog name) =>
      command = "effmpeg" /\ (variable = "input" \/ variable = "output")
      /\ name ∈ dialogs /\ lower name = name
  | Ok (Actions table) =>
      command = "effmpeg" /\ variable <> "input" /\ variable <> "output"
      /\ (action = "input" \/ action = "output")
  | Raise e => e = KeyError
  end.
Proof.
  unfold _set_context_handletype, _contexts. cbn [getitem].
  destruct (String.eqb_spec "effmpeg" command) as [<-|]; [|done].
  cbn [getitem].
  destruct (String.eqb_spec "input" variable) as [<-|Hin].
  { cbn [getitem].
    repeat (destruct (String.eqb _ action);
            [split; [done|]; split; [by left|]; split; [|reflexivity];
             unfold dialogs; repeat first [by left | right]|]).
    done. }
  destruct (String.eqb_spec "output" variable) as [<-|Hout].
  { cbn [getitem].
    repeat (destruct (String.eqb _ action);
            [split; [done|]; split; [by right|]; split; [|reflexivity];
             unfold dialogs; repeat first [by left | right]|]).
    done. }
  destruct (String.eqb_spec "input" action) as [<-|]; [by eauto|].
  destruct (String.eqb_spec "output" action) as [<-|]; [by eauto 6|done].
Qed.

(** ** The streams that a poll keeps *)

#[local] Instance kept_preorder : PreOrder kept.
Proof.
  split.
  - intros w. by split.
  - intros w1 w2 w3 [Hp12 H12] [Hp23 H23]. split; [by etrans|].
    intros E name Hname.
    assert (stdout w2 = stdout w1) as E2.
    { rewrite E in Hp23. destruct Hp12 as [k1 E1], Hp23 as [k2 E2].
      rewrite E1, <- app_assoc in E2.
      apply (f_equal List.length) in E2. rewrite !length_app in E2.
      destruct k1; [by rewrite app_nil_r in E1|]. simpl in E2. lia. }
    apply H23; [congruence|]. by apply H12.
Qed.

Lemma kept_quiet w w' :
  stdout w' = stdout w ->
  (forall name, is_Some (_previewtrain (self w) !! name) ->
                is_Some (_previewtrain (self w') !! name)) ->
  kept w w'.
Proof. intros E H. split; [by rewrite E|done]. Qed.

Lemma kept_insert name e w :
  kept w (set_previewtrain (<[name := e]> (_previewtrain (self w))) w).
Proof.
  apply kept_quiet; [done|]. intros other Ho. world_simpl.
  destruct (decide (other = name)) as [->|Hne].
  - rewrite lookup_insert_eq. by eexists.
  - by rewrite lookup_insert_ne.
Qed.

Lemma kept_resize_image name frame_dims : preserves kept (resize_image name frame_dims).
Proof.
  intros w r w'. rewrite resize_image_run.
  destruct (_previewtrain (self w) !! name) as [e|] eqn:He; [|by intros [= <- <-]].
  destruct (match frame_dims with Some _ => _ | None => _ end); intros [= <- <-]; [|done].
  apply kept_insert.
Qed.

Lemma kept_read_training_image m img : preserves kept (read_training_image img m).
Proof.
  unfold read_training_image, _get_current_size, Image_open.
  repeat first
    [ apply kept_resize_image
    | by (apply preserves_modify; try apply _; intros w; apply kept_quiet)
    | by (apply preserves_modify; try apply _; intros w; apply kept_insert)
    | preserve_step ].
Qed.

Lemma kept_count_read_failure img : preserves kept (count_read_failure img).
Proof.
  intros w r w'. rewrite count_read_failure_run. cbv zeta.
  destruct (_errcount (self w) <? 10); [intros [= <- <-]; by apply kept_quiet|].
  assert (Hprinted : forall w0, stdout w0 = stdout w ++ [read_error img] -> kept w w0).
  { intros w0 E. split; [rewrite E; by apply prefix_app_r|].
    rewrite E. intros E'. apply (f_equal List.length) in E'.
    rewrite length_app in E'. simpl in E'. lia. }
  destruct (_previewtrain (self w) !! preview_name img); intros [= <- <-];
    by apply Hprinted.
Qed.

Lemma kept_load_training_images files m :
  preserves kept (load_training_images files m).
Proof.
  revert m. induction files as [|img rest IH]; intros m; cbn [load_training_images].
  { apply preserves_mret; apply _. }
  apply preserves_bind; try apply _.
  { destruct m; [apply preserves_mret|apply preserves_reads]; apply _. }
  intros m'. apply preserves_bind; try apply _; [|by intros _].
  apply preserves_try_except; try apply _;
    [apply kept_read_training_image|apply kept_count_read_failure].
Qed.

(** X14. A poll lets go of streams in two ways only: of all of them, when the
    preview folder holds no image file; of one that fails to read, after
    printing the error.  A poll of a folder with an image file that prints
    nothing, however it ends, keeps every stream it found, those included
    whose file is no longer in the folder. *)
Lemma training_streams_kept (w : world) r w' :
  load_training_preview w = (r, w') ->
  match fst (_get_images (_pathpreview (self w)) w) with
  | Ok [] =>
      r = Ok tt /\ _previewtrain (self w') = ∅ /\ stdout w' = stdout w
      /\ _errcount (self w') = _errcount (self w)
  | _ =>
      stdout w' = stdout w ->
      forall name, is_Some (_previewtrain (self w) !! name) ->
                   is_Some (_previewtrain (self w') !! name)
  end.
Proof.
  unfold load_training_preview. rewrite bind_gets, bind_ok_run.
  destruct (_get_images (_pathpreview (self w)) w) as [files w0] eqn:Hfiles.
  pose proof (reader_get_images _ _ _ _ Hfiles) as ->. simpl fst.
  destruct files as [[|f rest]|e].
  - by intros [= <- <-].
  - intros Hrun. by apply (kept_load_training_images (f :: rest) None) in Hrun as [_ ?].
  - by intros [= <- <-].
Qed.

(** ** The files that are tried *)

Lemma sorted_split {A} (R : relation A) (l : list A) (k : nat) :
  StronglySorted R l ->
  StronglySorted R (drop k l)
  /\ forall x y, x ∈ take k l -> y ∈ drop k l -> R x y.
Proof.
  intros Hs. revert k. induction Hs as [|a l Hl IH Hall]; intros k.
  { rewrite drop_nil, take_nil. split; [constructor|]. by intros x y ?%elem_of_nil. }
  destruct k as [|k]; simpl.
  { split; [by constructor|]. by intros x y ?%elem_of_nil. }
  destruct (IH k) as [Hd Hcross]. split; [done|].
  intros x y [->|Hx]%elem_of_cons Hy; [|by apply Hcross].
  eapply Forall_forall in Hall; [exact Hall|]. by eapply subseteq_drop.
Qed.

Lemma sorted_by_key_snd {A} (key : A -> Z) (l : list (Z * A)) :
  Forall (fun p => fst p = key (snd p)) l ->
  StronglySorted by_key l ->
  StronglySorted (fun x y => key x <= key y) (map snd l).
Proof.
  intros Hkeys Hs. induction Hs as [|p l Hl IH Hall]; [constructor|].
  apply Forall_cons in Hkeys as [Hp Hkeys]. cbn [map]. constructor; [by apply IH|].
  apply Forall_fmap, Forall_forall. intros q Hq. simpl.
  eapply Forall_forall in Hall; [|exact Hq]. eapply Forall_forall in Hkeys; [|exact Hq].
  unfold by_key in Hall. congruence.
Qed.

(** [sorted(l, key)]: the elements of [l], in the order of their keys. *)
Lemma sorted_by (key : string -> Z) (l : list string) :
  let s := map snd (sort_by_key (zip (map key l) l)) in
  s ≡ₚ l /\ StronglySorted (fun x y => key x <= key y) s.
Proof.
  intros s. split.
  - subst s. rewrite sort_by_key_perm. rewrite snd_zip; [done|].
    by rewrite length_map.
  - apply sorted_by_key_snd; [|apply sort_by_key_sorted].
    apply Forall_forall. intros [k x] Hp. rewrite sort_by_key_perm in Hp. simpl.
    apply elem_of_lookup_zip_with in Hp as (i & k' & y' & [= <- <-] & Hk & Hy).
    rewrite list_lookup_fmap, Hy in Hk. by injection Hk as <-.
Qed.

(** X6. [_load_images_to_cache] tries the most recent files and no more than
    fit the panel: for a panel of [n >= 1] cells, the loop runs over
    [min n count] of the [count] files, in the order of their creation times,
    and none of the files left out was created later than one of them. *)
Lemma newest_files_shown (w : world) (files : list string) (dims : Z * Z) (t n : Z) :
  Forall (fun f => is_Some (disk w !! f)) files ->
  num_images dims t = Ok n ->
  0 < n ->
  exists show_files unshown,
    _load_images_to_cache files dims t w
    = (loaded ← load_samples t show_files [] [];
       _process_samples (fst loaded)
         (List.filter (fun fname => negb (bool_decide (fname ∈ snd loaded))) show_files)
         n) w
    /\ files ≡ₚ unshown ++ show_files
    /\ List.length show_files = Nat.min (Z.to_nat n) (List.length files)
    /\ StronglySorted (fun f g => ctime_of (disk w) f <= ctime_of (disk w) g) show_files
    /\ forall f g, f ∈ show_files -> g ∈ unshown ->
         ctime_of (disk w) g <= ctime_of (disk w) f.
Proof.
  intros Hex Hn Hpos.
  destruct (sorted_by (ctime_of (disk w)) files) as [Hperm Hsorted].
  set (s := map snd (sort_by_key (zip (map (ctime_of (disk w)) files) files))) in *.
  set (k := (List.length files - Z.to_nat n)%nat).
  assert (Hlen : List.length s = List.length files) by (by rewrite Hperm).
  assert (Hslice : slice_from
                     (if n <? Z.of_nat (List.length files)
                      then Z.of_nat (List.length files) - n else 0) s
                   = drop k s).
  { destruct (Z.ltb_spec n (Z.of_nat (List.length files))).
    - rewrite slice_from_start by lia. f_equal. lia.
    - rewrite slice_from_start by lia. simpl. subst k.
      replace (List.length files - Z.to_nat n)%nat with 0%nat by lia. done. }
  exists (drop k s), (take k s).
  destruct (sorted_split _ s k Hsorted) as [Hd Hcross].
  split; [|split; [|split; [|split]]].
  - unfold _load_images_to_cache. rewrite Hn, bind_lift_ok.
    destruct (Z.eqb_spec n 0); [lia|].
    erewrite bind_ok; [|by apply for_list_getctime].
    fold s. rewrite Hslice.
    unfold mbind, M_bind. by destruct (load_samples _ _ _ _ _) as [[[??]|?] ?].
  - by rewrite take_drop.
  - rewrite length_drop, Hlen. lia.
  - done.
  - intros f g Hf Hg. by apply Hcross.
Qed.

End Methods.

(** ** The background task *)

Lemma with_traceback_same (e : exception) : with_traceback e (exc_traceback e) = e.
Proof. by destruct e. Qed.



(** The result is handed over once: a second call after a normal
    completion waits on the empty queue. *)
Lemma get_result_twice (v : value) :
  let finished := fst (run (init (Some (Returns v)))) in
  fst (get_result (snd (get_result finished))) = Blocks.
Proof. done. Qed.

(** ** The background task, further *)

(** The [finally] clause: whatever the target does, [run] sets the event
    and lets go of the target. *)
Lemma run_complete (t : LongRunningTask) :
  _complete (fst (run t)) = true /\ _target (fst (run t)) = None.
Proof. unfold run. by destruct (run_try t). Qed.

(** X16. When the thread ends without a result and without a recorded error (no
    target was given, or the target raised an exception that is not an
    [Exception], which [run] lets through), the event is set all the same,
    and [get_result] waits on the empty queue: it neither returns nor
    raises, and the cursor stays busy. *)
Lemma get_result_blocks (t : LongRunningTask) :
  err t = None -> _queue t = [] ->
  match _target t with
  | None => True
  | Some (Throws e) => is_Exception (exc_class e) = false
  | Some (Returns _) => False
  end ->
  let finished := fst (run t) in
  _complete finished = true
  /\ snd (run t) = match _target t with Some (Throws e) => Some e | _ => None end
  /\ get_result finished = (Blocks, finished)
  /\ cursor_busy finished = cursor_busy t.
Proof.
  intros Herr Hq Htarget. unfold run, run_try.
  destruct (_target t) as [[v|e]|]; [done| |].
  - rewrite Htarget. unfold get_result. simpl. by rewrite Herr, Hq.
  - unfold get_result. simpl. by rewrite Herr, Hq.
Qed.

Lemma after_calls_raised (e : exception) (n : nat) (t : LongRunningTask) :
  _complete t = true -> err t = Some (exc_class e, e, exc_traceback e) ->
  _complete (after_calls n t) = true
  /\ err (after_calls n t) = Some (exc_class e, e, exc_traceback e)
  /\ _queue (after_calls n t) = _queue t.
Proof.
  intros Hc He. induction n as [|n (IHc & IHe & IHq)]; [done|].
  assert (after_calls (S n) t = set_cursor_default (after_calls n t)) as ->.
  { change (after_calls (S n) t) with (snd (get_result (after_calls n t))).
    unfold get_result. by rewrite IHc, IHe. }
  done.
Qed.

(** X17. The error of the target is kept: after the run of a target that raised
    an [Exception], every call of [get_result], not only the first, raises
    that exception, and resets the cursor. *)
Lemma get_result_raises_again (e : exception) (n : nat) :
  is_Exception (exc_class e) = true ->
  let finished := fst (run (init (Some (Throws e)))) in
  get_result (after_calls n finished)
  = (Raised e, set_cursor_default (after_calls n finished)).
Proof.
  intros He finished.
  destruct (after_calls_raised e n finished) as (Hc & Herr & _).
  - apply run_complete.
  - subst finished. unfold run, run_try, init. simpl. by rewrite He.
  - unfold get_result. rewrite Hc, Herr. simpl. by rewrite with_traceback_same.
Qed.

Lemma after_calls_returned (t : LongRunningTask) (i : nat) :
  _complete t = true -> err t = None ->
  _complete (after_calls i t) = true
  /\ err (after_calls i t) = None
  /\ _queue (after_calls i t) = drop i (_queue t).
Proof.
  intros Hc He. induction i as [|i (IHc & IHe & IHq)]; [done|].
  change (after_calls (S i) t) with (snd (get_result (after_calls i t))).
  unfold get_result. rewrite IHc, IHe, IHq. cbn [negb].
  destruct (drop i (_queue t)) as [|v rest] eqn:E.
  - cbn [snd]. rewrite IHc, IHe, IHq. split; [done|]. split; [done|].
    symmetry. apply drop_ge.
    apply (f_equal List.length) in E. rewrite length_drop in E. simpl in E. lia.
  - cbn. split; [done|]. split; [done|].
    replace (S i) with (i + 1)%nat by lia. by rewrite <- drop_drop, E.
Qed.

(** X18. What the queue holds is handed over in turn, once each: for a
    task whose run has ended without an error, the call of [get_result] that
    follows [i] earlier calls returns the item of the queue at [i], and
    waits when there is none, as the second call does after the run of a
    target that returned. *)
Lemma get_result_in_turn (t : LongRunningTask) (i : nat) :
  _complete t = true -> err t = None ->
  fst (get_result (after_calls i t))
  = match _queue t !! i with
    | Some retval => Returned retval
    | None => Blocks
    end.
Proof.
  intros Hc He. destruct (after_calls_returned t i Hc He) as (IHc & IHe & IHq).
  unfold get_result. rewrite IHc, IHe, IHq. cbn [negb].
  rewrite <- (Nat.add_0_r i) at 2. rewrite <- lookup_drop.
  by destruct (drop i (_queue t)).
Qed.

(** ** The theorems at work *)

Lemma get_newest_filenames_scan_example :
  let w := world_of seen_to_5 two_files in
  let files := ["/out/a.png"; "/out/b.jpg"] in
  Forall (fun f => is_Some (disk w !! f)) files
  /\ exists retval w',
       _get_newest_filenames files w = (Ok retval, w')
       /\ (modified (cache w) = None -> retval = files)
       /\ (forall m, modified (cache w) = Some m ->
             retval = List.filter (fun f => m <? mtime_of (disk w) f) files)
       /\ (retval = [] -> w' = w)
       /\ (retval <> [] ->
             exists newest,
               w' = set_modified (Some newest) w
               /\ modified (cache w') = Some newest
               /\ (exists f, f ∈ retval /\ getmtime (disk w) f = Ok newest)
               /\ (forall f t, f ∈ retval -> getmtime (disk w) f = Ok t -> t <= newest)).
Proof.
  intros w files.
  assert (H : Forall (fun f => is_Some (disk w !! f)) files).
  { repeat constructor; by eexists. }
  split; [exact H|]. exact (get_newest_filenames_scan w files H).
Defined.

(** Five thumbnails, one at a time, into three cells: the last three stay,
    in the order of arrival. *)
Lemma process_samples_window_example :
  let w := world_of fresh_cache ∅ in
  let batches := [([tile 1], ["1.png"]); ([tile 2], ["2.png"]); ([tile 3], ["3.png"]);
                  ([tile 4], ["4.png"]); ([tile 5], ["5.png"])] in
  (0 < 3
   /\ batches <> []
   /\ (forall c, images (cache w) = Some c -> item_shape c = [2; 2; 3])
   /\ Forall (accepted [2; 2; 3]) batches)
  /\ exists w',
       process_batches batches 3 w = (Ok tt, w')
       /\ cached_items w' = [tile 3; tile 4; tile 5]
       /\ Z.of_nat (List.length (cached_items w')) = Z.min 3 5
       /\ filenames (cache w') = ["3.png"; "4.png"; "5.png"].
Proof.
  intros w batches.
  assert (H1 : 0 < 3) by reflexivity.
  assert (H2 : batches <> []) by discriminate.
  assert (H3 : forall c, images (cache w) = Some c -> item_shape c = [2; 2; 3])
    by (intros c H; discriminate H).
  assert (H4 : Forall (accepted [2; 2; 3]) batches).
  { repeat constructor. }
  split; [by repeat split|].
  destruct (process_samples_window w batches 3 [2; 2; 3] H1 H2 H3 H4)
    as (w' & Hrun & Hitems & Hlen & Hnames & _).
  exists w'. split; [exact Hrun|]. split; [exact Hitems|]. split; [exact Hlen|].
  exact Hnames.
Defined.

(** The single preview next to another picture: it alone is refreshed, and
    it is gone from the disk once loaded. *)
Lemma single_preview_alone_example :
  let w := world_of fresh_cache (with_preview (photo 8)) in
  let files := ["/out/a.png"; "/out/.gui_preview.jpg"] in
  let gui := "/out/.gui_preview.jpg" in
  (scan_output w = (Ok ("/out", files), w) /\ gui_preview_of "/out" ∈ files)
  /\ load_latest_preview outlined 2 (4, 4) w = show_preview outlined gui [gui] 2 (4, 4) w
  /\ filenames (cache (snd (load_latest_preview outlined 2 (4, 4) w))) = [gui]
  /\ disk (snd (load_latest_preview outlined 2 (4, 4) w)) !! gui = None.
Proof.
  intros w files gui.
  assert (H1 : scan_output w = (Ok ("/out", files), w)) by reflexivity.
  assert (H2 : gui_preview_of "/out" ∈ files) by (right; left).
  split; [by split|].
  destruct (single_preview_alone outlined w 2 (4, 4) "/out" files w H1 H2)
    as (Hrun & _ & Hgone).
  split; [exact Hrun|]. split; [reflexivity|].
  apply (Hgone [gui] (snd (_get_newest_filenames [gui] w))
               (snd (_load_images_to_cache [gui] (4, 4) 2
                       (snd (_get_newest_filenames [gui] w)))));
    reflexivity.
Defined.

(** The single preview that may not be opened: the watermark is unset
    again and the next scan returns the file. *)
Lemma failed_single_preview_retried_example :
  let w := world_of seen_to_5 (with_preview (OpenRaises PermissionError)) in
  let files := ["/out/a.png"; "/out/.gui_preview.jpg"] in
  let gui := "/out/.gui_preview.jpg" in
  (scan_output w = (Ok ("/out", files), w)
   /\ gui_preview_of "/out" ∈ files
   /\ 2 <> 0
   /\ newer w (gui_preview_of "/out")
   /\ is_dropped (disk w) 2 (gui_preview_of "/out") = true)
  /\ load_latest_preview outlined 2 (4, 4) w = (Ok tt, set_modified None w)
  /\ fst (_get_newest_filenames [gui] (set_modified None w)) = Ok [gui].
Proof.
  intros w files gui.
  assert (H1 : scan_output w = (Ok ("/out", files), w)) by reflexivity.
  assert (H2 : gui_preview_of "/out" ∈ files) by (right; left).
  assert (H3 : 2 <> 0) by discriminate.
  assert (H4 : newer w (gui_preview_of "/out")) by reflexivity.
  assert (H5 : is_dropped (disk w) 2 (gui_preview_of "/out") = true) by reflexivity.
  split; [by repeat split|].
  destruct (failed_single_preview_retried outlined w 2 (4, 4) "/out" files w H1 H2 H3 H4 H5)
    as (Hrun & _ & Hnext).
  split; [exact Hrun|exact Hnext].
Defined.

(** A folder whose new files all fail to load, over a cache of two: the
    scan lets both files through, the loop tries and drops both, and the
    cache and the display stay. *)
Lemma refresh_without_thumbnails_example :
  let w := world_of two_cached_early no_pictures in
  let files := ["/out/x.png"; "/out/y.jpg"] in
  (forall out files w1, scan_output w = (Ok (out, files), w1) ->
     forall f, f ∈ files -> newer w f -> thumbnail (disk w) 2 f = None)
  /\ (newer w "/out/x.png" /\ newer w "/out/y.jpg")
  /\ _get_newest_filenames files w = (Ok files, set_modified (Some 7) w)
  /\ _load_images_to_cache files (4, 4) 2 (set_modified (Some 7) w)
     = (Ok false, set_modified (Some 7) w)
  /\ load_latest_preview outlined 2 (4, 4) w = (Ok tt, set_modified (Some 7) w)
  /\ unchanged_display w (snd (load_latest_preview outlined 2 (4, 4) w)).
Proof.
  intros w files.
  assert (H : forall out files w1, scan_output w = (Ok (out, files), w1) ->
            forall f, f ∈ files -> newer w f -> thumbnail (disk w) 2 f = None).
  { intros out files' w1 E f Hf _.
    assert (files' = ["/out/x.png"; "/out/y.jpg"]) as -> by (by injection E as <- <- <-).
    apply elem_of_cons in Hf as [->|Hf]; [reflexivity|].
    apply list_elem_of_singleton in Hf as ->. reflexivity. }
  split; [exact H|]. split; [split; reflexivity|].
  split; [reflexivity|]. split; [reflexivity|]. split; [reflexivity|].
  exact (refresh_without_thumbnails outlined w 2 (4, 4) H).
Defined.

(** A panel of 50 by 300 pixels has no room for a thumbnail of side 100. *)
Lemma cells_of_panel_example :
  (0 <= 50 /\ 0 <= 300 /\ 0 < 100)
  /\ num_images (50, 300) 100 = Ok 0
  /\ forall w files, _load_images_to_cache files (50, 300) 100 w = (Ok false, w).
Proof.
  assert (H1 : 0 <= 50) by discriminate.
  assert (H2 : 0 <= 300) by discriminate.
  assert (H3 : 0 < 100) by reflexivity.
  split; [by repeat split|].
  destruct (cells_of_panel outlined 50 300 100 H1 H2 H3) as (Hn & _ & _ & Hzero).
  split; [exact Hn|]. intros w files.
  destruct (Hzero eq_refl w) as (_ & Hload & _). exact (Hload files).
Defined.



(** One picture and one file that may not be opened: one thumbnail and one
    name reach the cache. *)
Lemma load_failures_dropped_example :
  let w := world_of fresh_cache two_files in
  let files := ["/out/a.png"; "/out/b.jpg"] in
  (Forall (fun f => is_Some (disk w !! f)) files
   /\ num_images (4, 4) 2 = Ok 4)
  /\ shown (disk w) files 4 = files
  /\ usable (disk w) 2 "/out/a.png" = true
  /\ caught_failure (disk w) 2 "/out/b.jpg"
  /\ (is_dropped (disk w) 2 "/out/b.jpg" = true
      /\ thumbnail (disk w) 2 "/out/b.jpg" = None)
  /\ _load_images_to_cache files (4, 4) 2 w
     = _process_samples [tile 1] ["/out/a.png"] 4 w
  /\ exists w',
       _load_images_to_cache files (4, 4) 2 w = (Ok true, w')
       /\ cached_items w' = [tile 1]
       /\ filenames (cache w') = ["/out/a.png"].
Proof.
  intros w files.
  assert (H1 : Forall (fun f => is_Some (disk w !! f)) files).
  { repeat constructor; by eexists. }
  assert (H2 : num_images (4, 4) 2 = Ok 4) by reflexivity.
  assert (Htried : shown (disk w) files 4 = files) by reflexivity.
  assert (Ha : usable (disk w) 2 "/out/a.png" = true) by reflexivity.
  assert (Hb : caught_failure (disk w) 2 "/out/b.jpg").
  { left. exists PermissionError. split; reflexivity. }
  assert (H3 : forall f, f ∈ shown (disk w) files 4 ->
                 usable (disk w) 2 f = true \/ caught_failure (disk w) 2 f).
  { rewrite Htried. intros f Hf. apply elem_of_cons in Hf as [->|Hf]; [by left|].
    apply list_elem_of_singleton in Hf as ->. by right. }
  split; [by split|]. split; [exact Htried|]. split; [exact Ha|]. split; [exact Hb|].
  destruct (load_failures_dropped w files (4, 4) 2 4 H1 H2) as (Hdrop & _ & _ & Hcaught).
  destruct (Hdrop "/out/b.jpg") as (Hdr & Hth & _); [right; left|exact Hb|].
  split; [by split|].
  destruct (Hcaught H3) as (Hrun & _).
  split; [exact Hrun|].
  eexists. split; [rewrite Hrun; reflexivity|]. by split.
Defined.

(** A picture next to a sound picture of 1000 by 1 pixels, for thumbnails of
    2 pixels: the short side of the sliver scales to no pixel, [resize]
    raises a [ValueError], which is no [OSError], and the refresh raises it
    in turn; nothing reaches the cache. *)
Lemma load_failure_escapes :
  let w := world_of fresh_cache with_sliver in
  let files := ["/out/a.png"; "/out/s.png"] in
  open (disk w) "/out/s.png" = Ok sliver
  /\ load sliver = Ok tt
  /\ (exists scaling, truediv 2 (Z.max 1000 1) = Ok scaling
                      /\ scaled (1000, 1) scaling = Ok (2, 0))
  /\ resize sliver (2, 0) = Raise ValueError
  /\ is_OSError ValueError = false
  /\ fst (_load_images_to_cache files (4, 4) 2 w) = Raise ValueError
  /\ fst (load_latest_preview outlined 2 (4, 4) w) = Raise ValueError
  /\ images (cache (snd (load_latest_preview outlined 2 (4, 4) w))) = None
  /\ filenames (cache (snd (load_latest_preview outlined 2 (4, 4) w))) = [].
Proof.
  intros w files. split; [vm_compute; reflexivity|]. split; [reflexivity|].
  split; [exists (SpecFloat.S754_finite false 4611686018427388 (-61)); split;
          vm_compute; reflexivity|].
  split; [reflexivity|]. split; [reflexivity|].
  split; [vm_compute; reflexivity|]. split; [vm_compute; reflexivity|].
  split; vm_compute; reflexivity.
Qed.

(** A training preview whose pixels cannot be read, on the first attempt:
    the [ValueError] is caught and counted. *)
Lemma training_read_failures_example :
  let w := world_of fresh_cache (training (truncated ValueError)) in
  let img := "/cache/preview/.gui_training_preview_a.jpg" in
  exists w1,
    read_training_image fill_frame img 5 w = (Raise ValueError, w1)
    /\ load_training_image fill_frame img 5 w = (Ok tt, set_errcount 1 w1).
Proof.
  intros w img. eexists.
  assert (H : read_training_image fill_frame img 5 w
              = (Raise ValueError,
                 snd (read_training_image fill_frame img 5 w))) by reflexivity.
  split; [exact H|].
  exact (training_read_failures fill_frame w img 5 _ _ H).
Defined.

(** A training preview that may not be opened: the [PermissionError] is
    not a [ValueError], so [load_training_preview] raises it and counts
    nothing. *)
Lemma training_permission_error_escapes :
  let w := world_of fresh_cache (training (OpenRaises PermissionError)) in
  load_training_preview fill_frame w = (Raise PermissionError, w)
  /\ _errcount (self (snd (load_training_preview fill_frame w))) = _errcount (self w).
Proof. split; reflexivity. Qed.


(** ** The extras at work *)

(** A thread without a target, and a target that is interrupted: the event
    is set and [get_result] waits. *)
Lemma get_result_blocks_example :
  get_result (fst (run (init None))) = (Blocks, fst (run (init None)))
  /\ snd (run (init (Some (Throws interrupt)))) = Some interrupt
  /\ fst (get_result (fst (run (init (Some (Throws interrupt)))))) = Blocks.
Proof.
  destruct (get_result_blocks (init None) eq_refl eq_refl I) as (_ & _ & Hnone & _).
  destruct (get_result_blocks (init (Some (Throws interrupt))) eq_refl eq_refl eq_refl)
    as (_ & Hesc & Hint & _).
  split; [exact Hnone|]. split; [exact Hesc|]. by rewrite Hint.
Defined.

(** The third call after a [ValueError] raises it as the first one did. *)
Lemma get_result_raises_again_example :
  let finished := fst (run (init (Some (Throws bad_value)))) in
  fst (get_result finished) = Raised bad_value
  /\ fst (get_result (after_calls 2 finished)) = Raised bad_value.
Proof.
  intros finished. split.
  - exact (f_equal fst (get_result_raises_again bad_value 0 eq_refl)).
  - exact (f_equal fst (get_result_raises_again bad_value 2 eq_refl)).
Defined.

(** The update trigger is placed in the empty cache folder at time 7; at
    time 8 it is left alone. *)
Lemma trigger_set_places_example :
  let this := PreviewTrigger.init "/cache" in
  let w := world_of fresh_cache cache_folder in
  exists w1,
    PreviewTrigger.set this 7 "update" w = (Ok tt, w1)
    /\ isfile (disk w1) "/cache/.preview_trigger" = true
    /\ isfile (disk w1) "/cache/.preview_mask_toggle" = false
    /\ PreviewTrigger.set this 8 "update" w1 = (Ok tt, w1).
Proof.
  intros this w.
  destruct (trigger_set_places this 7 "update" "/cache/.preview_trigger" w
              eq_refl eq_refl eq_refl)
    as (w1 & Hrun & Hfile & Hothers & _ & _ & _ & Hagain).
  exists w1. split; [exact Hrun|]. split; [exact Hfile|]. split; [|exact (Hagain 8)].
  by rewrite Hothers.
Defined.

(** Clearing all triggers where the update trigger is in place and the
    other is not. *)
Lemma trigger_clear_removes_example :
  let this := PreviewTrigger.init "/cache" in
  let w := world_of fresh_cache triggered in
  isfile (disk w) "/cache/.preview_trigger" = true
  /\ exists w1,
       PreviewTrigger.clear this None w = (Ok tt, w1)
       /\ isfile (disk w1) "/cache/.preview_trigger" = false
       /\ isfile (disk w1) "/cache/.preview_mask_toggle" = false
       /\ isdir (disk w1) "/cache" = true.
Proof.
  intros this w. split; [reflexivity|].
  destruct (trigger_clear_removes this None
              ["/cache/.preview_trigger"; "/cache/.preview_mask_toggle"] w eq_refl)
    as (w1 & Hrun & Hin & Hout & _).
  exists w1. split; [exact Hrun|].
  split; [apply Hin; left|]. split; [apply Hin; right; left|].
  unfold isdir. rewrite Hout; [reflexivity|].
  intros [E|[E|E]%elem_of_cons]%elem_of_cons; [discriminate E|discriminate E|].
  by apply elem_of_nil in E.
Defined.

(** A trigger type that the class does not know. *)
Lemma trigger_unknown_type_example :
  let this := PreviewTrigger.init "/cache" in
  let w := world_of fresh_cache cache_folder in
  PreviewTrigger.set this 7 "refresh" w = (Raise KeyError, w)
  /\ PreviewTrigger.clear this (Some "refresh") w = (Raise KeyError, w).
Proof.
  intros this w.
  apply (trigger_unknown_type "/cache" "refresh" 7 w); discriminate.
Defined.

(** Of the folders [a], modified at 3, and [b], modified at 9, the newest
    is [b]; the picture beside them is no folder. *)
Lemma get_newest_folder_newest_example :
  let w := world_of fresh_cache batch_folders in
  listdir (disk w) "/out" = Ok ["a"; "b"; "c.png"]
  /\ _get_newest_folder w = (Ok "/out/b", w)
  /\ mtime_of (disk w) "/out/a" <= mtime_of (disk w) "/out/b".
Proof.
  intros w.
  assert (Hnames : listdir (disk w) "/out" = Ok ["a"; "b"; "c.png"]) by reflexivity.
  split; [exact Hnames|].
  destruct (get_newest_folder_newest w "/out" ["a"; "b"; "c.png"] eq_refl Hnames)
    as (newest & Hrun & _ & Hnewest).
  destruct Hnewest as (_ & _ & Hmax); [discriminate|].
  assert (E : _get_newest_folder w = (Ok "/out/b", w)) by reflexivity.
  split; [exact E|]. rewrite E in Hrun. injection Hrun as <-.
  apply Hmax. left.
Defined.

(** Thumbnails of side 4 for a cache of thumbnails of side 2. *)
Lemma process_samples_mismatch_example :
  let w := world_of two_cached ∅ in
  exists w',
    _process_samples [wide_tile] ["/out/3.png"] 4 w = (Raise ValueError, w')
    /\ List.length (cached_items w') = 2%nat
    /\ List.length (filenames (cache w')) = 3%nat.
Proof.
  intros w.
  destruct (process_samples_mismatch [wide_tile] ["/out/3.png"] 4 w [4; 4; 3]
              {| item_shape := [2; 2; 3]; items := [tile 1; tile 2] |}
              eq_refl ltac:(by repeat constructor) eq_refl ltac:(discriminate))
    as (Hrun & _ & _).
  eexists. split; [exact Hrun|]. split; reflexivity.
Defined.

(** A refresh that loads one picture of two files leaves one thumbnail and
    one name. *)
Lemma cache_stays_aligned_example :
  let w := world_of fresh_cache two_files in
  exists w',
    load_latest_preview outlined 2 (4, 4) w = (Ok tt, w')
    /\ aligned w'
    /\ List.length (filenames (cache w')) = 1%nat.
Proof.
  intros w.
  assert (Hrun : load_latest_preview outlined 2 (4, 4) w
                 = (Ok tt, snd (load_latest_preview outlined 2 (4, 4) w)))
    by (vm_compute; reflexivity).
  eexists. split; [exact Hrun|].
  split; [|vm_compute; reflexivity].
  exact (proj1 (cache_stays_aligned outlined 2 (4, 4) w _ eq_refl Hrun)).
Defined.

(** No output folder on the disk, outside batch mode. *)
Lemma load_latest_preview_missing_folder_example :
  let w := world_of fresh_cache ∅ in
  load_latest_preview outlined 2 (4, 4) w = (Ok tt, w).
Proof.
  intros w.
  exact (load_latest_preview_missing_folder outlined 2 (4, 4) w "/out" eq_refl eq_refl).
Defined.

(** One picture in the output folder. *)
Lemma lone_image_not_shown_example :
  let w := world_of fresh_cache one_file in
  scan_output w = (Ok ("/out", ["/out/a.png"]), w)
  /\ load_latest_preview outlined 2 (4, 4) w = (Ok tt, w).
Proof.
  intros w.
  assert (Hscan : scan_output w = (Ok ("/out", ["/out/a.png"]), w)) by reflexivity.
  split; [exact Hscan|].
  apply (lone_image_not_shown outlined 2 (4, 4) w w "/out" "/out/a.png" Hscan).
  discriminate.
Defined.

(** Two thumbnails of side 2 in a panel of 4 by 2: one row of two. *)
Lemma place_previews_full_example :
  let w := world_of two_cached ∅ in
  exists display w',
    _place_previews outlined (4, 2) w = (Ok (Some display), w')
    /\ display = [[tile 1; tile 2]].
Proof.
  intros w.
  assert (H0 : 0 < 2) by reflexivity.
  assert (H1 : 0 <= 4) by discriminate.
  assert (H2 : 0 <= 2) by discriminate.
  destruct (place_previews_full outlined w (4, 2)
              {| item_shape := [2; 2; 3]; items := [tile 1; tile 2] |} 2 [2; 3]
              eq_refl eq_refl H0 H1 H2 eq_refl eq_refl)
    as (display & w' & Hrun & _).
  exists display, w'. split; [exact Hrun|].
  assert (E : _place_previews outlined (4, 2) w
              = (Ok (Some [[tile 1; tile 2]]), snd (_place_previews outlined (4, 2) w)))
    by reflexivity.
  rewrite E in Hrun. by injection Hrun as <- _.
Defined.

(** Five thumbnails of side 2 in a panel of 4 by 4. *)
Lemma place_previews_overfull_example :
  let w := world_of long_cache ∅ in
  exists w', _place_previews outlined (4, 4) w = (Raise ValueError, w').
Proof.
  intros w.
  assert (H0 : 0 < 2) by reflexivity.
  destruct (place_previews_overfull outlined w (4, 4)
              {| item_shape := [2; 2; 3];
                 items := [tile 1; tile 2; tile 3; tile 4; tile 5] |} 2 [2; 3]
              eq_refl eq_refl H0 ltac:(discriminate) ltac:(discriminate) eq_refl)
    as (w' & Hrun & _).
  by exists w'.
Defined.

(** A second refresh of a folder of two files that has not changed. *)
Lemma second_refresh_idle_example :
  let w := world_of fresh_cache two_files in
  exists w1,
    load_latest_preview outlined 2 (4, 4) w = (Ok tt, w1)
    /\ w1 <> w
    /\ load_latest_preview outlined 2 (4, 4) w1 = (Ok tt, w1).
Proof.
  intros w.
  assert (Hrun : load_latest_preview outlined 2 (4, 4) w
                 = (Ok tt, snd (load_latest_preview outlined 2 (4, 4) w)))
    by (vm_compute; reflexivity).
  assert (Hgui : forall out, _pathoutput (self w) = Some out ->
                   disk w !! gui_preview_of out = None).
  { intros out [= <-]. reflexivity. }
  eexists. split; [exact Hrun|]. split.
  - intros E. apply (f_equal (fun w => modified (cache w))) in E. discriminate E.
  - exact (proj2 (second_refresh_idle outlined 2 (4, 4) w _ Hgui Hrun)).
Defined.

(** One training preview in the preview folder, and the name of a single
    preview, long deleted, in the cache. *)
Lemma delete_preview_clears_example :
  let w := world_of previewed (training (photo 1)) in
  exists w',
    delete_preview w = (Ok tt, w')
    /\ disk w' !! "/cache/preview/.gui_training_preview_a.jpg" = None
    /\ isdir (disk w') "/cache/preview" = true
    /\ _previewcache (self w') = fresh_cache
    /\ load_latest_preview outlined 2 (4, 4) w' = (Raise AssertionError, w').
Proof.
  intros w.
  assert (Hlist : listdir (disk w) (_pathpreview (self w))
                  = Ok [".gui_training_preview_a.jpg"]) by reflexivity.
  assert (Hnd : NoDup [".gui_training_preview_a.jpg"]).
  { apply NoDup_singleton. }
  assert (Hdirs : forall p,
            p ∈ map (os_path_join (_pathpreview (self w)))
                    (List.filter is_training_preview [".gui_training_preview_a.jpg"])
                ++ List.filter is_gui_preview (filenames (cache w)) ->
            isdir (disk w) p = false).
  { apply Forall_forall.
    change (Forall (fun p => isdir (disk w) p = false)
              ["/cache/preview/.gui_training_preview_a.jpg"; "/out/.gui_preview.jpg"]).
    by repeat constructor. }
  destruct (delete_preview_clears outlined 2 (4, 4) w [".gui_training_preview_a.jpg"]
              Hlist Hnd Hdirs)
    as (w' & Hrun & Hdisk & _ & _ & _ & _ & Hcache & _ & _ & _ & Hpoll).
  exists w'. split; [exact Hrun|].
  split; [by rewrite Hdisk|]. split; [unfold isdir; by rewrite Hdisk|].
  split; [exact Hcache|exact Hpoll].
Defined.

(** No preview folder on the disk. *)
Lemma delete_preview_no_folder_example :
  let w := world_of previewed ∅ in
  delete_preview w = (Raise FileNotFoundError, w).
Proof.
  intros w. destruct (delete_preview_no_folder w eq_refl) as (e & Hrun & ->).
  exact Hrun.
Defined.

(** Two training previews, modified at 5 and at 8: the stream of the
    second carries the time of the first, 5, and not the time of its own
    file. *)
Lemma training_previews_stamped_example :
  let w := world_of fresh_cache two_trainings in
  let first := "/cache/preview/.gui_training_preview_a.jpg" in
  let second := "/cache/preview/.gui_training_preview_b.jpg" in
  fst (_get_images (_pathpreview (self w)) w) = Ok [first; second]
  /\ mtime_of (disk w) first = 5
  /\ mtime_of (disk w) second = 8
  /\ preview_name second = "B"
  /\ exists w' a b,
       load_training_preview fill_frame w = (Ok tt, w')
       /\ _previewtrain (self w') !! "A" = Some a
       /\ _previewtrain (self w') !! "B" = Some b
       /\ e_image b = {| im_size := (4, 4); im_load := None; im_thumb := fun _ => tile 2 |}
       /\ e_modified a = 5
       /\ e_modified b = 5.
Proof.
  intros w first second.
  assert (Hfiles : fst (_get_images (_pathpreview (self w)) w) = Ok [first; second])
    by reflexivity.
  split; [exact Hfiles|]. split; [reflexivity|]. split; [reflexivity|].
  split; [reflexivity|].
  assert (Hrun : load_training_preview fill_frame w
                 = (Ok tt, snd (load_training_preview fill_frame w)))
    by (vm_compute; reflexivity).
  set (w' := snd (load_training_preview fill_frame w)) in *.
  assert (Ha : exists a, _previewtrain (self w') !! "A" = Some a).
  { vm_compute. by eexists. }
  assert (Hb : exists b, _previewtrain (self w') !! "B" = Some b
                         /\ e_image b = {| im_size := (4, 4); im_load := None;
                                          im_thumb := fun _ => tile 2 |}).
  { vm_compute. eexists. split; reflexivity. }
  destruct Ha as (a & Ha). destruct Hb as (b & Hb & Himg).
  exists w', a, b. split; [exact Hrun|]. split; [exact Ha|]. split; [exact Hb|].
  split; [exact Himg|]. split.
  - destruct (training_previews_stamped fill_frame w _ [second] _ _ Hfiles Hrun "A" a Ha)
      as [Hm|(e0 & He0 & _)]; [exact Hm|discriminate He0].
  - destruct (training_previews_stamped fill_frame w _ [second] _ _ Hfiles Hrun "B" b Hb)
      as [Hm|(e0 & He0 & _)]; [exact Hm|discriminate He0].
Defined.

(** Ten polls of a training preview whose pixels cannot be read count to
    ten; the eleventh drops the stream. *)
Lemma training_stream_dropped_after_ten_example :
  let w := world_of fresh_cache (training (truncated ValueError)) in
  exists w10 w11,
    poll_training fill_frame 10 w = (Ok tt, w10)
    /\ _errcount (self w10) = 10 /\ stdout w10 = []
    /\ poll_training fill_frame 11 w = (Ok tt, w11)
    /\ _previewtrain (self w11) !! "A" = None
    /\ stdout w11 = ["Error reading the preview file for A"].
Proof.
  intros w.
  assert (Hfail : failing_stream "/cache/preview/.gui_training_preview_a.jpg" w).
  { split; [reflexivity|]. split; [|reflexivity].
    eexists. split; reflexivity. }
  destruct (training_stream_dropped_after_ten fill_frame _ w Hfail eq_refl)
    as (Hten & w11 & Hrun11 & Hgone & Hout).
  destruct (Hten 10%nat (le_n 10)) as (w10 & Hrun10 & Hcount & Hquiet).
  exists w10, w11. repeat split; assumption.
Defined.

(** Two files and a panel of one cell: one file is tried. *)
Lemma newest_files_shown_example :
  let w := world_of fresh_cache two_files in
  let files := ["/out/a.png"; "/out/b.jpg"] in
  num_images (2, 2) 2 = Ok 1
  /\ exists show_files unshown,
       files ≡ₚ unshown ++ show_files
       /\ List.length show_files = 1%nat
       /\ forall f g, f ∈ show_files -> g ∈ unshown ->
            ctime_of (disk w) g <= ctime_of (disk w) f.
Proof.
  intros w files.
  assert (H1 : Forall (fun f => is_Some (disk w !! f)) files).
  { repeat constructor; by eexists. }
  assert (H2 : num_images (2, 2) 2 = Ok 1) by reflexivity.
  assert (H3 : 0 < 1) by reflexivity.
  split; [exact H2|].
  destruct (newest_files_shown w files (2, 2) 2 1 H1 H2 H3)
    as (show_files & unshown & _ & Hperm & Hlen & _ & Hnewest).
  exists show_files, unshown. split; [exact Hperm|]. split; [exact Hlen|exact Hnewest].
Defined.

(** An instance that holds the stream of a file that is gone.  A poll of a
    folder with a training preview that reads prints nothing and keeps the
    old stream next to the new one; a poll of a folder without a file lets
    go of it. *)
Lemma training_streams_kept_example :
  let w := with_old_stream (training (photo 1)) in
  let w0 := with_old_stream no_training in
  is_Some (_previewtrain (self w) !! "Old")
  /\ fst (_get_images (_pathpreview (self w)) w)
     = Ok ["/cache/preview/.gui_training_preview_a.jpg"]
  /\ (exists w',
        load_training_preview fill_frame w = (Ok tt, w')
        /\ stdout w' = stdout w
        /\ is_Some (_previewtrain (self w') !! "Old")
        /\ is_Some (_previewtrain (self w') !! "A"))
  /\ is_Some (_previewtrain (self w0) !! "Old")
  /\ fst (_get_images (_pathpreview (self w0)) w0) = Ok []
  /\ (exists w0',
        load_training_preview fill_frame w0 = (Ok tt, w0')
        /\ _previewtrain (self w0') = ∅).
Proof.
  intros w w0.
  assert (Hold : is_Some (_previewtrain (self w) !! "Old")) by (vm_compute; by eexists).
  assert (Hold0 : is_Some (_previewtrain (self w0) !! "Old")) by (vm_compute; by eexists).
  split; [exact Hold|]. split; [reflexivity|]. split; [|split; [exact Hold0|split]].
  - assert (Hrun : load_training_preview fill_frame w
                   = (Ok tt, snd (load_training_preview fill_frame w)))
      by (vm_compute; reflexivity).
    eexists. split; [exact Hrun|]. split; [reflexivity|]. split.
    + exact (training_streams_kept fill_frame w _ _ Hrun eq_refl "Old" Hold).
    + vm_compute. by eexists.
  - reflexivity.
  - destruct (load_training_preview fill_frame w0) as [r0 w0'] eqn:Hrun0.
    destruct (training_streams_kept fill_frame w0 _ _ Hrun0) as (-> & Hgone & _).
    by exists w0'.
Defined.

(** A target that returned 7: the first call returns 7, the second waits,
    and so does the third. *)
Lemma get_result_in_turn_example :
  let finished := fst (run (init (Some (Returns (VInt 7))))) in
  fst (get_result finished) = Returned (VInt 7)
  /\ fst (get_result (after_calls 1 finished)) = Blocks
  /\ fst (get_result (after_calls 2 finished)) = Blocks.
Proof.
  intros finished.
  split; [exact (get_result_in_turn finished 0 eq_refl eq_refl)|].
  split; [exact (get_result_in_turn finished 1 eq_refl eq_refl)|].
  exact (get_result_in_turn finished 2 eq_refl eq_refl).
Defined.
